(** * bulk_load_es: the scanner, the worker pool and the run accounting

    A shallow embedding of [cmd/bulk_load_es/main.go]: the input scanner
    [scan], the body of the worker loop [processBatches], the binding of
    workers to daemon URLs done by [main], and the end of [main] that turns
    the scanner's counters into the run summary.

    Conventions.
    - Go's [int64] (and [int], taken at its 64-bit width) is a [Z] kept in
      range by [wrap64] after every increment; [%] is [Z.rem], as Go's
      remainder truncates towards zero.
    - A [*bytes.Buffer] is the [string] of the bytes written to it;
      [buf.Len()] is its [String.length].
    - Standard input, as [bufio.Scanner] hands it to the loop, is the list of
      the lines returned by the successive [scanner.Scan()] calls together
      with the value [scanner.Err()] has afterwards.
    - Channel traffic and process exits are recorded as a trace of events.
    - [time.Now()] and the floating point rates of the summary are left out. *)

From Stdlib Require Import ZArith List Bool String Ascii Arith Lia.
From Stdlib Require Import DecimalString Permutation.
Import ListNotations.

#[local] Open Scope Z_scope.

(** ** Machine integers *)

Definition wrap64 (z : Z) : Z := (z + 2 ^ 63) mod 2 ^ 64 - 2 ^ 63.

Definition maxInt64 : Z := 2 ^ 63 - 1.

(** ** Buffers *)

Definition newline : string := String "010"%char EmptyString.

(** [buf.Len()] *)
Definition Len (b : string) : Z := Z.of_nat (String.length b).

(** Number of line terminators held by a buffer. *)
Fixpoint countNewlines (b : string) : nat :=
  match b with
  | EmptyString => 0%nat
  | String c rest =>
      ((if Ascii.eqb c "010"%char then 1 else 0) + countNewlines rest)%nat
  end.

(** A line as [bufio.ScanLines] yields it holds no line terminator. *)
Definition isLine (l : string) : Prop := countNewlines l = 0%nat.

(** The whole items a batch holds: two lines make one item. *)
Definition itemsIn (batch : string) : Z := Z.of_nat (countNewlines batch) / 2.

(** ** Fatal exits, events and results *)

Inductive FatalError : Type :=
| CheckTotalsError (msg : string)            (* log.Fatal(err), line 442 *)
| ReadError (msg : string)                   (* log.Fatalf, line 471 *)
| BadBulkFormat                              (* line 484 *)
| CountMismatch (read expected : Z)          (* line 487 *)
| WriteError (msg : string).                 (* "Error writing", line 520 *)

Inductive Event : Type :=
| Send (batch : string)                      (* batchChan <- buf *)
| Done                                       (* close(inputDone) *)
| Exit1 (e : FatalError)                     (* log.Fatal: os.Exit(1) *)
| MakeChanPanic                              (* make(chan, n) with n < 0 *)
| SendBlocks.                                (* a send nobody receives *)

Inductive ScanResult : Type :=
| Returned (itemsRead bytesRead valuesRead : Z)
| Fatal (e : FatalError).

(** How often a trace closes [inputDone]. *)
Definition doneCount (events : list Event) : nat :=
  List.length (filter (fun e => match e with Done => true | _ => false end)
                      events).

(** Standard input as the scanner delivers it: the lines the successive
    calls of [scanner.Scan()] return, and what [scanner.Err()] answers once
    the loop is over. *)
Record Input : Type := mkInput {
  stdinLines : list string;
  scannerErr : option string
}.

(** The local variables of [scan] that live across loop iterations, and the
    batches already handed to [batchChan], oldest first. *)
Record ScanState : Type := mkScanState {
  buf : string;
  linesRead : Z;
  itemsRead : Z;
  bytesRead : Z;
  totalPoints : Z;
  totalValues : Z;
  itemsThisBatch : Z;
  sent : list string
}.

Definition initScan : ScanState :=
  mkScanState ""%string 0 0 0 0 0 0 [].

(** How one pass through the loop body ends. *)
Inductive LineExit : Type :=
| NextLine                                   (* fall through, or [continue] *)
| LimitBreak                                 (* [break] on [hitLimit] *)
| LineFatal (e : FatalError).

(** How the [for scanner.Scan()] loop ends. *)
Inductive LoopExit : Type :=
| InputExhausted
| HitLimit
| LoopFatal (e : FatalError).

Section Scanner.

(** [common.CheckTotalValues] lives in another package of the repository;
    the scanner only depends on the triple it returns. *)
Variable CheckTotalValues : string -> Z * Z * option string.

(** The program options [scan] reads. *)
Variable itemLimit : Z.

(** The function's argument (called with [batchSize]). *)
Variable itemsPerBatch : Z.

(** A line is a totals record when the check reports a positive total. *)
Definition isTotalsRecord (line : string) : bool :=
  let '(tp, tv, _) := CheckTotalValues line in
  (0 <? tp) || (0 <? tv).

(** The lines that are not skipped as totals records. *)
Definition dataLines (lines : list string) : list string :=
  filter (fun line => negb (isTotalsRecord line)) lines.

(** One pass through the body of the loop, lines 437-467.  The buffer
    taken from the pool after a send is empty: the workers only pool
    buffers they have reset. *)
Definition scanLine (s : ScanState) (line : string) : ScanState * LineExit :=
  let '(tp, tv, err) := CheckTotalValues line in
  let s0 := mkScanState (buf s) (linesRead s) (itemsRead s) (bytesRead s)
                        tp tv (itemsThisBatch s) (sent s) in
  if (0 <? tp) || (0 <? tv) then (s0, NextLine)
  else
    match err with
    | Some msg => (s0, LineFatal (CheckTotalsError msg))
    | None =>
        let linesRead' := wrap64 (linesRead s + 1) in
        let buf' := (buf s ++ line ++ newline)%string in
        let boundary := Z.rem linesRead' 2 =? 0 in
        let itemsRead' :=
          if boundary then wrap64 (itemsRead s + 1) else itemsRead s in
        let itemsThisBatch' :=
          if boundary then wrap64 (itemsThisBatch s + 1)
          else itemsThisBatch s in
        let hitLimit := (0 <=? itemLimit) && (itemLimit <=? itemsRead') in
        let s1 :=
          if (itemsThisBatch' =? itemsPerBatch) || hitLimit then
            mkScanState ""%string linesRead' itemsRead'
                        (wrap64 (bytesRead s + Len buf'))
                        tp tv 0 (sent s ++ [buf'])
          else
            mkScanState buf' linesRead' itemsRead' (bytesRead s)
                        tp tv itemsThisBatch' (sent s) in
        (s1, if hitLimit then LimitBreak else NextLine)
    end.

(** The loop, lines 435-468. *)
Fixpoint scanLoop (lines : list string) (s : ScanState)
  : ScanState * LoopExit :=
  match lines with
  | [] => (s, InputExhausted)
  | line :: rest =>
      match scanLine s line with
      | (s', NextLine) => scanLoop rest s'
      | (s', LimitBreak) => (s', HitLimit)
      | (s', LineFatal e) => (s', LoopFatal e)
      end
  end.

(** "make sure last batch goes out", lines 475-477. *)
Definition flushLast (s : ScanState) : list string :=
  if 0 <? itemsThisBatch s then sent s ++ [buf s] else sent s.

(** The two checks after [close(inputDone)], lines 483-490. *)
Definition finalChecks (s : ScanState) : ScanResult :=
  if negb (Z.rem (linesRead s) 2 =? 0) then Fatal BadBulkFormat
  else if negb (itemsRead s =? totalPoints s) then
    Fatal (CountMismatch (itemsRead s) (totalPoints s))
  else Returned (itemsRead s) (bytesRead s) (totalValues s).

Definition resultEvents (r : ScanResult) : list Event :=
  match r with
  | Returned _ _ _ => []
  | Fatal e => [Exit1 e]
  end.

(** [scan]: the trace it leaves and how it ends. *)
Definition scan (input : Input) : list Event * ScanResult :=
  let '(s, exit) := scanLoop (stdinLines input) initScan in
  match exit with
  | LoopFatal e => (map Send (sent s) ++ [Exit1 e], Fatal e)
  | _ =>
      match scannerErr input with
      | Some msg =>
          (map Send (sent s) ++ [Exit1 (ReadError msg)],
           Fatal (ReadError msg))
      | None =>
          let r := finalChecks s in
          (map Send (flushLast s) ++ [Done] ++ resultEvents r, r)
      end
  end.

(** The scanner gets past reading: the loop is left at the end of the
    input or by the limit break, and [scanner.Err()] is nil. *)
Definition readCompletes (input : Input) : bool :=
  match snd (scanLoop (stdinLines input) initScan), scannerErr input with
  | LoopFatal _, _ => false
  | _, Some _ => false
  | _, None => true
  end.

End Scanner.

(** The two fatal exits of the checks that follow [close(inputDone)]. *)
Definition isFormatError (e : FatalError) : bool :=
  match e with
  | BadBulkFormat | CountMismatch _ _ => true
  | _ => false
  end.

(** ** Workers *)

(** [HTTPWriterConfig]: the one field [main] sets. *)
Record HTTPWriterConfig : Type := mkConfig { Host : string }.

(** The telemetry point built at lines 529-536 (its timestamp left out). *)
Record Point : Type := mkPoint {
  measurement : string;
  src_addr : string;
  dst_addr : string;
  worker_id : string;
  worker_req_num : Z;
  gzip : bool;
  body_bytes : Z
}.

(** One call of [w.WriteLineProtocol]. *)
Record WriteCall : Type := mkWrite {
  toHost : string;
  body : string;
  isGzip : bool
}.

(** What a worker owns: its writer, its label and its batch counter. *)
Record Worker : Type := mkWorker {
  c : HTTPWriterConfig;
  telemetryWorkerLabel : string;
  batchesSeen : Z
}.

(** [bufPool]: the buffers currently pooled.  [Get] takes one if there is
    one and allocates an empty one otherwise ([New]); [Put] adds one. *)
Definition BufPool : Type := list string.

Definition poolGet (p : BufPool) : string * BufPool :=
  match p with
  | b :: rest => (b, rest)
  | [] => (""%string, [])
  end.

Definition poolPut (b : string) (p : BufPool) : BufPool := b :: p.

(** [b.Reset()] *)
Definition Reset (b : string) : string := ""%string.

(** What one pass through the body of the worker loop leaves behind. *)
Record Iteration : Type := mkIteration {
  workerAfter : Worker;
  poolAfter : BufPool;
  writes : list WriteCall;
  toTelemetry : option Point;
  crashed : option FatalError
}.

Section Workers.

(** Program options read by the worker loop. *)
Variable doLoad : bool.
Variable useGzip : bool.
Variable telemetryHostname : string.

(** The sink: the error [w.WriteLineProtocol] returns, if any. *)
Variable WriteLineProtocol : WriteCall -> option string.

(** [fasthttp.WriteGzip] as a function from the bytes to their compressed
    form. *)
Variable WriteGzip : string -> string.

(** The body of [for batch := range batchChan], lines 497-538, up to the
    send on [telemetrySink]; [telemetryOn] is [telemetrySink != nil]. *)
Definition processBatch (telemetryOn : bool) (w : Worker) (pool : BufPool)
           (batch : string) : Iteration :=
  let w' := mkWorker (c w) (telemetryWorkerLabel w)
                     (wrap64 (batchesSeen w + 1)) in
  if negb doLoad then mkIteration w' pool [] None None
  else
    let '(call, pool1) :=
      if useGzip then
        let '(scratch, pool0) := poolGet pool in
        let compressedBatch := (scratch ++ WriteGzip batch)%string in
        (mkWrite (Host (c w)) compressedBatch true,
         poolPut (Reset compressedBatch) pool0)
      else (mkWrite (Host (c w)) batch false, pool) in
    let bodySize := Len (body call) in
    match WriteLineProtocol call with
    | Some msg => mkIteration w' pool1 [call] None (Some (WriteError msg))
    | None =>
        let pool2 := poolPut (Reset batch) pool1 in
        let p :=
          if telemetryOn then
            Some (mkPoint "benchmark_write" telemetryHostname (Host (c w))
                          (telemetryWorkerLabel w) (batchesSeen w')
                          useGzip bodySize)
          else None in
        mkIteration w' pool2 [call] p None
    end.

(** *** The worker as a machine, one step per blocking operation *)

(** A Go channel of points: capacity, queued elements, and whether a
    receiver is parked on it. *)
Record Chan : Type := mkChan {
  capacity : nat;
  queued : list Point;
  receiverParked : bool;
  handedOver : list Point
}.

(** A send completes at once when a receiver is parked or the buffer has
    room, and blocks otherwise. *)
Definition canSend (ch : Chan) : bool :=
  receiverParked ch || (List.length (queued ch) <? capacity ch)%nat.

Definition chanSend (p : Point) (ch : Chan) : Chan :=
  if receiverParked ch then
    mkChan (capacity ch) (queued ch) false (handedOver ch ++ [p])
  else mkChan (capacity ch) (queued ch ++ [p]) false (handedOver ch).

(** Every point the sink has taken so far, oldest first. *)
Definition accepted (ch : Chan) : list Point := handedOver ch ++ queued ch.

Inductive WorkerPC : Type :=
| AtDequeue                                (* [range batchChan] *)
| AtTelemetrySend (p : Point)              (* [telemetrySink <- p] *)
| WorkerDone                               (* [workersGroup.Done()] *)
| WorkerExit (e : FatalError).

Record Machine : Type := mkMachine {
  pc : WorkerPC;
  self : Worker;
  bufPool : BufPool;
  batchChan : list string;
  batchChanClosed : bool;
  telemetrySink : option Chan;
  written : list WriteCall
}.

Definition isSome {A : Type} (o : option A) : bool :=
  match o with Some _ => true | None => false end.

(** The worker's next step; [None] when it is blocked or has stopped. *)
Definition workerStep (m : Machine) : option Machine :=
  match pc m with
  | AtDequeue =>
      match batchChan m with
      | batch :: rest =>
          let it := processBatch (isSome (telemetrySink m)) (self m)
                                 (bufPool m) batch in
          let next :=
            match crashed it, toTelemetry it with
            | Some e, _ => WorkerExit e
            | None, Some p => AtTelemetrySend p
            | None, None => AtDequeue
            end in
          Some (mkMachine next (workerAfter it) (poolAfter it) rest
                          (batchChanClosed m) (telemetrySink m)
                          (written m ++ writes it))
      | [] =>
          if batchChanClosed m then
            Some (mkMachine WorkerDone (self m) (bufPool m) []
                            true (telemetrySink m) (written m))
          else None
      end
  | AtTelemetrySend p =>
      match telemetrySink m with
      | Some ch =>
          if canSend ch then
            Some (mkMachine AtDequeue (self m) (bufPool m) (batchChan m)
                            (batchChanClosed m) (Some (chanSend p ch))
                            (written m))
          else None
      | None => None
      end
  | WorkerDone => None
  | WorkerExit _ => None
  end.

End Workers.

(** ** The pool and the run *)

(** [fmt.Sprintf("%d", i)] for a non-negative [i]. *)
Definition decimal (i : nat) : string :=
  NilEmpty.string_of_uint (Nat.to_uint i).

(** The loop of [main] that starts the workers, lines 363-370: worker [i]
    gets a writer for [daemonUrls[i%len(daemonUrls)]] and the label [i].
    The list of URLs comes from [strings.Split] and is never empty. *)
Definition startWorkers (workers : Z) (daemonUrls : list string)
  : list Worker :=
  map (fun i : nat =>
         mkWorker
           (mkConfig (nth (i mod List.length daemonUrls) daemonUrls ""%string))
           (decimal i) 0)
      (seq 0 (Z.to_nat workers)).

(** The batches a trace puts on [batchChan], in order. *)
Fixpoint batchesOf (events : list Event) : list string :=
  match events with
  | [] => []
  | Send b :: rest => b :: batchesOf rest
  | _ :: rest => batchesOf rest
  end.

(** What a trace holds before its first send on [batchChan]. *)
Fixpoint beforeFirstSend (events : list Event) : list Event :=
  match events with
  | [] => []
  | Send _ :: _ => []
  | e :: rest => e :: beforeFirstSend rest
  end.

(** The workers taken together: their private state, the shared buffer
    pool, the writes made so far with the index of the worker that made
    them, and the points sent to telemetry. *)
Record PoolState : Type := mkPool {
  poolWorkers : list Worker;
  sharedPool : BufPool;
  poolWrites : list (nat * WriteCall);
  poolPoints : list Point
}.

(** [replaceNth i x l]: [l] with its element [i] replaced by [x]. *)
Fixpoint replaceNth {A : Type} (i : nat) (x : A) (l : list A) : list A :=
  match l, i with
  | [], _ => []
  | _ :: rest, O => x :: rest
  | y :: rest, S j => y :: replaceNth j x rest
  end.

(** The summary [main] prints: the three counters returned by [scan]. *)
Record RunStats : Type := mkStats {
  statItems : Z;
  statBytes : Z;
  statValues : Z
}.

Record Run : Type := mkRun {
  runTrace : list Event;
  runWrites : list (nat * WriteCall);
  runStats : option RunStats
}.

Section Main.

Variable CheckTotalValues : string -> Z * Z * option string.
Variable WriteLineProtocol : WriteCall -> option string.
Variable WriteGzip : string -> string.

(** Program options. *)
Variable daemonUrls : list string.
Variable workers : Z.
Variable batchSize : Z.
Variable itemLimit : Z.
Variable useGzip : bool.
Variable doLoad : bool.
Variable telemetryHost : string.
Variable telemetryHostname : string.

(** [telemetryChanPoints] is only made when a telemetry host is given. *)
Definition telemetryOn : bool := negb (telemetryHost =? "")%string.

(** The workers race for the batches of [batchChan], which leaves the
    channel in the order they were sent.  [sched] names, for each batch
    in turn, the worker that wins it.  [drain] is the run of the pool in
    which the passes through the loop body do not overlap: the worker
    that wins a batch ends its pass before the next batch is taken, so
    that [poolWrites] lists the writes in the order of the dequeues, and
    the pool stops at the first failed write.  In the program the passes
    of different workers overlap, their writes reach the servers in any
    order and may follow a failed write; [sysStep] below is the process
    with every interleaving.  [drain] leaves in the channel the batches
    nobody is scheduled for.  Sends on the telemetry channel are taken to
    complete; [workerStep] above is the view in which they may block. *)
Fixpoint drain (sched : list nat) (batches : list string) (st : PoolState)
  : PoolState * option FatalError :=
  match batches, sched with
  | batch :: batches', i :: sched' =>
      match nth_error (poolWorkers st) i with
      | Some w =>
          let it := processBatch doLoad useGzip telemetryHostname
                                 WriteLineProtocol WriteGzip
                                 telemetryOn w (sharedPool st) batch in
          let st' :=
            mkPool (replaceNth i (workerAfter it) (poolWorkers st))
                   (poolAfter it)
                   (poolWrites st ++ map (pair i) (writes it))
                   (poolPoints st ++
                      match toTelemetry it with
                      | Some p => [p] | None => [] end) in
          match crashed it with
          | Some e => (st', Some e)
          | None => drain sched' batches' st'
          end
      | None => (st, None)
      end
  | _, _ => (st, None)
  end.

(** [main] from line 349 on: make the channel, start the workers, scan,
    let the workers drain the channel, and print the summary.
    [make(chan *bytes.Buffer, workers)] on line 355 panics for a negative
    number of workers.  With no worker at all the channel has no buffer
    and no receiver, so that the first send of the scanner never
    completes; only a scan that sends nothing gets past it.  A fatal exit
    of the scanner or of a worker ends the process before any summary;
    the writes listed then are those of the batches sent until that exit,
    of which the workers may have made only some. *)
Definition main (sched : list nat) (input : Input) : Run :=
  if workers <? 0 then mkRun [MakeChanPanic] [] None
  else
    let pool0 := mkPool (startWorkers workers daemonUrls) [] [] [] in
    let '(events, r) := scan CheckTotalValues itemLimit batchSize input in
    match workers =? 0, batchesOf events with
    | true, _ :: _ => mkRun (beforeFirstSend events ++ [SendBlocks]) [] None
    | _, _ =>
        let '(pool1, crash) := drain sched (batchesOf events) pool0 in
        match r, crash with
        | Returned items bytes values, None =>
            mkRun events (poolWrites pool1)
                  (Some (mkStats items bytes values))
        | Returned _ _ _, Some e =>
            mkRun (events ++ [Exit1 e]) (poolWrites pool1) None
        | Fatal _, _ => mkRun events (poolWrites pool1) None
        end
    end.

End Main.

(** The bytes handed to the sinks, summed over the writes. *)
Definition bytesSubmitted (ws : list (nat * WriteCall)) : Z :=
  fold_right (fun w acc => Len (body (snd w)) + acc) 0 ws.

(** Modelled from the spec: [common.CheckTotalValues] is in a package that is
    not among the sources; the spec describes what it recognises as an
    expected total "supplied by an out-of-band signal in the stream".  This
    stand-in takes the records that carry such a signal from a table and
    answers [(0, 0, nil)] for every other line. *)
Fixpoint tableCheck (table : list (string * (Z * Z * option string)))
         (line : string) : Z * Z * option string :=
  match table with
  | [] => (0, 0, None)
  | (key, answer) :: rest =>
      if (key =? line)%string then answer else tableCheck rest line
  end.

(** A sink that accepts every write, and a compressor that stores. *)
Definition alwaysWritten (call : WriteCall) : option string := None.
Definition storeOnly (b : string) : string := b.

(** ** Invariants of the scanner's loop *)

(** At the head of the loop the batch under construction holds fewer than
    [B] items, and its buffer holds two lines for each of them plus the
    first line of the next item when an odd number of lines was read. *)
Definition batchInv (B : Z) (s : ScanState) : Prop :=
  0 <= itemsThisBatch s < B /\
  Z.of_nat (countNewlines (buf s)) =
    2 * itemsThisBatch s + (if Z.even (linesRead s) then 0 else 1).

(** No batch holds more than [2 * B] lines. *)
Definition boundedBatches (B : Z) (batches : list string) : Prop :=
  Forall (fun b => Z.of_nat (countNewlines b) <= 2 * B) batches.

(** The counters agree with the number of lines counted so far. *)
Definition countInv (s : ScanState) : Prop :=
  0 <= linesRead s /\ itemsRead s = linesRead s / 2.

(** Two scanner states that differ at most in the totals last reported. *)
Definition sameBatchState (s1 s2 : ScanState) : Prop :=
  buf s1 = buf s2 /\ sent s1 = sent s2 /\
  linesRead s1 = linesRead s2 /\ itemsRead s1 = itemsRead s2 /\
  bytesRead s1 = bytesRead s2 /\ itemsThisBatch s1 = itemsThisBatch s2.

(** Every worker of a pool writes to the URL its index selects. *)
Definition boundToUrls (daemonUrls : list string) (ws : list Worker) : Prop :=
  forall i w, nth_error ws i = Some w ->
    Host (c w) = nth (i mod List.length daemonUrls) daemonUrls ""%string.

(** The bytes of a list of buffers, and the bytes a list of lines takes
    once each is written with its line terminator. *)
Definition sumLen (bufs : list string) : Z :=
  fold_right (fun b acc => Len b + acc) 0 bufs.

Definition lineBytes (lines : list string) : Z :=
  fold_right (fun l acc => Len l + 1 + acc) 0 lines.

(** [bytesRead] is the size of the batches sent from inside the loop. *)
Definition bytesInv (s : ScanState) : Prop := bytesRead s = sumLen (sent s).

(** ** Sample inputs and states *)

(** A totals check that knows three records, each announcing a number of
    points and of values. *)
Definition sampleCheck : string -> Z * Z * option string :=
  tableCheck
    [("dataset-size:1,2"%string, (1, 2, None));
     ("dataset-size:2,4"%string, (2, 4, None));
     ("dataset-size:3,6"%string, (3, 6, None))].

Definition oneItem : Input :=
  mkInput ["action1"; "doc1"; "dataset-size:1,2"]%string None.

Definition twoItems : Input :=
  mkInput ["action1"; "doc1"; "action2"; "doc2"; "dataset-size:2,4"]%string
          None.

Definition threeItems : Input :=
  mkInput ["action1"; "doc1"; "action2"; "doc2"; "action3"; "doc3";
           "dataset-size:3,6"]%string None.

Definition oddLines : Input :=
  mkInput ["action1"; "doc1"; "action2"; "dataset-size:1,2"]%string None.

(** A line longer than the scanner's buffer: [scanner.Err()] is set. *)
Definition unreadable : Input :=
  mkInput ["action1"; "doc1"]%string
          (Some "bufio.Scanner: token too long"%string).

Definition batch1 : string :=
  ("action1" ++ newline ++ "doc1" ++ newline)%string.

Definition batch2 : string :=
  ("action2" ++ newline ++ "doc2" ++ newline)%string.

Definition sampleUrl : string := "http://localhost:9200"%string.

Definition sampleWorker : Worker := mkWorker (mkConfig sampleUrl) "0"%string 0.

Definition samplePoint : Point :=
  mkPoint "benchmark_write" "loader" sampleUrl "0" 1 false 13.

(** A telemetry channel with one slot, taken, and nobody receiving. *)
Definition fullSink : Chan := mkChan 1 [samplePoint] false [].

(** The same channel with its slot free. *)
Definition freeSink : Chan := mkChan 1 [] false [].

(** A worker that has written [batch1] and is about to send its point. *)
Definition atSend (sink : Chan) : Machine :=
  mkMachine (AtTelemetrySend samplePoint)
            (mkWorker (mkConfig sampleUrl) "0"%string 1)
            [""%string] [batch2] false (Some sink)
            [mkWrite sampleUrl batch1 false].

Definition batch3 : string :=
  ("action3" ++ newline ++ "doc3" ++ newline)%string.

Definition twoUrls : list string :=
  ["http://es0:9200"; "http://es1:9200"]%string.

(** ** What the batches hold *)

(** The bytes of a list of buffers, one after the other. *)
Definition flat (bufs : list string) : string :=
  fold_right append ""%string bufs.

(** The bytes the scanner writes for a list of lines: each line followed
    by a line terminator. *)
Definition asWritten (lines : list string) : string :=
  fold_right (fun l acc => (l ++ newline ++ acc)%string) ""%string lines.

(** The batch under construction holds a whole item, or nothing, whenever
    an even number of lines was read; and it holds no more items than
    lines were read. *)
Definition pendingInv (s : ScanState) : Prop :=
  0 <= itemsThisBatch s <= linesRead s /\
  (buf s = ""%string \/ 0 < itemsThisBatch s \/ Z.even (linesRead s) = false).

(** All the batches hold exactly [2 * B] lines. *)
Definition fullBatches (B : Z) (batches : list string) : Prop :=
  Forall (fun b => Z.of_nat (countNewlines b) = 2 * B) batches.

(** ** Running one worker *)

(** The worker's steps, one after the other, until it blocks or stops or
    the fuel is used up. *)
Fixpoint runWorker (doLoad useGzip : bool) (telemetryHostname : string)
         (WriteLineProtocol : WriteCall -> option string)
         (WriteGzip : string -> string) (fuel : nat) (m : Machine)
  : Machine :=
  match fuel with
  | O => m
  | S fuel' =>
      match workerStep doLoad useGzip telemetryHostname WriteLineProtocol
                       WriteGzip m with
      | Some m' =>
          runWorker doLoad useGzip telemetryHostname WriteLineProtocol
                    WriteGzip fuel' m'
      | None => m
      end
  end.

(** The write a worker makes of a batch. *)
Definition writeOf (useGzip : bool) (WriteGzip : string -> string)
           (host batch : string) : WriteCall :=
  mkWrite host (if useGzip then WriteGzip batch else batch) useGzip.

(** Every pooled buffer is empty. *)
Definition allEmpty (pool : BufPool) : Prop :=
  Forall (fun b => b = ""%string) pool.

(** Every worker of a pool carries its index as its label. *)
Definition labelled (ws : list Worker) : Prop :=
  forall i w, nth_error ws i = Some w -> telemetryWorkerLabel w = decimal i.

(** ** The goroutines, step by step *)

(** Where a worker stands in [processBatches]: one stage for each point at
    which it touches the channel, the buffer pool, the server or the
    telemetry channel. *)
Inductive Stage : Type :=
| Receiving                        (* [range batchChan], line 496 *)
| Compressing (batch : string)     (* [bufPool.Get], [WriteGzip], 507-508 *)
| Calling (batch payload : string) (* before [WriteLineProtocol], 510, 516 *)
| Awaiting (batch : string) (call : WriteCall)      (* request in flight *)
| Pooling (batch : string) (call : WriteCall) (err : option string)
                                   (* [compressedBatch.Reset], [Put], 512-513 *)
| Failing (call : WriteCall) (msg : string)         (* [log.Fatalf], 520 *)
| Recycling (batch : string) (call : WriteCall)
                                   (* [batch.Reset], [bufPool.Put], 524-525 *)
| Reporting (p : Point)            (* [telemetrySink <- p], line 537 *)
| Finished.                        (* [workersGroup.Done()], line 540 *)

(** A worker goroutine: what it owns and where it stands. *)
Record Goroutine : Type := mkGo {
  goWorker : Worker;
  goStage : Stage
}.

(** The process while [scan] and the workers run: what [scan] has still
    to do, [batchChan] and whether [main] has closed it, the workers,
    [bufPool], the telemetry channel (nil without a telemetry host), the
    requests issued so far with the index of the worker that issued
    them, and the event that has ended the process, if any.  The calls of
    [bufPool.Get] that [scan] makes are left out: they only take
    buffers out of the pool. *)
Record Sys : Type := mkSys {
  script : list Event;
  chanBuf : list string;
  chanClosed : bool;
  goroutines : list Goroutine;
  pooled : BufPool;
  telemetry : option Chan;
  requests : list (nat * WriteCall);
  exited : option Event
}.

(** Who moves next: [scan] (and [main] once [scan] has returned), the
    reader of the telemetry channel, or the worker of a given index. *)
Inductive Actor : Type :=
| Scanner
| Collector
| Go (i : nat).

(** A receive on a channel of points: the oldest queued point is taken;
    on an empty channel the receiver parks. *)
Definition chanRecv (ch : Chan) : Chan :=
  match queued ch with
  | p :: rest => mkChan (capacity ch) rest false (handedOver ch ++ [p])
  | [] => mkChan (capacity ch) [] true (handedOver ch)
  end.

(** What the telemetry sink learns of a write: the label of the worker,
    the URL, the gzip flag and the size of the body. *)
Definition Sample : Type := (string * string * bool * Z)%type.

Definition pointSample (p : Point) : Sample :=
  (worker_id p, dst_addr p, gzip p, body_bytes p).

Definition requestSample (r : nat * WriteCall) : Sample :=
  (decimal (fst r), toHost (snd r), isGzip (snd r), Len (body (snd r))).

Definition Sample_dec (x y : Sample) : {x = y} + {x <> y}.
Proof.
  repeat decide equality; try apply Z.eq_dec; try apply string_dec.
Defined.

Definition isFinished (g : Goroutine) : bool :=
  match goStage g with Finished => true | _ => false end.

Section Concurrent.

Variable CheckTotalValues : string -> Z * Z * option string.
Variable WriteLineProtocol : WriteCall -> option string.
Variable WriteGzip : string -> string.
Variable daemonUrls : list string.
Variable workers : Z.
Variable batchSize : Z.
Variable itemLimit : Z.
Variable useGzip : bool.
Variable doLoad : bool.
Variable telemetryHost : string.
Variable telemetryHostname : string.

(** The capacity of the channel [report.TelemetryRunAsync] returns;
    package [report] is not among the sources. *)
Variable intake : nat.

(** The bytes a worker sends for a batch. *)
Definition payloadOf (batch : string) : string :=
  if useGzip then WriteGzip batch else batch.

(** One move of the worker of index [i], lines 496-540; [None] when it
    waits on a channel or has stopped. *)
Definition workerMove (i : nat) (g : Goroutine) (st : Sys) : option Sys :=
  let w := goWorker g in
  let at_ sg := replaceNth i (mkGo w sg) (goroutines st) in
  match goStage g with
  | Receiving =>
      match chanBuf st with
      | batch :: rest =>
          let w' := mkWorker (c w) (telemetryWorkerLabel w)
                             (wrap64 (batchesSeen w + 1)) in
          let sg :=
            if negb doLoad then Receiving
            else if useGzip then Compressing batch
            else Calling batch batch in
          Some (mkSys (script st) rest (chanClosed st)
                      (replaceNth i (mkGo w' sg) (goroutines st))
                      (pooled st) (telemetry st) (requests st) (exited st))
      | [] =>
          if chanClosed st then
            Some (mkSys (script st) [] true (at_ Finished)
                        (pooled st) (telemetry st) (requests st) (exited st))
          else None
      end
  | Compressing batch =>
      let '(scratch, pool1) := poolGet (pooled st) in
      Some (mkSys (script st) (chanBuf st) (chanClosed st)
                  (at_ (Calling batch (scratch ++ WriteGzip batch)))
                  pool1 (telemetry st) (requests st) (exited st))
  | Calling batch payload =>
      let call := mkWrite (Host (c w)) payload useGzip in
      Some (mkSys (script st) (chanBuf st) (chanClosed st)
                  (at_ (Awaiting batch call))
                  (pooled st) (telemetry st)
                  (requests st ++ [(i, call)]) (exited st))
  | Awaiting batch call =>
      let err := WriteLineProtocol call in
      let sg :=
        if useGzip then Pooling batch call err
        else
          match err with
          | Some msg => Failing call msg
          | None => Recycling batch call
          end in
      Some (mkSys (script st) (chanBuf st) (chanClosed st) (at_ sg)
                  (pooled st) (telemetry st) (requests st) (exited st))
  | Pooling batch call err =>
      let sg :=
        match err with
        | Some msg => Failing call msg
        | None => Recycling batch call
        end in
      Some (mkSys (script st) (chanBuf st) (chanClosed st) (at_ sg)
                  (poolPut (Reset (body call)) (pooled st))
                  (telemetry st) (requests st) (exited st))
  | Failing call msg =>
      Some (mkSys (script st) (chanBuf st) (chanClosed st) (goroutines st)
                  (pooled st) (telemetry st) (requests st)
                  (Some (Exit1 (WriteError msg))))
  | Recycling batch call =>
      let sg :=
        match telemetry st with
        | Some _ =>
            Reporting (mkPoint "benchmark_write" telemetryHostname
                               (Host (c w)) (telemetryWorkerLabel w)
                               (batchesSeen w) useGzip (Len (body call)))
        | None => Receiving
        end in
      Some (mkSys (script st) (chanBuf st) (chanClosed st) (at_ sg)
                  (poolPut (Reset batch) (pooled st))
                  (telemetry st) (requests st) (exited st))
  | Reporting p =>
      match telemetry st with
      | Some ch =>
          if canSend ch then
            Some (mkSys (script st) (chanBuf st) (chanClosed st)
                        (at_ Receiving) (pooled st)
                        (Some (chanSend p ch)) (requests st) (exited st))
          else None
      | None => None
      end
  | Finished => None
  end.

(** One move of [scan], and of [main] after it: the next event of the
    trace of [scan], where a send waits for room in [batchChan], which
    holds up to [workers] batches; then [close(batchChan)], line 379. *)
Definition scannerMove (st : Sys) : option Sys :=
  match script st with
  | Send batch :: rest =>
      if (List.length (chanBuf st) <? Z.to_nat workers)%nat then
        Some (mkSys rest (chanBuf st ++ [batch]) (chanClosed st)
                    (goroutines st) (pooled st) (telemetry st)
                    (requests st) (exited st))
      else None
  | Done :: rest =>
      Some (mkSys rest (chanBuf st) (chanClosed st) (goroutines st)
                  (pooled st) (telemetry st) (requests st) (exited st))
  | Exit1 e :: rest =>
      Some (mkSys rest (chanBuf st) (chanClosed st) (goroutines st)
                  (pooled st) (telemetry st) (requests st)
                  (Some (Exit1 e)))
  | MakeChanPanic :: _ => None
  | SendBlocks :: _ => None
  | [] =>
      if chanClosed st then None
      else
        Some (mkSys [] (chanBuf st) true (goroutines st) (pooled st)
                    (telemetry st) (requests st) (exited st))
  end.

(** Modelled from the spec: the telemetry sink "accepts TelemetryPoints
    via a bounded intake queue" that a background flusher empties; its
    code is in package [report], which is not among the sources.  One
    move of the flusher is one receive on the channel. *)
Definition collectorMove (st : Sys) : option Sys :=
  match telemetry st with
  | Some ch =>
      Some (mkSys (script st) (chanBuf st) (chanClosed st) (goroutines st)
                  (pooled st) (Some (chanRecv ch)) (requests st)
                  (exited st))
  | None => None
  end.

(** One move of the process; nothing moves once the process has exited. *)
Definition sysStep (a : Actor) (st : Sys) : option Sys :=
  match exited st with
  | Some _ => None
  | None =>
      match a with
      | Scanner => scannerMove st
      | Collector => collectorMove st
      | Go i =>
          match nth_error (goroutines st) i with
          | Some g => workerMove i g st
          | None => None
          end
      end
  end.

(** The process under a schedule: the actors are given the floor one
    after the other; one that cannot move is passed over. *)
Fixpoint runSys (sched : list Actor) (st : Sys) : Sys :=
  match sched with
  | [] => st
  | a :: rest =>
      match sysStep a st with
      | Some st' => runSys rest st'
      | None => runSys rest st
      end
  end.

(** The process when [main] calls [scan], line 373: the channel made, the
    workers started, nothing sent or written yet. *)
Definition startSys (input : Input) : Sys :=
  if workers <? 0 then mkSys [] [] false [] [] None [] (Some MakeChanPanic)
  else
    mkSys (fst (scan CheckTotalValues itemLimit batchSize input)) [] false
          (map (fun w => mkGo w Receiving) (startWorkers workers daemonUrls))
          []
          (if telemetryOn telemetryHost
           then Some (mkChan intake [] false []) else None)
          [] None.

(** [main] is past [workersGroup.Wait()], line 380: [scan] has returned,
    [batchChan] is closed and every worker has signalled that it is
    done. *)
Definition pastWait (st : Sys) : bool :=
  match exited st, script st with
  | None, [] => chanClosed st && forallb isFinished (goroutines st)
  | _, _ => false
  end.

End Concurrent.

(** The batches a worker holds between its receive and its request. *)
Definition held (g : Goroutine) : list string :=
  match goStage g with
  | Compressing batch => [batch]
  | Calling batch _ => [batch]
  | _ => []
  end.

(** What a worker still owes the telemetry sink: the sample of a request
    it has issued and not reported yet, or the point it is sending. *)
Definition owed (g : Goroutine) : list Sample :=
  let label := telemetryWorkerLabel (goWorker g) in
  let sample call :=
    [(label, toHost call, isGzip call, Len (body call))] in
  match goStage g with
  | Awaiting _ call => sample call
  | Pooling _ call _ => sample call
  | Failing call _ => sample call
  | Recycling _ call => sample call
  | Reporting p => [pointSample p]
  | _ => []
  end.

(** The request a worker has issued and not seen accepted. *)
Definition pending (g : Goroutine) : option WriteCall :=
  match goStage g with
  | Awaiting _ call => Some call
  | Pooling _ call (Some _) => Some call
  | Failing call _ => Some call
  | _ => None
  end.

(** ** What holds of the goroutines at every moment *)

(** The batches on their way to a request: those [scan] has still to
    send, those in the channel and those the workers hold. *)
Definition inTransit (st : Sys) : list string :=
  batchesOf (script st) ++ chanBuf st ++ List.concat (map held (goroutines st)).

Definition bodies (reqs : list (nat * WriteCall)) : list string :=
  map (fun r => body (snd r)) reqs.

Section Invariants.

Variable WriteLineProtocol : WriteCall -> option string.
Variable WriteGzip : string -> string.
Variable daemonUrls : list string.
Variable useGzip : bool.
Variable doLoad : bool.
Variable telemetryHost : string.
Variable workers : Z.

(** What holds of the worker of index [i] wherever it stands: it keeps
    its URL and its label, the payload it is about to send is the one of
    its batch, and the call it waits for or has seen answered is a
    request it has issued, to its URL. *)
Definition goodGoroutine (reqs : list (nat * WriteCall))
           (i : nat) (g : Goroutine) : Prop :=
  let w := goWorker g in
  let issued call :=
    toHost call = Host (c w) /\ isGzip call = useGzip /\
    In (i, call) reqs in
  Host (c w) = nth (i mod List.length daemonUrls) daemonUrls ""%string /\
  telemetryWorkerLabel w = decimal i /\
  (doLoad = false -> goStage g = Receiving \/ goStage g = Finished) /\
  match goStage g with
  | Compressing _ => useGzip = true
  | Calling batch payload => payload = payloadOf WriteGzip useGzip batch
  | Awaiting _ call => issued call
  | Pooling _ call err => issued call /\ err = WriteLineProtocol call
  | Failing call msg => issued call /\ WriteLineProtocol call = Some msg
  | Recycling _ call => issued call
  | _ => True
  end.

(** Every batch of [batches0] is on its way or has been requested, and
    nothing else is. *)
Definition batchesAccounted (batches0 : list string) (st : Sys) : Prop :=
  forall x,
    count_occ string_dec (map (payloadOf WriteGzip useGzip) batches0) x =
      (count_occ string_dec
                 (map (payloadOf WriteGzip useGzip) (inTransit st)) x
       + count_occ string_dec (bodies (requests st)) x)%nat.

(** Every request is answered by a point the sink has accepted or by
    what its worker still owes. *)
Definition samplesAccounted (st : Sys) : Prop :=
  forall ch, telemetry st = Some ch ->
  forall x,
    (count_occ Sample_dec (map pointSample (accepted ch)) x
     + count_occ Sample_dec (List.concat (map owed (goroutines st))) x)%nat =
      count_occ Sample_dec (map requestSample (requests st)) x.

(** A refused request stays with the worker that issued it. *)
Definition refusedPending (st : Sys) : Prop :=
  forall i call msg,
    In (i, call) (requests st) -> WriteLineProtocol call = Some msg ->
    exists g, nth_error (goroutines st) i = Some g /\ pending g = Some call.

(** A fatal exit is one of [scan], or carries the answer to a request. *)
Definition exitExplained (events0 : list Event) (st : Sys) : Prop :=
  forall e, exited st = Some (Exit1 e) ->
    In (Exit1 e) events0 \/
    exists msg i call,
      e = WriteError msg /\ In (i, call) (requests st) /\
      WriteLineProtocol call = Some msg.

(** The shape of the process: the pool holds reset buffers only, every
    worker is as [goodGoroutine] says, the requests are those of the
    workers, the channel holds no more than its capacity, it is closed
    only after [scan] has returned, and a worker is done only when the
    channel is closed and empty. *)
Definition shapeInv (events0 : list Event) (st : Sys) : Prop :=
  allEmpty (pooled st) /\
  (forall i g, nth_error (goroutines st) i = Some g ->
               goodGoroutine (requests st) i g) /\
  (forall i call, In (i, call) (requests st) ->
     (i < List.length (goroutines st))%nat /\
     toHost call = nth (i mod List.length daemonUrls) daemonUrls ""%string /\
     isGzip call = useGzip) /\
  List.length (goroutines st) = Z.to_nat workers /\
  (List.length (chanBuf st) <= List.length (goroutines st))%nat /\
  (chanClosed st = true -> script st = []) /\
  (forall i g, nth_error (goroutines st) i = Some g ->
               goStage g = Finished ->
               chanBuf st = [] /\ chanClosed st = true) /\
  incl (script st) events0 /\
  (telemetryOn telemetryHost = false -> telemetry st = None).

Definition sysInv (events0 : list Event) (st : Sys) : Prop :=
  shapeInv events0 st /\
  (doLoad = true -> batchesAccounted (batchesOf events0) st) /\
  (doLoad = false -> requests st = []) /\
  samplesAccounted st /\
  refusedPending st /\
  exitExplained events0 st.

End Invariants.

(** ** Start-up: flags, server check and index template *)

(** [strings.Count(s, sep)] for a separator of one byte, the only kind the
    program uses. *)
Fixpoint Count (s : string) (sep : ascii) : nat :=
  match s with
  | EmptyString => 0%nat
  | String ch rest =>
      ((if Ascii.eqb ch sep then 1 else 0) + Count rest sep)%nat
  end.

(** The loop of [strings.genSplit]: cut [s] at the first [cuts]
    separators; the result is the first piece and the pieces after it,
    the last of which is what was left uncut. *)
Fixpoint cutAt (sep : ascii) (s : string) (cuts : nat)
  : string * list string :=
  match s with
  | EmptyString => (EmptyString, [])
  | String ch rest =>
      match cuts with
      | O => (s, [])
      | S cuts' =>
          if Ascii.eqb ch sep then
            (EmptyString, let '(p, ps) := cutAt sep rest cuts' in p :: ps)
          else
            let '(p, ps) := cutAt sep rest cuts in (String ch p, ps)
      end
  end.

(** [strings.SplitN(s, sep, n)]: no piece for [n == 0], all the pieces for
    a negative [n], and at most [n] pieces otherwise. *)
Definition SplitN (s : string) (sep : ascii) (n : Z) : list string :=
  if n =? 0 then []
  else
    let n' := if n <? 0 then Z.of_nat (Count s sep) + 1 else n in
    let '(p, ps) := cutAt sep s (Z.to_nat (n' - 1)) in
    p :: ps.

(** [strings.Split(s, sep)] *)
Definition Split (s : string) (sep : ascii) : list string := SplitN s sep (-1).

(** The loop of [init] over the pairs of a tags flag, lines 278-282 and
    300-304: each pair is cut at its first colon; a pair without a colon
    makes [fields[1]] an index out of range, which panics ([None]). *)
Fixpoint tagPairs (pairs : list string) : option (list (string * string)) :=
  match pairs with
  | [] => Some []
  | kv :: rest =>
      match SplitN kv ":"%char 2 with
      | f0 :: f1 :: _ =>
          match tagPairs rest with
          | Some tags => Some ((f0, f1) :: tags)
          | None => None
          end
      | _ => None
      end
  end.

(** The tags of a flag: none for the empty flag. *)
Definition parseTags (tagsCSV : string) : option (list (string * string)) :=
  if (tagsCSV =? "")%string then Some []
  else tagPairs (Split tagsCSV ","%char).

(** A list of tags written back as a flag: [key:value] pairs separated by
    commas. *)
Definition renderTags (tags : list (string * string)) : string :=
  String.concat ","
    (map (fun kv => (fst kv ++ ":" ++ snd kv)%string) tags).

#[local] Unset Elimination Schemes.

(** What [json.Unmarshal] stores into an [interface{}]. *)
Inductive JSON : Type :=
| JNull
| JBool (b : bool)
| JNumber (text : string)
| JString (s : string)
| JArray (items : list JSON)
| JObject (fields : list (string * JSON)).

#[local] Set Elimination Schemes.

(** A [map[string]...] as the list of its entries; a key is looked up from
    the front. *)
Fixpoint lookup {A : Type} (key : string) (m : list (string * A))
  : option A :=
  match m with
  | [] => None
  | (k, v) :: rest => if (k =? key)%string then Some v else lookup key rest
  end.

(** How a call ends: with a value, with an error returned to the caller,
    or in a run-time panic. *)
Inductive Outcome (A : Type) : Type :=
| Value (a : A)
| Failed (err : string)
| Panicked.

Arguments Value {A} a.
Arguments Failed {A} err.
Arguments Panicked {A}.

(** The end of [checkServer], lines 669 and 686-697: the major version in
    the decoded answer of the server, ["5"] when it names none.  The two
    type assertions panic on a value of another type. *)
Definition majorVer (listing : list (string * JSON)) : Outcome string :=
  match lookup "version" listing with
  | None => Value "5"%string
  | Some (JObject vo) =>
      match lookup "number" vo with
      | None => Value "5"%string
      | Some (JString ver) =>
          match Split ver "."%char with
          | num0 :: _ => Value num0
          | [] => Value "5"%string
          end
      | Some _ => Panicked
      end
  | Some _ => Panicked
  end.

(** What the start-up asks of the server: an [http.Get] of a URL, or a
    call of [createESTemplate] with its five arguments. *)
Inductive Request : Type :=
| Get (url : string)
| PutTemplate (daemonUrl indexTemplateName body : string)
              (numberOfReplicas numberOfShards : Z).

(** How the start-up ends. *)
Inductive StartExit : Type :=
| Proceed
| StartFatal (msg : string)
| StartPanic.

Record InitDone : Type := mkInit {
  initUrls : list string;
  initTelemetryTags : list (string * string);
  initReportTags : list (string * string)
}.

Section Startup.

(** The four template texts, lines 83-222. *)
Variable defaultTemplate : string.
Variable defaultTemplate6x : string.
Variable aggregationTemplate : string.
Variable aggregationTemplate6x : string.

(** [http.Get] of a URL followed by [ioutil.ReadAll] and
    [json.Unmarshal]: the decoded answer, or the first error of the
    three. *)
Variable fetch : string -> Outcome (list (string * JSON)).

(** [createESTemplate], for the error it returns. *)
Variable createESTemplate : string -> string -> string -> Z -> Z ->
                            option string.

(** [os.Hostname()], for the error it returns. *)
Variable hostnameErr : option string.

Definition indexTemplateChoices : list (string * list (string * string)) :=
  [("default"%string,
    [("5"%string, defaultTemplate); ("6"%string, defaultTemplate6x)]);
   ("aggregation"%string,
    [("5"%string, aggregationTemplate);
     ("6"%string, aggregationTemplate6x)])].

(** [indexTemplateChoices[indexTemplateName][v]]: indexing a map with a
    key it does not hold gives the zero value, here no bytes. *)
Definition indexTemplateFor (indexTemplateName v : string) : string :=
  match lookup indexTemplateName indexTemplateChoices with
  | Some indexTemplate =>
      match lookup v indexTemplate with
      | Some body => body
      | None => ""%string
      end
  | None => ""%string
  end.

(** [init] after [flag.Parse()], lines 255-311, as a function of the flags
    it reads. *)
Definition init (csvDaemonUrls telemetryHost : string)
           (telemetryBatchSize : Z)
           (telemetryTagsCSV reportHost reportTagsCSV
              indexTemplateName : string)
  : Outcome InitDone :=
  let daemonUrls := Split csvDaemonUrls ","%char in
  if (List.length daemonUrls =? 0)%nat then Failed "missing 'urls' flag"
  else
    let telemetry :=
      if (telemetryHost =? "")%string then Value []
      else if telemetryBatchSize =? 0 then Panicked
      else
        match hostnameErr with
        | Some err => Failed ("os.Hostname() error: " ++ err)
        | None =>
            match parseTags telemetryTagsCSV with
            | Some tags => Value tags
            | None => Panicked
            end
        end in
    match telemetry with
    | Failed err => Failed err
    | Panicked => Panicked
    | Value telemetryTags =>
        let report :=
          if (reportHost =? "")%string then Value []
          else
            match hostnameErr with
            | Some err => Failed ("os.Hostname() error: " ++ err)
            | None =>
                match parseTags reportTagsCSV with
                | Some tags => Value tags
                | None => Panicked
                end
            end in
        match report with
        | Failed err => Failed err
        | Panicked => Panicked
        | Value reportTags =>
            match lookup indexTemplateName indexTemplateChoices with
            | None => Failed "invalid index template type"
            | Some _ => Value (mkInit daemonUrls telemetryTags reportTags)
            end
        end
    end.

(** [checkServer], lines 668-698. *)
Definition checkServer (daemonUrl : string) : Outcome string :=
  match fetch daemonUrl with
  | Value listing => majorVer listing
  | Failed err => Failed err
  | Panicked => Panicked
  end.

(** [listIndexTemplates] and [listIndices], lines 622-665. *)
Definition listIndexTemplates (daemonUrl : string)
  : Outcome (list (string * JSON)) :=
  fetch (daemonUrl ++ "/_template").

Definition listIndices (daemonUrl : string)
  : Outcome (list (string * JSON)) :=
  fetch (daemonUrl ++ "/*").

(** [main] up to line 348: the reads of the server and the call of
    [createESTemplate] made before the load, in order, and how this part
    ends.  Index templates or indices that exist already are only
    logged. *)
Definition provision (doLoad doDBCreate : bool) (daemonUrls : list string)
           (indexTemplateName : string)
           (numberOfReplicas numberOfShards : Z)
  : list Request * StartExit :=
  if negb doLoad then ([], Proceed)
  else
    match daemonUrls with
    | [] => ([], StartPanic)
    | url0 :: _ =>
        match checkServer url0 with
        | Failed err => ([Get url0], StartFatal err)
        | Panicked => ([Get url0], StartPanic)
        | Value v =>
            if negb doDBCreate then ([Get url0], Proceed)
            else
              let getTemplates := Get (url0 ++ "/_template") in
              let getIndices := Get (url0 ++ "/*") in
              match listIndexTemplates url0 with
              | Failed err => ([Get url0; getTemplates], StartFatal err)
              | Panicked => ([Get url0; getTemplates], StartPanic)
              | Value _ =>
                  match listIndices url0 with
                  | Failed err =>
                      ([Get url0; getTemplates; getIndices], StartFatal err)
                  | Panicked =>
                      ([Get url0; getTemplates; getIndices], StartPanic)
                  | Value _ =>
                      let body := indexTemplateFor indexTemplateName v in
                      let put :=
                        PutTemplate url0 "measurements_template" body
                                    numberOfReplicas numberOfShards in
                      match createESTemplate url0 "measurements_template"
                                             body numberOfReplicas
                                             numberOfShards with
                      | Some err =>
                          ([Get url0; getTemplates; getIndices; put],
                           StartFatal err)
                      | None =>
                          ([Get url0; getTemplates; getIndices; put],
                           Proceed)
                      end
                  end
              end
        end
    end.

End Startup.

(** ** Sample sinks, servers and flags *)

(** A sink that refuses the second sample batch. *)
Definition refusesBatch2 (call : WriteCall) : option string :=
  if (body call =? batch2)%string then Some "503"%string else None.

(** A server that reports version 7.10.2 at the sample URL and answers
    every other read with an empty object. *)
Definition sampleServer (url : string) : Outcome (list (string * JSON)) :=
  if (url =? sampleUrl)%string then
    Value [("name"%string, JString "es0");
           ("version"%string,
            JObject [("number"%string, JString "7.10.2")])]
  else Value [].

(** A server that accepts the template. *)
Definition acceptsTemplate (daemonUrl name body : string)
           (replicas shards : Z) : option string := None.

(** The worker of the sample machine at its first dequeue, with both
    sample batches in a closed channel and no telemetry. *)
Definition atStart : Machine :=
  mkMachine AtDequeue sampleWorker [] [batch1; batch2] true None [].

(** Two workers, both batches of [twoItems] in the channel and the
    channel closed before a worker moves; then worker 1 takes the first
    batch and worker 0 the second, and worker 0 writes first. *)
Definition swapped : list Actor :=
  [Scanner; Scanner; Scanner; Scanner;
   Go 1; Go 0; Go 0; Go 1; Go 0; Go 1; Go 0; Go 1; Go 0; Go 1].


(** Worker 0 is refused the second batch; worker 1 issues its request
    for the first batch before worker 0 gets to its exit. *)
Definition refusedThenWritten : list Actor :=
  [Scanner; Scanner; Go 1; Go 0; Go 0; Go 0; Go 1; Go 0].

(** * Properties *)

(** Reduces the projections of a scanner state and nothing else. *)
Ltac fields :=
  cbn [buf linesRead itemsRead bytesRead totalPoints totalValues
       itemsThisBatch sent] in *.

(** ** Arithmetic of the counters *)

Lemma wrap64_in_range (z : Z) :
  - 2 ^ 63 <= z <= maxInt64 -> wrap64 z = z.
Proof.
  unfold wrap64, maxInt64. intros Hz.
  rewrite Z.mod_small by lia. lia.
Qed.

Lemma wrap64_even (z : Z) : Z.even (wrap64 z) = Z.even z.
Proof.
  unfold wrap64.
  rewrite Z.mod_eq by lia.
  replace (z + 2 ^ 63 - 2 ^ 64 * ((z + 2 ^ 63) / 2 ^ 64) - 2 ^ 63)
    with (z - 2 * (2 ^ 63 * ((z + 2 ^ 63) / 2 ^ 64))) by lia.
  rewrite Z.even_sub, Z.even_mul. simpl. now destruct (Z.even z).
Qed.

Lemma rem2_is_even (z : Z) : (Z.rem z 2 =? 0) = Z.even z.
Proof.
  destruct (Z.even z) eqn:He.
  - apply Z.eqb_eq. apply Z.even_spec in He. destruct He as [k ->].
    rewrite Z.mul_comm. apply Z.rem_mul. lia.
  - apply Z.eqb_neq. intros Hr.
    apply Z.rem_divide in Hr; [|lia]. destruct Hr as [k ->].
    rewrite Z.mul_comm, Z.even_mul in He. discriminate.
Qed.

Lemma even_succ_flip (z : Z) : Z.even (z + 1) = negb (Z.even z).
Proof. rewrite Z.even_add. simpl. now destruct (Z.even z). Qed.

Lemma half_succ_even (z : Z) : Z.even (z + 1) = true -> (z + 1) / 2 = z / 2 + 1.
Proof.
  intros He. apply Z.even_spec in He. destruct He as [k Hk].
  assert (z = 2 * k - 1) by lia. subst z.
  replace (2 * k - 1 + 1) with (k * 2) by lia. rewrite Z.div_mul by lia.
  replace (2 * k - 1) with (1 + (k - 1) * 2) by lia.
  rewrite Z.div_add by lia. simpl. lia.
Qed.

Lemma half_succ_odd (z : Z) : Z.even (z + 1) = false -> (z + 1) / 2 = z / 2.
Proof.
  intros He. rewrite even_succ_flip in He. apply negb_false_iff in He.
  apply Z.even_spec in He. destruct He as [k ->].
  replace (2 * k + 1) with (1 + k * 2) by lia. rewrite Z.div_add by lia.
  replace (2 * k) with (k * 2) by lia. rewrite Z.div_mul by lia. reflexivity.
Qed.

(** ** Buffers *)

Lemma countNewlines_app (a b : string) :
  countNewlines (a ++ b) = (countNewlines a + countNewlines b)%nat.
Proof. induction a as [|ch a IH]; simpl; [reflexivity|]. rewrite IH. lia. Qed.

Lemma countNewlines_line (b l : string) :
  isLine l -> countNewlines (b ++ l ++ newline) = S (countNewlines b).
Proof.
  unfold isLine. intros Hl. rewrite !countNewlines_app, Hl. simpl. lia.
Qed.

(** ** The scanner *)

Section ScannerFacts.

Variable CheckTotalValues : string -> Z * Z * option string.
Variable itemLimit : Z.
Variable itemsPerBatch : Z.

#[local] Abbreviation scanLine :=
  (scanLine CheckTotalValues itemLimit itemsPerBatch).
#[local] Abbreviation scanLoop :=
  (scanLoop CheckTotalValues itemLimit itemsPerBatch).
#[local] Abbreviation scan := (scan CheckTotalValues itemLimit itemsPerBatch).
#[local] Abbreviation isTotalsRecord := (isTotalsRecord CheckTotalValues).
#[local] Abbreviation dataLines := (dataLines CheckTotalValues).

(** Splits a [scanLine] equation into its three ways through the body:
    the [continue] on a totals record, the fatal error of the check, and
    a counted line. *)
Ltac line_cases H :=
  unfold scanLine in H;
  let tp := fresh "tp" in let tv := fresh "tv" in
  let err := fresh "err" in let Hc := fresh "Hcheck" in
  let Ht := fresh "Htotals" in
  destruct (CheckTotalValues _) as [[tp tv] err] eqn:Hc;
  destruct ((0 <? tp) || (0 <? tv)) eqn:Ht;
  [ | destruct err as [?msg|] ];
  cbv zeta in H;
  try rewrite rem2_is_even, wrap64_even, even_succ_flip in H.

Lemma isTotalsRecord_check line tp tv err :
  CheckTotalValues line = (tp, tv, err) ->
  isTotalsRecord line = (0 <? tp) || (0 <? tv).
Proof. unfold isTotalsRecord. now intros ->. Qed.

Lemma scanLoop_cons line rest s :
  scanLoop (line :: rest) s =
    match scanLine s line with
    | (s', NextLine) => scanLoop rest s'
    | (s', LimitBreak) => (s', HitLimit)
    | (s', LineFatal e) => (s', LoopFatal e)
    end.
Proof. reflexivity. Qed.

(** *** Totals records leave the batch and the counters alone *)

Lemma scanLine_totals s line :
  isTotalsRecord line = true ->
  exists tp tv,
    scanLine s line =
      (mkScanState (buf s) (linesRead s) (itemsRead s) (bytesRead s)
                   tp tv (itemsThisBatch s) (sent s), NextLine).
Proof.
  intros Ht. destruct (scanLine s line) as [s' ex] eqn:H.
  line_cases H.
  - exists tp, tv. exact (eq_sym H).
  - rewrite (isTotalsRecord_check _ _ _ _ Hcheck) in Ht. congruence.
  - rewrite (isTotalsRecord_check _ _ _ _ Hcheck) in Ht. congruence.
Qed.

(** *** Batches hold at most [itemsPerBatch] items *)

Lemma scanLine_batchInv s line s' ex :
  1 <= itemsPerBatch <= maxInt64 ->
  isLine line ->
  batchInv itemsPerBatch s ->
  boundedBatches itemsPerBatch (sent s) ->
  scanLine s line = (s', ex) ->
  boundedBatches itemsPerBatch (sent s') /\
  match ex with
  | LimitBreak => itemsThisBatch s' = 0
  | _ => batchInv itemsPerBatch s'
  end.
Proof.
  intros HB Hl [Hitb Hcnt] Hsent H.
  pose proof (countNewlines_line (buf s) line Hl) as Hnl.
  line_cases H.
  - inversion H; subst; clear H. fields. split; [assumption|]. now split.
  - inversion H; subst; clear H. fields. split; [assumption|]. now split.
  - unfold boundedBatches, batchInv in *.
    destruct (Z.even (linesRead s)) eqn:Hev; cbn [negb] in H; cbv iota in H.
    + (* first line of an item *)
      assert (Hne : (itemsThisBatch s =? itemsPerBatch) = false)
        by (apply Z.eqb_neq; lia).
      rewrite Hne in H. cbn [orb] in H.
      destruct ((0 <=? itemLimit) && (itemLimit <=? itemsRead s));
        inversion H; subst; clear H; fields.
      * split; [|reflexivity]. apply Forall_app. split; [assumption|].
        constructor; [|constructor]. rewrite Hnl. lia.
      * split; [assumption|]. split; [lia|].
        rewrite wrap64_even, even_succ_flip, Hev, Hnl. cbn [negb]. lia.
    + (* second line: an item is complete *)
      assert (Hw : wrap64 (itemsThisBatch s + 1) = itemsThisBatch s + 1)
        by (apply wrap64_in_range; unfold maxInt64 in *; lia).
      rewrite Hw in H.
      destruct ((itemsThisBatch s + 1 =? itemsPerBatch)
                || (0 <=? itemLimit)
                   && (itemLimit <=? wrap64 (itemsRead s + 1))) eqn:Hcut.
      * assert (Hb : Forall (fun b => Z.of_nat (countNewlines b)
                                      <= 2 * itemsPerBatch)
                       (sent s ++ [(buf s ++ line ++ newline)%string])).
        { apply Forall_app. split; [assumption|].
          constructor; [|constructor]. rewrite Hnl. lia. }
        destruct ((0 <=? itemLimit)
                  && (itemLimit <=? wrap64 (itemsRead s + 1)));
          inversion H; subst; clear H; fields.
        -- split; [assumption|reflexivity].
        -- split; [assumption|]. split; [lia|].
           rewrite wrap64_even, even_succ_flip, Hev. reflexivity.
      * apply orb_false_iff in Hcut. destruct Hcut as [Hne Hlim].
        rewrite Hlim in H. inversion H; subst; clear H. fields.
        apply Z.eqb_neq in Hne. split; [assumption|]. split; [lia|].
        rewrite wrap64_even, even_succ_flip, Hev, Hnl. cbn [negb]. lia.
Qed.

Lemma scanLoop_batchInv lines : forall s s' ex,
  1 <= itemsPerBatch <= maxInt64 ->
  Forall isLine lines ->
  batchInv itemsPerBatch s ->
  boundedBatches itemsPerBatch (sent s) ->
  scanLoop lines s = (s', ex) ->
  boundedBatches itemsPerBatch (sent s') /\
  match ex with
  | HitLimit => itemsThisBatch s' = 0
  | _ => batchInv itemsPerBatch s'
  end.
Proof.
  induction lines as [|line rest IH]; intros s s' ex HB Hlines Hinv Hsent H.
  - inversion H; subst. now split.
  - simpl in H.
    destruct (scanLine s line) as [s1 ex1] eqn:Hstep.
    inversion Hlines as [|? ? Hl Hrest]; subst.
    destruct (scanLine_batchInv _ _ _ _ HB Hl Hinv Hsent Hstep) as [Hb1 Hi1].
    destruct ex1; [ now apply (IH s1) | | ]; inversion H; subst; now split.
Qed.

Lemma initScan_batchInv :
  1 <= itemsPerBatch -> batchInv itemsPerBatch initScan.
Proof. intros HB. unfold batchInv, initScan. fields. simpl. lia. Qed.

Lemma batchInv_itemsIn s :
  batchInv itemsPerBatch s -> itemsIn (buf s) = itemsThisBatch s.
Proof.
  unfold batchInv, itemsIn. intros [_ ->].
  destruct (Z.even (linesRead s)).
  - rewrite Z.add_0_r, Z.mul_comm. apply Z.div_mul. lia.
  - rewrite Z.add_comm, Z.mul_comm, Z.div_add by lia. reflexivity.
Qed.

Lemma boundedBatches_itemsIn batches b :
  boundedBatches itemsPerBatch batches -> In b batches ->
  itemsIn b <= itemsPerBatch.
Proof.
  unfold boundedBatches, itemsIn. intros Hall Hin.
  rewrite Forall_forall in Hall. specialize (Hall b Hin).
  apply Z.div_le_upper_bound; lia.
Qed.

Lemma flushLast_bounded s :
  batchInv itemsPerBatch s ->
  boundedBatches itemsPerBatch (sent s) ->
  boundedBatches itemsPerBatch (flushLast s).
Proof.
  unfold flushLast, boundedBatches, batchInv. intros [Hitb Hcnt] Hsent.
  destruct (0 <? itemsThisBatch s); [|assumption].
  apply Forall_app. split; [assumption|]. constructor; [|constructor].
  rewrite Hcnt. destruct (Z.even (linesRead s)); lia.
Qed.

(** *** The trace of [scan] *)

Lemma batchesOf_app l1 l2 :
  batchesOf (l1 ++ l2) = batchesOf l1 ++ batchesOf l2.
Proof.
  induction l1 as [|e l1 IH]; [reflexivity|].
  destruct e; simpl; rewrite IH; reflexivity.
Qed.

Lemma batchesOf_sends l : batchesOf (map Send l) = l.
Proof. induction l as [|b l IH]; simpl; [|rewrite IH]; reflexivity. Qed.

Lemma batchesOf_result r : batchesOf (resultEvents r) = [].
Proof. destruct r; reflexivity. Qed.

Lemma scan_batches input s ex :
  scanLoop (stdinLines input) initScan = (s, ex) ->
  batchesOf (fst (scan input)) = sent s \/
  batchesOf (fst (scan input)) = flushLast s.
Proof.
  intros H. unfold scan. rewrite H.
  destruct ex; destruct (scannerErr input); cbn [fst];
    rewrite ?batchesOf_app, ?batchesOf_sends, ?batchesOf_result;
    cbn [batchesOf]; rewrite ?app_nil_r; auto.
Qed.

(** *** What a counted line does to the counters *)

Lemma scanLine_counted s line s' ex :
  scanLine s line = (s', ex) ->
  isTotalsRecord line = false ->
  match ex with
  | LineFatal _ =>
      linesRead s' = linesRead s /\ itemsRead s' = itemsRead s
  | _ =>
      linesRead s' = wrap64 (linesRead s + 1) /\
      itemsRead s' = (if Z.even (linesRead s) then itemsRead s
                      else wrap64 (itemsRead s + 1)) /\
      totalPoints s' <= 0 /\
      ((0 <=? itemLimit) && (itemLimit <=? itemsRead s') =
         match ex with LimitBreak => true | _ => false end)
  end.
Proof.
  intros H Hdata. line_cases H.
  - rewrite (isTotalsRecord_check _ _ _ _ Hcheck) in Hdata. congruence.
  - inversion H; subst; clear H. fields. now split.
  - apply orb_false_iff in Htotals. destruct Htotals as [Htp _].
    apply Z.ltb_ge in Htp.
    destruct (Z.even (linesRead s)); cbn [negb] in H; cbv iota in H;
      match type of H with
      | context [ ?a && ?b ] => destruct (a && b) eqn:Hlim
      end;
      rewrite ?orb_true_r, ?orb_false_r in H;
      try match type of H with
          | context [ ?a =? ?b ] => destruct (a =? b)
          end;
      inversion H; subst; clear H; fields; auto.
Qed.

Lemma scanLine_skipped s line s' ex :
  scanLine s line = (s', ex) ->
  isTotalsRecord line = true ->
  ex = NextLine /\ buf s' = buf s /\ sent s' = sent s /\
  linesRead s' = linesRead s /\ itemsRead s' = itemsRead s /\
  bytesRead s' = bytesRead s /\ itemsThisBatch s' = itemsThisBatch s.
Proof.
  intros H Ht. destruct (scanLine_totals s line Ht) as (tp & tv & E).
  rewrite E in H. inversion H; subst. fields. repeat split.
Qed.

Lemma dataLines_cons line rest :
  dataLines (line :: rest) =
    if isTotalsRecord line then dataLines rest else line :: dataLines rest.
Proof. unfold dataLines. simpl. now destruct (isTotalsRecord line). Qed.

(** *** The counters when the input is read to its end *)

Lemma scanLoop_counts lines : forall s s',
  scanLoop lines s = (s', InputExhausted) ->
  countInv s ->
  linesRead s + Z.of_nat (List.length (dataLines lines)) <= maxInt64 ->
  linesRead s' = linesRead s + Z.of_nat (List.length (dataLines lines)) /\
  countInv s'.
Proof.
  induction lines as [|line rest IH]; intros s s' H Hinv Hmax.
  - inversion H; subst. simpl. split; [lia|assumption].
  - simpl in H. destruct (scanLine s line) as [s1 ex1] eqn:Hstep.
    destruct ex1; try discriminate.
    rewrite dataLines_cons in *.
    destruct (isTotalsRecord line) eqn:Ht.
    + destruct (scanLine_skipped _ _ _ _ Hstep Ht)
        as (_ & _ & _ & Hl & Hi & _).
      assert (Hinv1 : countInv s1)
        by (unfold countInv in *; now rewrite Hl, Hi).
      rewrite <- Hl. apply IH; [assumption|assumption|now rewrite Hl].
    + destruct (scanLine_counted _ _ _ _ Hstep Ht) as (Hl & Hi & _).
      destruct Hinv as [Hpos Hhalf]. cbn [List.length] in Hmax.
      rewrite Nat2Z.inj_succ in Hmax.
      assert (Hl1 : linesRead s1 = linesRead s + 1).
      { rewrite Hl. apply wrap64_in_range. unfold maxInt64 in *. lia. }
      assert (Hinv1 : countInv s1).
      { split; [lia|]. rewrite Hi, Hl1.
        destruct (Z.even (linesRead s)) eqn:Hev.
        - rewrite half_succ_odd; [assumption|].
          now rewrite even_succ_flip, Hev.
        - rewrite half_succ_even by now rewrite even_succ_flip, Hev.
          rewrite Hhalf. apply wrap64_in_range.
          assert (0 <= linesRead s / 2 <= linesRead s).
          { split; [apply Z.div_pos; lia|].
            apply Z.div_le_upper_bound; lia. }
          unfold maxInt64 in *. lia. }
      destruct (IH s1 s' H Hinv1) as [E Hinv']; [lia|].
      split; [|assumption]. cbn [List.length].
      rewrite Nat2Z.inj_succ. lia.
Qed.

Lemma scanLoop_parity lines : forall s s',
  scanLoop lines s = (s', InputExhausted) ->
  Z.even (linesRead s') =
    Z.even (linesRead s + Z.of_nat (List.length (dataLines lines))).
Proof.
  induction lines as [|line rest IH]; intros s s' H.
  - inversion H; subst. simpl. now rewrite Z.add_0_r.
  - simpl in H. destruct (scanLine s line) as [s1 ex1] eqn:Hstep.
    destruct ex1; try discriminate.
    rewrite dataLines_cons. rewrite (IH s1 s' H).
    destruct (isTotalsRecord line) eqn:Ht.
    + destruct (scanLine_skipped _ _ _ _ Hstep Ht)
        as (_ & _ & _ & Hl & _).
      now rewrite Hl.
    + destruct (scanLine_counted _ _ _ _ Hstep Ht) as (Hl & _).
      cbn [List.length]. rewrite Nat2Z.inj_succ.
      rewrite !Z.even_add, Hl, wrap64_even, Z.even_add.
      rewrite Z.even_succ, <- Z.negb_even. simpl.
      destruct (Z.even (linesRead s)),
               (Z.even (Z.of_nat (List.length (dataLines rest))));
        reflexivity.
Qed.

(** *** The limit break *)

Lemma scanLoop_limit lines : forall s s',
  (itemLimit = 0 -> linesRead s = 0 /\ itemsRead s = 0) ->
  scanLoop lines s = (s', HitLimit) ->
  totalPoints s' <= 0 /\ 0 <= itemLimit <= itemsRead s' /\
  (itemLimit = 0 -> linesRead s' = 1).
Proof.
  induction lines as [|line rest IH]; intros s s' Hzero H.
  - discriminate.
  - simpl in H. destruct (scanLine s line) as [s1 ex1] eqn:Hstep.
    destruct (isTotalsRecord line) eqn:Ht.
    + destruct (scanLine_skipped _ _ _ _ Hstep Ht)
        as (-> & _ & _ & Hl & Hi & _).
      apply (IH s1); [|assumption]. now rewrite Hl, Hi.
    + pose proof (scanLine_counted _ _ _ _ Hstep Ht) as Hc.
      destruct ex1; [ | | discriminate ].
      * destruct Hc as (Hl & Hi & _ & Hlim).
        apply (IH s1); [|assumption]. intros Hz.
        destruct (Hzero Hz) as [Hl0 Hi0]. exfalso.
        rewrite Hl0 in Hi. simpl in Hi. rewrite Hi, Hi0, Hz in Hlim.
        discriminate.
      * inversion H; subst s1. destruct Hc as (Hl & Hi & Htp & Hlim).
        apply andb_true_iff in Hlim. destruct Hlim as [H0 H1].
        apply Z.leb_le in H0, H1. split; [assumption|]. split; [lia|].
        intros Hz. destruct (Hzero Hz) as [Hl0 _].
        rewrite Hl, Hl0. reflexivity.
Qed.

Lemma limit_break_never_passes_checks lines s :
  scanLoop lines initScan = (s, HitLimit) ->
  (1 <= itemLimit -> itemsRead s <> totalPoints s) /\
  (finalChecks s = Fatal BadBulkFormat \/
   finalChecks s = Fatal (CountMismatch (itemsRead s) (totalPoints s))).
Proof.
  intros H.
  destruct (scanLoop_limit lines initScan s) as (Htp & Hlim & Hzero);
    [now intros _|assumption|].
  split; [lia|]. unfold finalChecks. rewrite rem2_is_even.
  destruct (Z.even (linesRead s)) eqn:Hev; [|now left]. right.
  assert (Hne : itemsRead s <> totalPoints s).
  { destruct (Z.eq_dec itemLimit 0) as [Hz|Hnz]; [|lia].
    rewrite (Hzero Hz) in Hev. discriminate. }
  apply Z.eqb_neq in Hne. now rewrite Hne.
Qed.

(** *** Reading to the end: items read *)

(** C7. When the lines counted by the scanner are a multiple of two and
    the loop runs to the end of the input (it is not left by the limit
    break), the items read are that number of lines divided by two; this
    is the number [scan] returns, which it does exactly when the number
    equals the expected total last reported by the totals check. *)
Theorem itemsRead_is_half_the_lines input s :
  let total := Z.of_nat (List.length (dataLines (stdinLines input))) in
  scanLoop (stdinLines input) initScan = (s, InputExhausted) ->
  scannerErr input = None ->
  total mod 2 = 0 ->
  total <= maxInt64 ->
  itemsRead s = total / 2 /\
  snd (scan input) =
    (if total / 2 =? totalPoints s
     then Returned (total / 2) (bytesRead s) (totalValues s)
     else Fatal (CountMismatch (total / 2) (totalPoints s))) /\
  (forall items bytes values,
      snd (scan input) = Returned items bytes values -> items = total / 2).
Proof.
  intros total Hloop Herr Hmul Hmax.
  destruct (scanLoop_counts _ _ _ Hloop) as [Hl [_ Hi]].
  { unfold countInv, initScan. fields. split; [lia|reflexivity]. }
  { unfold initScan. fields. fold total. lia. }
  unfold initScan in Hl. fields. fold total in Hl. rewrite Z.add_0_l in Hl.
  rewrite Hl in Hi.
  assert (Hres : snd (scan input) =
            if total / 2 =? totalPoints s
            then Returned (total / 2) (bytesRead s) (totalValues s)
            else Fatal (CountMismatch (total / 2) (totalPoints s))).
  { unfold scan. rewrite Hloop, Herr. cbn [snd]. unfold finalChecks.
    rewrite rem2_is_even, Hl, Hi.
    assert (Hev : Z.even total = true).
    { apply Z.even_spec. exists (total / 2).
      pose proof (Z.div_mod total 2). lia. }
    rewrite Hev. cbn [negb].
    now destruct (total / 2 =? totalPoints s). }
  split; [assumption|]. split; [assumption|].
  intros items bytes values Hret. rewrite Hres in Hret.
  destruct (total / 2 =? totalPoints s); now inversion Hret.
Qed.

(** *** Totals records *)

Lemma sameBatchState_refl s : sameBatchState s s.
Proof. unfold sameBatchState. repeat split. Qed.

Lemma scanLine_same s1 s2 line :
  sameBatchState s1 s2 ->
  sameBatchState (fst (scanLine s1 line)) (fst (scanLine s2 line)) /\
  snd (scanLine s1 line) = snd (scanLine s2 line).
Proof.
  unfold sameBatchState. intros (Hb & Hs & Hl & Hi & Hy & Ht).
  unfold scanLine. rewrite Hb, Hs, Hl, Hi, Hy, Ht.
  destruct (CheckTotalValues line) as [[tp tv] err].
  destruct ((0 <? tp) || (0 <? tv)); [cbn; repeat split|].
  destruct err; [cbn; repeat split|]. cbv zeta.
  match goal with
  | |- context [ if ?c then mkScanState _ _ _ _ _ _ _ _ else _ ] =>
      destruct c
  end; cbn [fst snd]; fields; repeat split.
Qed.

Lemma scanLoop_same lines : forall s1 s2,
  sameBatchState s1 s2 ->
  sameBatchState (fst (scanLoop lines s1)) (fst (scanLoop lines s2)) /\
  snd (scanLoop lines s1) = snd (scanLoop lines s2).
Proof.
  induction lines as [|line rest IH]; intros s1 s2 Hsame.
  - now split.
  - simpl. destruct (scanLine_same _ _ line Hsame) as [Hst Hex].
    destruct (scanLine s1 line) as [s1' ex1].
    destruct (scanLine s2 line) as [s2' ex2].
    cbn [fst snd] in Hst, Hex. subst ex2.
    destruct ex1; [now apply IH| |]; now split.
Qed.

Lemma scanLoop_skips_totals pre : forall line post s,
  isTotalsRecord line = true ->
  sameBatchState (fst (scanLoop (pre ++ line :: post) s))
                 (fst (scanLoop (pre ++ post) s)) /\
  snd (scanLoop (pre ++ line :: post) s) = snd (scanLoop (pre ++ post) s).
Proof.
  induction pre as [|l pre IH]; intros line post s Ht.
  - simpl app. rewrite scanLoop_cons.
    destruct (scanLine s line) as [s1 ex1] eqn:Hstep.
    destruct (scanLine_skipped _ _ _ _ Hstep Ht)
      as (-> & Hb & Hs & Hl & Hi & Hy & Hn).
    apply scanLoop_same. unfold sameBatchState. now repeat split.
  - rewrite <- !app_comm_cons, !scanLoop_cons.
    destruct (scanLine s l) as [s1 ex1].
    destruct ex1; [now apply IH| |]; split;
      auto using sameBatchState_refl.
Qed.

(** C9. A line that the totals check reports as a totals record is
    skipped: the pass through the loop body ends in [continue] with the
    buffer, the batches sent and the four counters as they were; and the
    whole loop ends the same way, with the same batches and counters, as
    on the input without that line. *)
Theorem totals_records_are_skipped s line :
  isTotalsRecord line = true ->
  (snd (scanLine s line) = NextLine /\
   buf (fst (scanLine s line)) = buf s /\
   sent (fst (scanLine s line)) = sent s /\
   linesRead (fst (scanLine s line)) = linesRead s /\
   itemsRead (fst (scanLine s line)) = itemsRead s /\
   bytesRead (fst (scanLine s line)) = bytesRead s /\
   itemsThisBatch (fst (scanLine s line)) = itemsThisBatch s) /\
  (forall pre post,
      sameBatchState (fst (scanLoop (pre ++ line :: post) s))
                     (fst (scanLoop (pre ++ post) s)) /\
      snd (scanLoop (pre ++ line :: post) s)
        = snd (scanLoop (pre ++ post) s)).
Proof.
  intros Ht. split.
  - destruct (scanLine s line) as [s' ex] eqn:Hstep.
    exact (scanLine_skipped _ _ _ _ Hstep Ht).
  - intros pre post. now apply scanLoop_skips_totals.
Qed.

(** *** Bytes read *)

Lemma Len_nonneg b : 0 <= Len b.
Proof. unfold Len. lia. Qed.

Lemma Len_app a b : Len (a ++ b) = Len a + Len b.
Proof.
  unfold Len. induction a as [|ch a IH]; [reflexivity|].
  cbn [append String.length]. rewrite !Nat2Z.inj_succ. lia.
Qed.

Lemma Len_line b l : Len (b ++ l ++ newline) = Len b + Len l + 1.
Proof. rewrite !Len_app. unfold newline, Len. simpl. lia. Qed.

Lemma sumLen_app l1 l2 : sumLen (l1 ++ l2) = sumLen l1 + sumLen l2.
Proof.
  induction l1 as [|b l1 IH]; [reflexivity|].
  cbn [app sumLen fold_right]. fold (sumLen (l1 ++ l2)) (sumLen l1). lia.
Qed.

Lemma sumLen_nonneg l : 0 <= sumLen l.
Proof.
  induction l as [|b l IH]; [reflexivity|].
  cbn [sumLen fold_right]. fold (sumLen l). pose proof (Len_nonneg b). lia.
Qed.

Lemma lineBytes_nonneg l : 0 <= lineBytes l.
Proof.
  induction l as [|b l IH]; [reflexivity|].
  cbn [lineBytes fold_right]. fold (lineBytes l).
  pose proof (Len_nonneg b). lia.
Qed.

Lemma scanLine_bytes s line s' ex :
  scanLine s line = (s', ex) ->
  bytesInv s ->
  sumLen (sent s) + Len (buf s) + (Len line + 1) <= maxInt64 ->
  bytesInv s' /\
  sumLen (sent s') + Len (buf s') <=
    sumLen (sent s) + Len (buf s) + (Len line + 1).
Proof.
  unfold bytesInv. intros H Hinv Hmax.
  pose proof (Len_nonneg line) as Hline.
  pose proof (Len_nonneg (buf s)) as Hbuf.
  pose proof (sumLen_nonneg (sent s)) as Hsent.
  pose proof (Len_line (buf s) line) as Hnew.
  line_cases H.
  - inversion H; subst; clear H. fields. split; [assumption|lia].
  - inversion H; subst; clear H. fields. split; [assumption|lia].
  - match type of H with
    | context [ if ?c then mkScanState _ _ _ _ _ _ _ _ else _ ] =>
        destruct c
    end; inversion H; subst; clear H; fields.
    + rewrite sumLen_app. cbn [sumLen fold_right]. rewrite Hinv, Hnew.
      split; [|unfold Len at 3; simpl; lia].
      rewrite wrap64_in_range; [lia|]. unfold maxInt64 in *. lia.
    + split; [assumption|]. rewrite Hnew. lia.
Qed.

Lemma scanLoop_bytes lines : forall s s' ex,
  scanLoop lines s = (s', ex) ->
  bytesInv s ->
  sumLen (sent s) + Len (buf s) + lineBytes lines <= maxInt64 ->
  bytesInv s'.
Proof.
  induction lines as [|line rest IH]; intros s s' ex H Hinv Hmax.
  - inversion H; subst. assumption.
  - rewrite scanLoop_cons in H.
    destruct (scanLine s line) as [s1 ex1] eqn:Hstep.
    cbn [lineBytes fold_right] in Hmax. fold (lineBytes rest) in Hmax.
    pose proof (lineBytes_nonneg rest) as Hrest.
    destruct (scanLine_bytes _ _ _ _ Hstep Hinv) as [Hinv1 Hle]; [lia|].
    destruct ex1; inversion H; subst; try assumption.
    apply (IH s1 s' ex); [assumption|assumption|lia].
Qed.

(** *** When [scan] returns *)

Lemma scan_returned input s ex items bytes values :
  scanLoop (stdinLines input) initScan = (s, ex) ->
  snd (scan input) = Returned items bytes values ->
  fst (scan input) = map Send (flushLast s) ++ [Done] /\
  items = itemsRead s /\ bytes = bytesRead s /\ values = totalValues s.
Proof.
  intros Hloop. unfold scan. rewrite Hloop.
  assert (Hchecks : finalChecks s = Returned items bytes values ->
            map Send (flushLast s) ++ [Done] ++ resultEvents (finalChecks s)
              = map Send (flushLast s) ++ [Done] /\
            items = itemsRead s /\ bytes = bytesRead s /\
            values = totalValues s).
  { intros Hret. rewrite Hret. split; [reflexivity|].
    unfold finalChecks in Hret.
    destruct (negb (Z.rem (linesRead s) 2 =? 0)); [discriminate|].
    destruct (negb (itemsRead s =? totalPoints s)); [discriminate|].
    inversion Hret. now repeat split. }
  destruct ex; try discriminate;
    destruct (scannerErr input); try discriminate; exact Hchecks.
Qed.

(** *** The done signal *)

Lemma doneCount_app l1 l2 :
  doneCount (l1 ++ l2) = (doneCount l1 + doneCount l2)%nat.
Proof. unfold doneCount. now rewrite filter_app, length_app. Qed.

Lemma doneCount_sends l : doneCount (map Send l) = 0%nat.
Proof. induction l as [|b l IH]; [reflexivity|exact IH]. Qed.

Lemma doneCount_result r : doneCount (resultEvents r) = 0%nat.
Proof. destruct r; reflexivity. Qed.

Lemma finalChecks_fatal s e :
  finalChecks s = Fatal e -> isFormatError e = true.
Proof.
  unfold finalChecks.
  destruct (negb (Z.rem (linesRead s) 2 =? 0));
    [|destruct (negb (itemsRead s =? totalPoints s))];
    intros H; inversion H; reflexivity.
Qed.

Lemma scanLine_fatal_kind s line s' e :
  scanLine s line = (s', LineFatal e) -> exists msg, e = CheckTotalsError msg.
Proof.
  intros H. line_cases H; try discriminate.
  - inversion H. now exists msg.
  - match type of H with
    | context [ ?a && ?b ] => destruct (a && b)
    end; inversion H.
Qed.

Lemma scanLoop_fatal_kind lines : forall s s' e,
  scanLoop lines s = (s', LoopFatal e) -> exists msg, e = CheckTotalsError msg.
Proof.
  induction lines as [|line rest IH]; intros s s' e H; [discriminate|].
  rewrite scanLoop_cons in H.
  destruct (scanLine s line) as [s1 ex1] eqn:Hstep.
  destruct ex1; [now apply (IH s1 s')|discriminate|].
  inversion H; subst. exact (scanLine_fatal_kind _ _ _ _ Hstep).
Qed.

(** C10. When the scanner gets past reading its input (the loop ends at
    the end of the input or by the limit break, without a read error),
    [inputDone] is closed exactly once, after the last batch and before
    the two checks, so that a fatal exit of either check comes after it.
    A run that a read error or an error of the totals check ends never
    closes [inputDone]. *)
Theorem done_once_before_the_checks input :
  (readCompletes CheckTotalValues itemLimit itemsPerBatch input = true ->
   fst (scan input) =
     map Send (batchesOf (fst (scan input))) ++ [Done]
       ++ resultEvents (snd (scan input)) /\
   doneCount (fst (scan input)) = 1%nat /\
   (forall e, snd (scan input) = Fatal e -> isFormatError e = true)) /\
  (readCompletes CheckTotalValues itemLimit itemsPerBatch input = false ->
   doneCount (fst (scan input)) = 0%nat /\
   exists e, snd (scan input) = Fatal e /\ isFormatError e = false).
Proof.
  unfold readCompletes, scan.
  destruct (scanLoop (stdinLines input) initScan) as [s ex] eqn:Hloop.
  assert (Hok : map Send (flushLast s) ++ [Done]
                  ++ resultEvents (finalChecks s) =
                map Send (batchesOf
                  (map Send (flushLast s) ++ [Done]
                     ++ resultEvents (finalChecks s)))
                  ++ [Done] ++ resultEvents (finalChecks s)).
  { rewrite !batchesOf_app, batchesOf_sends. cbn [batchesOf].
    now rewrite batchesOf_result, app_nil_r. }
  assert (Hone : doneCount (map Send (flushLast s) ++ [Done]
                              ++ resultEvents (finalChecks s)) = 1%nat).
  { now rewrite !doneCount_app, doneCount_sends, doneCount_result. }
  assert (Hbad : forall e, isFormatError e = false ->
            doneCount (map Send (sent s) ++ [Exit1 e]) = 0%nat /\
            exists e', Fatal e = Fatal e' /\ isFormatError e' = false).
  { intros e He. split; [now rewrite doneCount_app, doneCount_sends|].
    now exists e. }
  assert (Hgood :
    map Send (flushLast s) ++ [Done] ++ resultEvents (finalChecks s) =
      map Send (batchesOf
        (map Send (flushLast s) ++ [Done]
           ++ resultEvents (finalChecks s)))
        ++ [Done] ++ resultEvents (finalChecks s) /\
    doneCount (map Send (flushLast s) ++ [Done]
                 ++ resultEvents (finalChecks s)) = 1%nat /\
    (forall e, finalChecks s = Fatal e -> isFormatError e = true)).
  { split; [exact Hok|]. split; [exact Hone|]. apply finalChecks_fatal. }
  cbn [snd].
  destruct ex as [| |e].
  - destruct (scannerErr input) as [msg|]; cbn [fst snd]; split;
      intros H; try discriminate; [now apply Hbad|exact Hgood].
  - destruct (scannerErr input) as [msg|]; cbn [fst snd]; split;
      intros H; try discriminate; [now apply Hbad|exact Hgood].
  - destruct (scanLoop_fatal_kind _ _ _ _ Hloop) as [msg ->].
    cbn [fst snd]. split; intros H; [discriminate|now apply Hbad].
Qed.

(** *** Full batches and the batch left over *)

Lemma scanLine_full s line s' :
  1 <= itemsPerBatch <= maxInt64 ->
  isLine line ->
  batchInv itemsPerBatch s ->
  countInv s ->
  (isTotalsRecord line = false -> linesRead s + 1 <= maxInt64) ->
  fullBatches itemsPerBatch (sent s) ->
  itemsRead s =
    itemsPerBatch * Z.of_nat (List.length (sent s)) + itemsThisBatch s ->
  scanLine s line = (s', NextLine) ->
  batchInv itemsPerBatch s' /\ countInv s' /\
  fullBatches itemsPerBatch (sent s') /\
  itemsRead s' =
    itemsPerBatch * Z.of_nat (List.length (sent s')) + itemsThisBatch s' /\
  linesRead s' = linesRead s + (if isTotalsRecord line then 0 else 1).
Proof.
  intros HB Hline Hbatch Hcount Hmax Hfull Hsplit H.
  assert (Hbounded : boundedBatches itemsPerBatch (sent s)).
  { unfold boundedBatches, fullBatches in *.
    eapply Forall_impl; [|exact Hfull].
    intros b Hb. cbv beta in *. lia. }
  destruct (scanLine_batchInv _ _ _ _ HB Hline Hbatch Hbounded H)
    as [_ Hbatch'].
  split; [exact Hbatch'|]. clear Hbatch' Hbounded.
  pose proof (countNewlines_line (buf s) line Hline) as Hnl.
  destruct Hbatch as [Hitb Hcnt]. destruct Hcount as [Hpos Hhalf].
  assert (Hhalf_le : 0 <= linesRead s / 2 <= linesRead s).
  { split; [apply Z.div_pos; lia|apply Z.div_le_upper_bound; lia]. }
  unfold countInv, fullBatches.
  line_cases H;
    rewrite (isTotalsRecord_check line _ _ _ Hcheck),
      Htotals in *.
  - inversion H; subst; clear H. fields.
    repeat split; try assumption. lia.
  - discriminate.
  - specialize (Hmax eq_refl).
    assert (Hl : wrap64 (linesRead s + 1) = linesRead s + 1)
      by (apply wrap64_in_range; unfold maxInt64 in *; lia).
    assert (Hi : wrap64 (itemsRead s + 1) = itemsRead s + 1)
      by (apply wrap64_in_range; unfold maxInt64 in *; lia).
    assert (Hb : wrap64 (itemsThisBatch s + 1) = itemsThisBatch s + 1)
      by (apply wrap64_in_range; unfold maxInt64 in *; lia).
    rewrite Hl, Hi, Hb in H.
    destruct (Z.even (linesRead s)) eqn:Hev; cbn [negb] in H; cbv iota in H;
      match type of H with
      | context [ ?a && ?b ] => destruct (a && b)
      end; try discriminate H;
      rewrite orb_false_r in H.
    + assert (Hne : (itemsThisBatch s =? itemsPerBatch) = false)
        by (apply Z.eqb_neq; lia).
      rewrite Hne in H. inversion H; subst; clear H. fields.
      repeat split; try assumption; try lia.
      rewrite half_succ_odd; [assumption|].
      now rewrite even_succ_flip, Hev.
    + assert (Hhalf' : (linesRead s + 1) / 2 = linesRead s / 2 + 1)
        by (apply half_succ_even; now rewrite even_succ_flip, Hev).
      destruct (itemsThisBatch s + 1 =? itemsPerBatch) eqn:Hcut;
        inversion H; subst; clear H; fields.
      * apply Z.eqb_eq in Hcut. repeat split; try lia.
        -- apply Forall_app. split; [assumption|].
           constructor; [|constructor]. rewrite Hnl. lia.
        -- rewrite length_app. cbn [List.length].
           rewrite Nat2Z.inj_add. cbn [Z.of_nat]. nia.
      * repeat split; try assumption; lia.
Qed.

Lemma scanLoop_full lines : forall s s',
  1 <= itemsPerBatch <= maxInt64 ->
  Forall isLine lines ->
  batchInv itemsPerBatch s ->
  countInv s ->
  linesRead s + Z.of_nat (List.length (dataLines lines)) <= maxInt64 ->
  fullBatches itemsPerBatch (sent s) ->
  itemsRead s =
    itemsPerBatch * Z.of_nat (List.length (sent s)) + itemsThisBatch s ->
  scanLoop lines s = (s', InputExhausted) ->
  batchInv itemsPerBatch s' /\
  fullBatches itemsPerBatch (sent s') /\
  itemsRead s' =
    itemsPerBatch * Z.of_nat (List.length (sent s')) + itemsThisBatch s'.
Proof.
  induction lines as [|line rest IH];
    intros s s' HB Hlines Hbatch Hcount Hmax Hfull Hsplit H.
  - inversion H; subst. split; [assumption|split; assumption].
  - rewrite scanLoop_cons in H.
    destruct (scanLine s line) as [s1 ex1] eqn:Hstep.
    destruct ex1; try discriminate.
    apply Forall_cons_iff in Hlines. destruct Hlines as [Hline Hrest].
    rewrite dataLines_cons in Hmax.
    assert (Hone : isTotalsRecord line = false ->
                   linesRead s + 1 <= maxInt64).
    { intros Ht. rewrite Ht in Hmax. cbn [List.length] in Hmax. lia. }
    destruct (scanLine_full _ _ _ HB Hline Hbatch Hcount Hone
                Hfull Hsplit Hstep) as (Hb1 & Hc1 & Hf1 & Hs1 & Hl1).
    apply (IH s1 s'); try assumption.
    rewrite Hl1. destruct (isTotalsRecord line);
      cbn [List.length] in Hmax; lia.
Qed.

Lemma scanLine_goes_on s line s' ex :
  countInv s ->
  (isTotalsRecord line = false ->
   linesRead s + 1 <= maxInt64 /\
   snd (CheckTotalValues line) = None /\
   (itemLimit < 0 \/ (linesRead s + 1) / 2 < itemLimit)) ->
  scanLine s line = (s', ex) -> ex = NextLine.
Proof.
  intros [Hpos Hhalf] Hdata H.
  assert (Hhalf_le : 0 <= linesRead s / 2 <= linesRead s).
  { split; [apply Z.div_pos; lia|apply Z.div_le_upper_bound; lia]. }
  line_cases H;
    rewrite (isTotalsRecord_check _ _ _ _ Hcheck), Htotals in Hdata.
  - now inversion H.
  - destruct (Hdata eq_refl) as (_ & Herr & _).
    cbn in Herr. discriminate Herr.
  - destruct (Hdata eq_refl) as (Hmax & _ & Hlim).
    assert (Hl : wrap64 (linesRead s + 1) = linesRead s + 1)
      by (apply wrap64_in_range; unfold maxInt64 in *; lia).
    assert (Hi : wrap64 (itemsRead s + 1) = itemsRead s + 1)
      by (apply wrap64_in_range; unfold maxInt64 in *; lia).
    rewrite Hl, Hi in H.
    assert (Hno : (0 <=? itemLimit)
                  && (itemLimit <=?
                        (if negb (Z.even (linesRead s))
                         then itemsRead s + 1 else itemsRead s)) = false).
    { apply andb_false_iff. destruct Hlim as [Hlim|Hlim].
      - left. apply Z.leb_gt. exact Hlim.
      - right. apply Z.leb_gt.
        destruct (Z.even (linesRead s)) eqn:Hev; cbn [negb].
        + rewrite half_succ_odd in Hlim; [lia|].
          now rewrite even_succ_flip, Hev.
        + rewrite half_succ_even in Hlim; [lia|].
          now rewrite even_succ_flip, Hev. }
    rewrite Hno in H. now inversion H.
Qed.

Lemma scanLoop_to_the_end lines : forall s,
  1 <= itemsPerBatch <= maxInt64 ->
  Forall isLine lines ->
  batchInv itemsPerBatch s ->
  countInv s ->
  linesRead s + Z.of_nat (List.length (dataLines lines)) <= maxInt64 ->
  Forall (fun l => snd (CheckTotalValues l) = None) (dataLines lines) ->
  (itemLimit < 0 \/
   (linesRead s + Z.of_nat (List.length (dataLines lines))) / 2
     < itemLimit) ->
  fullBatches itemsPerBatch (sent s) ->
  itemsRead s =
    itemsPerBatch * Z.of_nat (List.length (sent s)) + itemsThisBatch s ->
  exists s',
    scanLoop lines s = (s', InputExhausted) /\
    batchInv itemsPerBatch s' /\ countInv s' /\
    fullBatches itemsPerBatch (sent s') /\
    itemsRead s' =
      itemsPerBatch * Z.of_nat (List.length (sent s')) + itemsThisBatch s' /\
    linesRead s' = linesRead s + Z.of_nat (List.length (dataLines lines)).
Proof.
  induction lines as [|line rest IH];
    intros s HB Hlines Hbatch Hcount Hmax Herr Hlim Hfull Hsplit.
  - exists s. split; [reflexivity|]. split; [exact Hbatch|].
    split; [exact Hcount|]. split; [exact Hfull|]. split; [exact Hsplit|].
    cbn. lia.
  - rewrite scanLoop_cons.
    destruct (scanLine s line) as [s1 ex1] eqn:Hstep.
    apply Forall_cons_iff in Hlines. destruct Hlines as [Hline Hrest].
    rewrite dataLines_cons in Hmax, Herr, Hlim |- *.
    assert (Hpos : 0 <= linesRead s) by apply Hcount.
    assert (Hdata : isTotalsRecord line = false ->
              linesRead s + 1 <= maxInt64 /\
              snd (CheckTotalValues line) = None /\
              (itemLimit < 0 \/ (linesRead s + 1) / 2 < itemLimit)).
    { intros Ht. rewrite Ht in Hmax, Herr, Hlim.
      cbn [List.length] in Hmax, Hlim.
      rewrite Nat2Z.inj_succ in Hmax, Hlim.
      apply Forall_cons_iff in Herr. destruct Herr as [Herr _].
      split; [lia|]. split; [exact Herr|].
      destruct Hlim as [Hlim|Hlim]; [now left|right].
      eapply Z.le_lt_trans; [|exact Hlim].
      apply Z.div_le_mono; lia. }
    assert (Hex : ex1 = NextLine)
      by exact (scanLine_goes_on _ _ _ _ Hcount Hdata Hstep).
    subst ex1.
    assert (Hone : isTotalsRecord line = false ->
                   linesRead s + 1 <= maxInt64)
      by (intros Ht; now apply Hdata).
    destruct (scanLine_full _ _ _ HB Hline Hbatch Hcount Hone
                Hfull Hsplit Hstep) as (Hb1 & Hc1 & Hf1 & Hs1 & Hl1).
    destruct (IH s1 HB Hrest Hb1 Hc1) as (s' & Hloop & Hrest').
    + rewrite Hl1. destruct (isTotalsRecord line);
        cbn [List.length] in Hmax; lia.
    + destruct (isTotalsRecord line); [exact Herr|].
      now apply Forall_cons_iff in Herr.
    + rewrite Hl1. destruct Hlim as [Hlim|Hlim]; [now left|right].
      destruct (isTotalsRecord line); cbn [List.length] in Hlim;
        [now rewrite Z.add_0_r|].
      rewrite Nat2Z.inj_succ in Hlim.
      now replace (linesRead s + 1 + Z.of_nat (List.length (dataLines rest)))
        with (linesRead s + Z.succ (Z.of_nat (List.length (dataLines rest))))
        by lia.
    + exact Hf1.
    + exact Hs1.
    + exists s'. split; [exact Hloop|].
      destruct Hrest' as (Hb & Hc & Hf & Hs & Hl).
      split; [exact Hb|]. split; [exact Hc|]. split; [exact Hf|].
      split; [exact Hs|].
      rewrite Hl, Hl1. destruct (isTotalsRecord line);
        cbn [List.length]; lia.
Qed.

(** C5. For a batch size of at least one, every batch [scan] puts on
    [batchChan] holds at most [itemsPerBatch] items.  And when the input
    is read to its end (no line is refused by the totals check, the
    scanner reports no error and the item limit is not reached) and the
    items of the input do not fill a whole number of batches, the batch
    left over, which holds at least one item and fewer than
    [itemsPerBatch], is sent after the full batches and before
    [inputDone] is closed. *)
Theorem batches_hold_at_most_itemsPerBatch input :
  1 <= itemsPerBatch <= maxInt64 ->
  Forall isLine (stdinLines input) ->
  (forall b, In b (batchesOf (fst (scan input))) ->
             itemsIn b <= itemsPerBatch) /\
  (let n := Z.of_nat (List.length (dataLines (stdinLines input))) in
   n <= maxInt64 ->
   Forall (fun l => snd (CheckTotalValues l) = None)
          (dataLines (stdinLines input)) ->
   scannerErr input = None ->
   itemLimit < 0 \/ n / 2 < itemLimit ->
   0 < (n / 2) mod itemsPerBatch ->
   exists full last,
     fst (scan input) =
       map Send full ++ [Send last; Done]
         ++ resultEvents (snd (scan input)) /\
     Forall (fun b => itemsIn b = itemsPerBatch) full /\
     itemsIn last = (n / 2) mod itemsPerBatch /\
     0 < itemsIn last < itemsPerBatch).
Proof.
  intros HB Hlines.
  assert (HB1 : 1 <= itemsPerBatch) by lia.
  split.
  - destruct (scanLoop (stdinLines input) initScan) as [s0 ex0] eqn:Hloop.
    destruct (scanLoop_batchInv _ _ _ _ HB Hlines
                (initScan_batchInv HB1) (Forall_nil _) Hloop)
      as [Hsent Hex].
    intros b Hin.
    destruct (scan_batches _ _ _ Hloop) as [E|E]; rewrite E in Hin.
    + now apply (boundedBatches_itemsIn (sent s0)).
    + apply (boundedBatches_itemsIn (flushLast s0)); [|assumption].
      destruct ex0.
      * now apply flushLast_bounded.
      * unfold flushLast. rewrite Hex. exact Hsent.
      * now apply flushLast_bounded.
  - intros n Hmax Herr Hscanner Hlim Hpart.
    destruct (scanLoop_to_the_end (stdinLines input) initScan HB Hlines
                (initScan_batchInv HB1))
      as (s & Hloop & Hbatch & Hcount & Hfull & Hsplit & Hl).
    + unfold countInv, initScan. fields. split; [lia|reflexivity].
    + unfold initScan. fields. exact Hmax.
    + exact Herr.
    + unfold initScan. fields. exact Hlim.
    + constructor.
    + unfold initScan. fields. cbn. lia.
    + unfold initScan in Hl. fields. rewrite Z.add_0_l in Hl. fold n in Hl.
      destruct Hcount as [_ Hhalf]. rewrite Hl in Hhalf.
      assert (Hitb : itemsThisBatch s = (n / 2) mod itemsPerBatch).
      { destruct Hbatch as [Hitb _].
        apply (Z.mod_unique _ _ (Z.of_nat (List.length (sent s))));
          [left; lia|lia]. }
      exists (sent s), (buf s).
      rewrite (batchInv_itemsIn _ Hbatch), Hitb.
      split; [|split; [|split]].
      * unfold scan. rewrite Hloop, Hscanner. cbn [fst snd].
        unfold flushLast. rewrite Hitb.
        apply Z.ltb_lt in Hpart. rewrite Hpart.
        rewrite map_app, <- app_assoc. reflexivity.
      * unfold fullBatches in Hfull. eapply Forall_impl; [|exact Hfull].
        intros b Hb. cbv beta in *. unfold itemsIn.
        rewrite Hb, Z.mul_comm. apply Z.div_mul. lia.
      * reflexivity.
      * split; [exact Hpart|]. apply Z.mod_pos_bound. lia.
Qed.

End ScannerFacts.

(** ** The worker loop *)

Section WorkerFacts.

Variable doLoad : bool.
Variable useGzip : bool.
Variable telemetryHostname : string.
Variable WriteLineProtocol : WriteCall -> option string.
Variable WriteGzip : string -> string.

#[local] Abbreviation processBatch :=
  (processBatch doLoad useGzip telemetryHostname WriteLineProtocol WriteGzip).
#[local] Abbreviation workerStep :=
  (workerStep doLoad useGzip telemetryHostname WriteLineProtocol WriteGzip).

Lemma processBatch_keeps_writer telemetryOn w pool batch :
  c (workerAfter (processBatch telemetryOn w pool batch)) = c w.
Proof.
  unfold processBatch. destruct doLoad; cbn [negb]; [|reflexivity].
  destruct useGzip.
  - destruct (poolGet pool) as [scratch pool0].
    now destruct (WriteLineProtocol _).
  - now destruct (WriteLineProtocol _).
Qed.

Lemma processBatch_writes_to_host telemetryOn w pool batch call :
  In call (writes (processBatch telemetryOn w pool batch)) ->
  toHost call = Host (c w).
Proof.
  unfold processBatch. destruct doLoad; cbn [negb]; [|intros []].
  destruct useGzip.
  - destruct (poolGet pool) as [scratch pool0].
    destruct (WriteLineProtocol _); cbn [writes];
      intros [<-|[]]; reflexivity.
  - destruct (WriteLineProtocol _); cbn [writes];
      intros [<-|[]]; reflexivity.
Qed.

(** Only emptied buffers are pooled, which is why a buffer taken from the
    pool by [scan] starts empty. *)
Lemma processBatch_pools_empty_buffers telemetryOn w pool batch :
  Forall (fun b => b = ""%string) pool ->
  Forall (fun b => b = ""%string)
         (poolAfter (processBatch telemetryOn w pool batch)).
Proof.
  intros Hpool. unfold processBatch.
  destruct doLoad; cbn [negb]; [|assumption].
  destruct useGzip.
  - destruct pool as [|b pool]; cbn [poolGet];
      destruct (WriteLineProtocol _); cbn [poolAfter];
      repeat (constructor; [reflexivity|]);
      try assumption; now inversion Hpool.
  - destruct (WriteLineProtocol _); cbn [poolAfter];
      repeat (constructor; [reflexivity|]); assumption.
Qed.

(** *** The send on the telemetry channel *)

Lemma chanSend_accepted p ch :
  In p (accepted (chanSend p ch)) /\
  List.length (accepted (chanSend p ch)) = S (List.length (accepted ch)) /\
  (forall q, In q (accepted ch) -> In q (accepted (chanSend p ch))).
Proof.
  unfold accepted, chanSend.
  destruct (receiverParked ch); cbn [handedOver queued];
    rewrite ?length_app; cbn [List.length]; repeat split.
  - apply in_or_app. left. apply in_or_app. right. now left.
  - lia.
  - intros q Hq. apply in_app_or in Hq. apply in_or_app.
    destruct Hq; [left; apply in_or_app|]; auto.
  - apply in_or_app. right. apply in_or_app. right. now left.
  - lia.
  - intros q Hq. apply in_app_or in Hq. apply in_or_app.
    destruct Hq; [|right; apply in_or_app]; auto.
Qed.

(** C4. The send of the telemetry point is a plain channel send.  With
    the worker at that send, its step exists exactly when the channel can
    take the point (a receiver is parked on it or its buffer has room);
    the step hands the point to the channel, which loses none, and takes
    the worker back to the dequeue.  While the channel cannot take the
    point the worker has no step: it neither drops the point nor
    dequeues. *)
Theorem telemetry_send_waits_for_the_sink m p ch :
  pc m = AtTelemetrySend p ->
  telemetrySink m = Some ch ->
  workerStep m =
    (if canSend ch then
       Some (mkMachine AtDequeue (self m) (bufPool m) (batchChan m)
                       (batchChanClosed m) (Some (chanSend p ch))
                       (written m))
     else None) /\
  In p (accepted (chanSend p ch)) /\
  List.length (accepted (chanSend p ch)) = S (List.length (accepted ch)) /\
  (forall q, In q (accepted ch) -> In q (accepted (chanSend p ch))).
Proof.
  intros Hpc Hsink. split; [|apply chanSend_accepted].
  unfold workerStep. now rewrite Hpc, Hsink.
Qed.

(** C3. With [doLoad] off the worker counts the batch and goes on to the
    next one: nothing is written, and the buffer pool is left as it was,
    so the batch's buffer is not put back.  On the delivery path (shown
    without compression, the write accepted) the buffer is reset and
    put back into the pool. *)
Theorem dry_run_does_not_recycle telemetryOn w pool batch :
  (doLoad = false ->
   processBatch telemetryOn w pool batch =
     mkIteration (mkWorker (c w) (telemetryWorkerLabel w)
                           (wrap64 (batchesSeen w + 1)))
                 pool [] None None) /\
  (doLoad = true -> useGzip = false ->
   WriteLineProtocol (mkWrite (Host (c w)) batch false) = None ->
   poolAfter (processBatch telemetryOn w pool batch) = ""%string :: pool).
Proof.
  unfold processBatch. split.
  - now intros ->.
  - intros -> -> Hw. cbn [negb body]. now rewrite Hw.
Qed.

End WorkerFacts.

(** ** The pool and the run *)

Lemma startWorkers_nth workers daemonUrls i :
  (i < Z.to_nat workers)%nat ->
  nth_error (startWorkers workers daemonUrls) i =
    Some (mkWorker
            (mkConfig (nth (i mod List.length daemonUrls) daemonUrls ""%string))
            (decimal i) 0).
Proof.
  intros Hi. unfold startWorkers.
  rewrite nth_error_map, nth_error_seq.
  apply Nat.ltb_lt in Hi. now rewrite Hi.
Qed.

Lemma startWorkers_length workers daemonUrls :
  List.length (startWorkers workers daemonUrls) = Z.to_nat workers.
Proof. unfold startWorkers. now rewrite length_map, length_seq. Qed.

Lemma startWorkers_bound workers daemonUrls :
  boundToUrls daemonUrls (startWorkers workers daemonUrls).
Proof.
  intros i w Hw.
  assert (Hi : (i < Z.to_nat workers)%nat).
  { rewrite <- (startWorkers_length workers daemonUrls).
    apply nth_error_Some. congruence. }
  rewrite (startWorkers_nth _ _ _ Hi) in Hw. now inversion Hw.
Qed.

Lemma replaceNth_length {A : Type} (l : list A) : forall i x,
  List.length (replaceNth i x l) = List.length l.
Proof.
  induction l as [|y l IH]; intros [|i] x; simpl; auto.
Qed.

Lemma replaceNth_nth {A : Type} (l : list A) : forall i j x,
  nth_error (replaceNth i x l) j =
    if (Nat.eqb i j && (i <? List.length l)%nat)%bool then Some x
    else nth_error l j.
Proof.
  induction l as [|y l IH]; intros [|i] [|j] x; simpl; try reflexivity.
  - now rewrite andb_false_r.
  - rewrite IH. reflexivity.
Qed.

Lemma boundToUrls_replace daemonUrls ws i w w' :
  boundToUrls daemonUrls ws ->
  nth_error ws i = Some w ->
  c w' = c w ->
  boundToUrls daemonUrls (replaceNth i w' ws).
Proof.
  intros Hb Hw Hc j wj Hj. rewrite replaceNth_nth in Hj.
  destruct (Nat.eqb i j && (i <? List.length ws)%nat)%bool eqn:E.
  - apply andb_true_iff in E. destruct E as [E _].
    apply Nat.eqb_eq in E. subst j. inversion Hj; subst wj.
    rewrite Hc. now apply Hb.
  - now apply Hb.
Qed.

Section MainFacts.

Variable CheckTotalValues : string -> Z * Z * option string.
Variable WriteLineProtocol : WriteCall -> option string.
Variable WriteGzip : string -> string.
Variable daemonUrls : list string.
Variable workers : Z.
Variable batchSize : Z.
Variable itemLimit : Z.
Variable useGzip : bool.
Variable doLoad : bool.
Variable telemetryHost : string.
Variable telemetryHostname : string.

#[local] Abbreviation scanLoop :=
  (scanLoop CheckTotalValues itemLimit batchSize).
#[local] Abbreviation scan := (scan CheckTotalValues itemLimit batchSize).
#[local] Abbreviation dataLines := (dataLines CheckTotalValues).
#[local] Abbreviation drain :=
  (drain WriteLineProtocol WriteGzip useGzip doLoad telemetryHost
         telemetryHostname).
#[local] Abbreviation main :=
  (main CheckTotalValues WriteLineProtocol WriteGzip daemonUrls workers
        batchSize itemLimit useGzip doLoad telemetryHost telemetryHostname).
#[local] Abbreviation processBatch :=
  (processBatch doLoad useGzip telemetryHostname WriteLineProtocol WriteGzip).

Lemma drain_cons i sched batch batches st :
  drain (i :: sched) (batch :: batches) st =
    match nth_error (poolWorkers st) i with
    | Some w =>
        let it := processBatch (telemetryOn telemetryHost) w
                               (sharedPool st) batch in
        let st' :=
          mkPool (replaceNth i (workerAfter it) (poolWorkers st))
                 (poolAfter it)
                 (poolWrites st ++ map (pair i) (writes it))
                 (poolPoints st ++
                    match toTelemetry it with
                    | Some p => [p] | None => [] end) in
        match crashed it with
        | Some e => (st', Some e)
        | None => drain sched batches st'
        end
    | None => (st, None)
    end.
Proof. reflexivity. Qed.

(** *** Workers and their endpoints *)

Lemma drain_bound sched : forall batches st,
  boundToUrls daemonUrls (poolWorkers st) ->
  (forall i call, In (i, call) (poolWrites st) ->
     toHost call = nth (i mod List.length daemonUrls) daemonUrls ""%string) ->
  boundToUrls daemonUrls (poolWorkers (fst (drain sched batches st))) /\
  (forall i call, In (i, call) (poolWrites (fst (drain sched batches st))) ->
     toHost call = nth (i mod List.length daemonUrls) daemonUrls ""%string).
Proof.
  induction sched as [|i sched IH]; intros batches st Hb Hw.
  - destruct batches; now split.
  - destruct batches as [|batch batches]; [now split|].
    rewrite drain_cons.
    destruct (nth_error (poolWorkers st) i) as [w|] eqn:Hi; [|now split].
    cbv zeta.
    set (it := processBatch (telemetryOn telemetryHost) w (sharedPool st)
                            batch).
    assert (Hb' : boundToUrls daemonUrls
                    (replaceNth i (workerAfter it) (poolWorkers st))).
    { apply (boundToUrls_replace _ _ _ w); [assumption|assumption|].
      apply processBatch_keeps_writer. }
    assert (Hw' : forall j call,
               In (j, call) (poolWrites st ++ map (pair i) (writes it)) ->
               toHost call =
                 nth (j mod List.length daemonUrls) daemonUrls ""%string).
    { intros j call Hin. apply in_app_or in Hin. destruct Hin as [Hin|Hin].
      - now apply Hw.
      - apply in_map_iff in Hin. destruct Hin as (call' & E & Hin).
        inversion E; subst j call'.
        rewrite (processBatch_writes_to_host _ _ _ _ _ _ _ _ _ _ Hin).
        now apply Hb. }
    destruct (crashed it); [now split|].
    now apply IH.
Qed.

Lemma drain_follows_schedule sched : forall batches st,
  doLoad = true ->
  (forall call, WriteLineProtocol call = None) ->
  List.length sched = List.length batches ->
  Forall (fun i => (i < List.length (poolWorkers st))%nat) sched ->
  map fst (poolWrites (fst (drain sched batches st))) =
    map fst (poolWrites st) ++ sched /\
  snd (drain sched batches st) = None.
Proof.
  induction sched as [|i sched IH]; intros batches st Hload Hok Hlen Hall.
  - destruct batches; [|discriminate]. cbn. now rewrite app_nil_r.
  - destruct batches as [|batch batches]; [discriminate|].
    rewrite drain_cons. apply Forall_cons_iff in Hall.
    destruct Hall as [Hi Hrest].
    destruct (nth_error (poolWorkers st) i) as [w|] eqn:Hw;
      [|apply nth_error_None in Hw; lia].
    cbv zeta.
    assert (Hit : crashed (processBatch (telemetryOn telemetryHost) w
                                        (sharedPool st) batch) = None /\
                  List.length (writes (processBatch
                    (telemetryOn telemetryHost) w (sharedPool st) batch))
                  = 1%nat).
    { unfold processBatch. rewrite Hload. cbn [negb].
      destruct useGzip.
      - destruct (poolGet (sharedPool st)) as [scratch pool0].
        rewrite Hok. now split.
      - rewrite Hok. now split. }
    destruct Hit as [Hc Hone]. rewrite Hc.
    match goal with
    | |- context [ drain sched batches ?st1 ] =>
        destruct (IH batches st1 Hload Hok) as [E1 E2]
    end.
    + simpl in Hlen. lia.
    + cbn [poolWorkers]. rewrite replaceNth_length. exact Hrest.
    + split; [|exact E2]. rewrite E1. cbn [poolWrites].
      rewrite map_app, <- app_assoc. f_equal.
      destruct (writes _) as [|call [|]]; try discriminate. reflexivity.
Qed.

(** C6. Worker [i] is started with a writer for
    [daemonUrls[i % len(daemonUrls)]] and keeps it: whatever the workers
    dequeue, each of them still holds that writer afterwards, and every
    write made by worker [i] goes to that URL.  When the load is on and
    the writes succeed, the batches are written, in the order they were
    sent, by the workers that the race for the channel selects; so an
    endpoint receives a batch exactly when one of its workers wins
    one. *)
Theorem workers_write_to_their_endpoint :
  let M := List.length daemonUrls in
  let pool0 := mkPool (startWorkers workers daemonUrls) [] [] [] in
  (forall i, (i < Z.to_nat workers)%nat ->
     nth_error (startWorkers workers daemonUrls) i =
       Some (mkWorker (mkConfig (nth (i mod M) daemonUrls ""%string))
                      (decimal i) 0)) /\
  (forall sched batches,
     boundToUrls daemonUrls (poolWorkers (fst (drain sched batches pool0))) /\
     forall i call,
       In (i, call) (poolWrites (fst (drain sched batches pool0))) ->
       toHost call = nth (i mod M) daemonUrls ""%string) /\
  (doLoad = true ->
   (forall call, WriteLineProtocol call = None) ->
   forall sched batches,
     List.length sched = List.length batches ->
     Forall (fun i => (i < Z.to_nat workers)%nat) sched ->
     map fst (poolWrites (fst (drain sched batches pool0))) = sched).
Proof.
  intros M pool0. split; [|split].
  - intros i Hi. now apply startWorkers_nth.
  - intros sched batches. apply drain_bound.
    + apply startWorkers_bound.
    + intros i call [].
  - intros Hload Hok sched batches Hlen Hall.
    destruct (drain_follows_schedule sched batches pool0 Hload Hok Hlen)
      as [E _]; [|exact E].
    unfold pool0. cbn [poolWorkers]. now rewrite startWorkers_length.
Qed.

(** *** Runs with and without workers *)

Lemma main_scheduled sched input :
  0 <= workers ->
  (workers = 0 -> batchesOf (fst (scan input)) = []) ->
  main sched input =
    (let '(events, r) := scan input in
     let '(pool1, crash) :=
       drain sched (batchesOf events)
             (mkPool (startWorkers workers daemonUrls) [] [] []) in
     match r, crash with
     | Returned items bytes values, None =>
         mkRun events (poolWrites pool1) (Some (mkStats items bytes values))
     | Returned _ _ _, Some e =>
         mkRun (events ++ [Exit1 e]) (poolWrites pool1) None
     | Fatal _, _ => mkRun events (poolWrites pool1) None
     end).
Proof.
  intros Hnn Hzero. unfold main.
  destruct (Z.ltb_spec workers 0) as [Hneg|_]; [lia|].
  destruct (scan input) as [events r]. cbn [fst] in Hzero.
  destruct (Z.eqb_spec workers 0) as [Hz|Hnz]; [|reflexivity].
  now rewrite (Hzero Hz).
Qed.

Lemma schedule_needs_workers sched (batches : list string) :
  List.length sched = List.length batches ->
  Forall (fun i => (i < Z.to_nat workers)%nat) sched ->
  workers <= 0 -> batches = [].
Proof.
  intros Hlen Hall Hw. destruct sched as [|i sched].
  - now destruct batches.
  - apply Forall_cons_iff in Hall. destruct Hall as [Hi _]. lia.
Qed.

(** *** Fatal exits of the scanner *)

Lemma main_needs_scan_result sched input e :
  snd (scan input) = Fatal e -> runStats (main sched input) = None.
Proof.
  unfold main. destruct (workers <? 0); [reflexivity|].
  destruct (scan input) as [events r]. cbn [snd]. intros ->.
  destruct (workers =? 0), (batchesOf events);
    try reflexivity; now destruct (drain _ _ _).
Qed.

Lemma limit_break_scan_result input s :
  scanLoop (stdinLines input) initScan = (s, HitLimit) ->
  exists e, snd (scan input) = Fatal e.
Proof.
  intros Hloop. unfold scan. rewrite Hloop.
  destruct (scannerErr input) as [msg|]; cbn [snd]; [now eexists|].
  destruct (limit_break_never_passes_checks _ _ _ _ _ Hloop)
    as [_ [E|E]]; rewrite E; now eexists.
Qed.

(** C1. When the loop of [scan] is left by the limit break, [scan] does
    not return: the check of the items read against the expected total
    is still made, and with a limit of at least one the two always
    differ; the run ends in a fatal exit and prints no summary. *)
Theorem limit_break_is_fatal sched input s :
  scanLoop (stdinLines input) initScan = (s, HitLimit) ->
  (exists e, snd (scan input) = Fatal e) /\
  (1 <= itemLimit -> itemsRead s <> totalPoints s) /\
  runStats (main sched input) = None.
Proof.
  intros Hloop.
  destruct (limit_break_scan_result _ _ Hloop) as [e He].
  split; [now exists e|]. split.
  - apply (limit_break_never_passes_checks _ _ _ _ _ Hloop).
  - exact (main_needs_scan_result _ _ _ He).
Qed.

(** C8. When the number of lines the scanner counts in its input is not
    a multiple of two, [scan] ends in a fatal exit and the run prints no
    summary; and when the loop reaches the end of the input, the exit is
    the one of the bulk format check, after the last batch was sent and
    [inputDone] closed. *)
Theorem odd_line_count_is_fatal sched input :
  Z.of_nat (List.length (dataLines (stdinLines input))) mod 2 <> 0 ->
  (exists e, snd (scan input) = Fatal e) /\
  runStats (main sched input) = None /\
  (forall s,
      scanLoop (stdinLines input) initScan = (s, InputExhausted) ->
      scannerErr input = None ->
      scan input =
        (map Send (flushLast s) ++ [Done; Exit1 BadBulkFormat],
         Fatal BadBulkFormat)).
Proof.
  intros Hodd.
  assert (Hend : forall s,
    scanLoop (stdinLines input) initScan = (s, InputExhausted) ->
    finalChecks s = Fatal BadBulkFormat).
  { intros s Hloop. unfold finalChecks. rewrite rem2_is_even.
    rewrite (scanLoop_parity _ _ _ _ _ _ Hloop).
    unfold initScan. fields. rewrite Z.add_0_l.
    destruct (Z.even _) eqn:Hev; [|reflexivity].
    exfalso. apply Hodd. apply Z.even_spec in Hev.
    destruct Hev as [k ->]. rewrite Z.mul_comm. apply Z_mod_mult. }
  assert (Hfatal : exists e, snd (scan input) = Fatal e).
  { destruct (scanLoop (stdinLines input) initScan) as [s ex] eqn:Hloop.
    destruct ex.
    - unfold scan. rewrite Hloop.
      destruct (scannerErr input); cbn [snd]; [now eexists|].
      rewrite (Hend s eq_refl). now eexists.
    - exact (limit_break_scan_result _ _ Hloop).
    - unfold scan. rewrite Hloop. now eexists. }
  split; [exact Hfatal|]. split.
  - destruct Hfatal as [e He]. exact (main_needs_scan_result _ _ _ He).
  - intros s Hloop Herr. unfold scan. rewrite Hloop, Herr.
    now rewrite (Hend s Hloop).
Qed.

(** *** Bytes submitted and bytes read *)

Lemma bytesSubmitted_bodies ws :
  bytesSubmitted ws = sumLen (map (fun w => body (snd w)) ws).
Proof.
  induction ws as [|w ws IH]; [reflexivity|].
  cbn [bytesSubmitted sumLen map fold_right].
  fold (bytesSubmitted ws). now rewrite IH.
Qed.

Lemma drain_bodies sched : forall batches st,
  doLoad = true -> useGzip = false ->
  (forall call, WriteLineProtocol call = None) ->
  List.length sched = List.length batches ->
  Forall (fun i => (i < List.length (poolWorkers st))%nat) sched ->
  map (fun w => body (snd w)) (poolWrites (fst (drain sched batches st))) =
    map (fun w => body (snd w)) (poolWrites st) ++ batches.
Proof.
  induction sched as [|i sched IH]; intros batches st Hload Hgz Hok Hlen Hall.
  - destruct batches; [|discriminate]. cbn. now rewrite app_nil_r.
  - destruct batches as [|batch batches]; [discriminate|].
    rewrite drain_cons. apply Forall_cons_iff in Hall.
    destruct Hall as [Hi Hrest].
    destruct (nth_error (poolWorkers st) i) as [w|] eqn:Hw;
      [|apply nth_error_None in Hw; lia].
    cbv zeta.
    assert (Hit : crashed (processBatch (telemetryOn telemetryHost) w
                                        (sharedPool st) batch) = None /\
                  map body (writes (processBatch
                    (telemetryOn telemetryHost) w (sharedPool st) batch))
                  = [batch]).
    { unfold processBatch. rewrite Hload, Hgz. cbn [negb].
      rewrite Hok. now split. }
    destruct Hit as [Hc Hone]. rewrite Hc.
    match goal with
    | |- context [ drain sched batches ?st1 ] =>
        rewrite (IH batches st1 Hload Hgz Hok)
    end.
    + cbn [poolWrites]. rewrite map_app, <- app_assoc. f_equal.
      rewrite map_map.
      change (map body (writes (processBatch (telemetryOn telemetryHost) w
                                             (sharedPool st) batch))
                ++ batches = batch :: batches).
      now rewrite Hone.
    + simpl in Hlen. lia.
    + cbn [poolWorkers]. rewrite replaceNth_length. exact Hrest.
Qed.

(** X22. With the load on, compression off and every write accepted, the
    sinks are handed the bytes [scan] reports as read plus the bytes of the
    last batch, when the input ends with one under construction. *)
Lemma submitted_is_bytesRead_plus_last_batch
      sched input s ex items bytes values :
  doLoad = true -> useGzip = false ->
  (forall call, WriteLineProtocol call = None) ->
  lineBytes (stdinLines input) <= maxInt64 ->
  scanLoop (stdinLines input) initScan = (s, ex) ->
  snd (scan input) = Returned items bytes values ->
  List.length sched = List.length (batchesOf (fst (scan input))) ->
  Forall (fun i => (i < Z.to_nat workers)%nat) sched ->
  bytesSubmitted (runWrites (main sched input)) =
    bytes + (if 0 <? itemsThisBatch s then Len (buf s) else 0).
Proof.
  intros Hload Hgz Hok Hmax Hloop Hret Hlen Hall.
  assert (Hbytes : bytesInv s).
  { apply (scanLoop_bytes _ _ _ _ _ _ _ Hloop); [reflexivity|].
    unfold initScan. fields. cbn [sumLen fold_right]. unfold Len. simpl. lia. }
  destruct (scan_returned _ _ _ _ _ _ _ _ _ Hloop Hret)
    as (Htrace & _ & -> & _).
  assert (Hbatches : batchesOf (fst (scan input)) = flushLast s).
  { rewrite Htrace, batchesOf_app, batchesOf_sends. cbn [batchesOf].
    now rewrite app_nil_r. }
  rewrite Hbatches in Hlen.
  assert (Hsum : sumLen (flushLast s) =
                 bytesRead s
                 + (if 0 <? itemsThisBatch s then Len (buf s) else 0)).
  { unfold flushLast. rewrite Hbytes.
    destruct (0 <? itemsThisBatch s); [|lia].
    rewrite sumLen_app. cbn [sumLen fold_right]. lia. }
  pose proof (schedule_needs_workers _ _ Hlen Hall) as Hnone.
  destruct (Z.ltb_spec workers 0) as [Hneg|Hnn].
  { unfold main. apply Z.ltb_lt in Hneg. rewrite Hneg. cbn [runWrites].
    rewrite Hnone in Hsum by lia. exact Hsum. }
  rewrite main_scheduled;
    [|exact Hnn|intros Hz; rewrite Hbatches; apply Hnone; lia].
  destruct (scan input) as [events r].
  cbn [fst snd] in Hret, Hbatches. subst r. rewrite Hbatches.
  match goal with
  | |- context [ drain sched (flushLast s) ?st0 ] =>
      pose proof (drain_bodies sched (flushLast s) st0 Hload Hgz Hok Hlen)
        as Hb;
      destruct (drain sched (flushLast s) st0) as [pool1 crash]
  end.
  cbn [fst poolWorkers poolWrites map app] in Hb.
  rewrite startWorkers_length in Hb. specialize (Hb Hall).
  destruct crash; cbn [runWrites];
    now rewrite bytesSubmitted_bodies, Hb, Hsum.
Qed.

End MainFacts.

(** ** Sample runs *)

Lemma limit_break_is_fatal_witness :
  scanLoop sampleCheck 1 5000 (stdinLines twoItems) initScan =
    (mkScanState "" 2 1 13 0 0 0 [batch1], HitLimit) /\
  (exists e, snd (scan sampleCheck 1 5000 twoItems) = Fatal e) /\
  (1 <= 1 -> 1 <> 0) /\
  runStats (main sampleCheck alwaysWritten storeOnly [sampleUrl] 1 5000 1
                 false true "" "loader" [0%nat] twoItems) = None.
Proof.
  split; [reflexivity|].
  apply (limit_break_is_fatal sampleCheck alwaysWritten storeOnly [sampleUrl]
           1 5000 1 false true ""%string "loader"%string [0%nat] twoItems
           (mkScanState "" 2 1 13 0 0 0 [batch1])).
  reflexivity.
Defined.

(** A run with a limit of one item, step by step: one batch, the done
    signal, and the exit of the count check. *)
Example limit_run_trace :
  scan sampleCheck 1 5000 twoItems =
    ([Send batch1; Done; Exit1 (CountMismatch 1 0)],
     Fatal (CountMismatch 1 0)).
Proof. reflexivity. Qed.

(** The same batch with the load off and on: the pool stays empty, or
    receives the emptied buffer. *)
Example dry_run_sample :
  poolAfter (processBatch false false "loader" alwaysWritten storeOnly
                          false sampleWorker [] batch1) = [] /\
  poolAfter (processBatch true false "loader" alwaysWritten storeOnly
                          false sampleWorker [] batch1) = [""%string].
Proof. split; reflexivity. Qed.

Lemma dry_run_does_not_recycle_witness :
  processBatch false false "loader" alwaysWritten storeOnly
               false sampleWorker [] batch1 =
    mkIteration (mkWorker (mkConfig sampleUrl) "0"%string 1) [] [] None None.
Proof.
  destruct (dry_run_does_not_recycle false false "loader"%string
              alwaysWritten storeOnly false sampleWorker [] batch1)
    as [Hdry _].
  exact (Hdry eq_refl).
Defined.

(** C2. Two lines and the totals record, with a batch size of two: the one
    item never fills a batch, so its buffer goes out as the last batch.
    The sink is handed its 13 bytes while [scan] returns 0 bytes read. *)
Theorem last_batch_is_not_counted :
  let run := main sampleCheck alwaysWritten storeOnly [sampleUrl] 1 2 (-1)
                  false true "" "loader" [0%nat] oneItem in
  runTrace run = [Send batch1; Done] /\
  runStats run = Some (mkStats 1 0 2) /\
  runWrites run = [(0%nat, mkWrite sampleUrl batch1 false)] /\
  bytesSubmitted (runWrites run) = 13.
Proof. cbv zeta. repeat split. Qed.

(** Counterexample to C4 as stated: with the telemetry channel full, the worker that
    has written [batch1] reaches the send and stays there; [batch2] waits
    in [batchChan], and the point is not dropped. *)
Lemma full_sink_blocks_the_worker :
  workerStep true false "loader" alwaysWritten storeOnly
    (mkMachine AtDequeue sampleWorker [] [batch1; batch2] false
               (Some fullSink) []) = Some (atSend fullSink) /\
  workerStep true false "loader" alwaysWritten storeOnly (atSend fullSink)
    = None /\
  batchChan (atSend fullSink) = [batch2].
Proof. repeat split. Qed.

Lemma telemetry_send_waits_for_the_sink_witness :
  (pc (atSend freeSink) = AtTelemetrySend samplePoint /\
   telemetrySink (atSend freeSink) = Some freeSink) /\
  workerStep true false "loader" alwaysWritten storeOnly (atSend freeSink) =
    Some (mkMachine AtDequeue (mkWorker (mkConfig sampleUrl) "0"%string 1)
                    [""%string] [batch2] false
                    (Some (mkChan 1 [samplePoint] false [])) 
                    [mkWrite sampleUrl batch1 false]) /\
  In samplePoint (accepted (chanSend samplePoint freeSink)).
Proof.
  split; [split; reflexivity|].
  destruct (telemetry_send_waits_for_the_sink
              true false "loader"%string alwaysWritten storeOnly
              (atSend freeSink) samplePoint freeSink eq_refl eq_refl)
    as (Hstep & Hin & _).
  split; [exact Hstep|exact Hin].
Defined.

Lemma batches_hold_at_most_itemsPerBatch_witness :
  (1 <= 2 <= maxInt64 /\ Forall isLine (stdinLines threeItems)) /\
  (forall b, In b [(batch1 ++ batch2)%string; batch3] -> itemsIn b <= 2) /\
  exists full last,
    [Send (batch1 ++ batch2); Send batch3; Done] =
      map Send full ++ [Send last; Done] ++ [] /\
    Forall (fun b => itemsIn b = 2) full /\
    itemsIn last = 1 /\
    0 < itemsIn last < 2.
Proof.
  assert (HB : 1 <= 2 <= maxInt64) by (unfold maxInt64; lia).
  assert (Hlines : Forall isLine (stdinLines threeItems))
    by (repeat constructor).
  split; [now split|].
  destruct (batches_hold_at_most_itemsPerBatch sampleCheck (-1) 2 threeItems
              HB Hlines) as [Hmost Hlast].
  split; [exact Hmost|].
  apply Hlast.
  - unfold maxInt64. cbn. lia.
  - repeat constructor.
  - reflexivity.
  - left. lia.
  - reflexivity.
Defined.

Lemma itemsRead_is_half_the_lines_witness :
  (scanLoop sampleCheck (-1) 5000 (stdinLines twoItems) initScan =
     (mkScanState (batch1 ++ batch2) 4 2 0 2 4 2 [], InputExhausted) /\
   scannerErr twoItems = None /\ 4 mod 2 = 0 /\ 4 <= maxInt64) /\
  2 = 4 / 2 /\
  snd (scan sampleCheck (-1) 5000 twoItems) = Returned 2 0 4 /\
  (forall items bytes values,
      snd (scan sampleCheck (-1) 5000 twoItems) = Returned items bytes values ->
      items = 4 / 2).
Proof.
  assert (Hmax : 4 <= maxInt64) by (unfold maxInt64; lia).
  split; [repeat split; assumption|].
  exact (itemsRead_is_half_the_lines sampleCheck (-1) 5000 twoItems
           (mkScanState (batch1 ++ batch2) 4 2 0 2 4 2 [])
           eq_refl eq_refl eq_refl Hmax).
Defined.

Lemma odd_line_count_is_fatal_witness :
  Z.of_nat (List.length (dataLines sampleCheck (stdinLines oddLines))) mod 2
    <> 0 /\
  (exists e, snd (scan sampleCheck (-1) 5000 oddLines) = Fatal e) /\
  runStats (main sampleCheck alwaysWritten storeOnly [sampleUrl] 1 5000 (-1)
                 false true "" "loader" [0%nat] oddLines) = None /\
  (forall s,
      scanLoop sampleCheck (-1) 5000 (stdinLines oddLines) initScan
        = (s, InputExhausted) ->
      scannerErr oddLines = None ->
      scan sampleCheck (-1) 5000 oddLines =
        (map Send (flushLast s) ++ [Done; Exit1 BadBulkFormat],
         Fatal BadBulkFormat)).
Proof.
  assert (Hodd : Z.of_nat (List.length
                   (dataLines sampleCheck (stdinLines oddLines))) mod 2 <> 0)
    by (intros H; discriminate H).
  split; [exact Hodd|].
  exact (odd_line_count_is_fatal sampleCheck alwaysWritten storeOnly
           [sampleUrl] 1 5000 (-1) false true ""%string "loader"%string
           [0%nat] oddLines Hodd).
Defined.

Lemma totals_records_are_skipped_witness :
  isTotalsRecord sampleCheck "dataset-size:1,2" = true /\
  snd (scanLine sampleCheck (-1) 5000
                (mkScanState "action1" 1 0 0 0 0 0 []) "dataset-size:1,2")
    = NextLine /\
  buf (fst (scanLine sampleCheck (-1) 5000
                     (mkScanState "action1" 1 0 0 0 0 0 [])
                     "dataset-size:1,2")) = "action1"%string /\
  linesRead (fst (scanLine sampleCheck (-1) 5000
                           (mkScanState "action1" 1 0 0 0 0 0 [])
                           "dataset-size:1,2")) = 1.
Proof.
  split; [reflexivity|].
  destruct (totals_records_are_skipped sampleCheck (-1) 5000
              (mkScanState "action1" 1 0 0 0 0 0 [])
              "dataset-size:1,2"%string eq_refl)
    as [(Hexit & Hbuf & _ & Hlines & _) _].
  split; [exact Hexit|]. split; [exact Hbuf|exact Hlines].
Defined.

(** Counterexample to C10 as stated: a run that a read error ends exits
    before [inputDone] is closed. *)
Lemma read_error_run_never_signals_done :
  scan sampleCheck (-1) 5000 unreadable =
    ([Exit1 (ReadError "bufio.Scanner: token too long")],
     Fatal (ReadError "bufio.Scanner: token too long")) /\
  doneCount (fst (scan sampleCheck (-1) 5000 unreadable)) = 0%nat.
Proof. split; reflexivity. Qed.

Lemma done_once_before_the_checks_witness :
  readCompletes sampleCheck (-1) 5000 twoItems = true /\
  doneCount (fst (scan sampleCheck (-1) 5000 twoItems)) = 1%nat.
Proof.
  split; [reflexivity|].
  destruct (done_once_before_the_checks sampleCheck (-1) 5000 twoItems)
    as [Hok _].
  destruct (Hok eq_refl) as (_ & Hone & _). exact Hone.
Defined.

(** Counterexample to C6 as stated: two workers, two endpoints and two
    batches, both won by worker 0: the second endpoint receives nothing. *)
Lemma one_worker_may_take_every_batch :
  let run := main sampleCheck alwaysWritten storeOnly twoUrls 2 1 (-1)
                  false true "" "loader" [0%nat; 0%nat] twoItems in
  map (fun w => Host (c w)) (startWorkers 2 twoUrls) = twoUrls /\
  map (fun w => body (snd w)) (runWrites run) = [batch1; batch2] /\
  map (fun w => toHost (snd w)) (runWrites run) =
    ["http://es0:9200"; "http://es0:9200"]%string /\
  runStats run = Some (mkStats 2 26 4).
Proof. cbv zeta. repeat split. Qed.

Lemma workers_write_to_their_endpoint_witness :
  map fst
      (poolWrites
         (fst (drain alwaysWritten storeOnly false true "" "loader"
                     [1%nat; 0%nat] [batch1; batch2]
                     (mkPool (startWorkers 2 twoUrls) [] [] []))))
    = [1%nat; 0%nat].
Proof.
  destruct (workers_write_to_their_endpoint alwaysWritten storeOnly twoUrls 2
              false true ""%string "loader"%string) as (_ & _ & Hsched).
  apply Hsched.
  - reflexivity.
  - intros call. reflexivity.
  - reflexivity.
  - repeat constructor.
Defined.

(** * Further properties of the code *)

(** ** Strings *)

Lemma append_assoc (a b c : string) : ((a ++ b) ++ c = a ++ (b ++ c))%string.
Proof. induction a as [|ch a IH]; [reflexivity|]. cbn. now rewrite IH. Qed.

Lemma append_nil_r (a : string) : (a ++ "" = a)%string.
Proof. induction a as [|ch a IH]; [reflexivity|]. cbn. now rewrite IH. Qed.

Lemma flat_app l1 l2 : flat (l1 ++ l2) = (flat l1 ++ flat l2)%string.
Proof.
  induction l1 as [|b l1 IH]; [reflexivity|].
  cbn [app flat fold_right]. fold (flat (l1 ++ l2)) (flat l1).
  now rewrite IH, append_assoc.
Qed.

Lemma flat_one b : flat [b] = b.
Proof. cbn. apply append_nil_r. Qed.

Lemma asWritten_app l1 l2 :
  asWritten (l1 ++ l2) = (asWritten l1 ++ asWritten l2)%string.
Proof.
  induction l1 as [|l l1 IH]; [reflexivity|].
  cbn [app asWritten fold_right].
  fold (asWritten (l1 ++ l2)) (asWritten l1).
  now rewrite IH, !append_assoc.
Qed.

(** ** The scanner: what is sent *)

Section ScannerContent.

Variable CheckTotalValues : string -> Z * Z * option string.
Variable itemLimit : Z.
Variable itemsPerBatch : Z.

#[local] Abbreviation scanLine :=
  (scanLine CheckTotalValues itemLimit itemsPerBatch).
#[local] Abbreviation scanLoop :=
  (scanLoop CheckTotalValues itemLimit itemsPerBatch).
#[local] Abbreviation scan := (scan CheckTotalValues itemLimit itemsPerBatch).
#[local] Abbreviation isTotalsRecord := (isTotalsRecord CheckTotalValues).
#[local] Abbreviation dataLines := (dataLines CheckTotalValues).

(** The three ways through the loop body, as in the section above. *)
Ltac body_cases H :=
  unfold scanLine in H;
  let tp := fresh "tp" in let tv := fresh "tv" in
  let err := fresh "err" in let Hc := fresh "Hcheck" in
  let Ht := fresh "Htotals" in
  destruct (CheckTotalValues _) as [[tp tv] err] eqn:Hc;
  destruct ((0 <? tp) || (0 <? tv)) eqn:Ht;
  [ | destruct err as [?msg|] ];
  cbv zeta in H;
  try rewrite rem2_is_even, wrap64_even, even_succ_flip in H.

(** The bytes a pass through the loop body adds to what is sent or
    buffered. *)
Lemma scanLine_content s line s' ex :
  scanLine s line = (s', ex) ->
  (flat (sent s') ++ buf s')%string =
    ((flat (sent s) ++ buf s) ++
       match ex with
       | LineFatal _ => ""
       | _ => if isTotalsRecord line then "" else line ++ newline
       end)%string.
Proof.
  intros H.
  body_cases H;
    rewrite (isTotalsRecord_check CheckTotalValues line _ _ _ Hcheck),
      Htotals.
  - inversion H; subst; clear H. fields. now rewrite append_nil_r.
  - inversion H; subst; clear H. fields. now rewrite append_nil_r.
  - destruct (Z.even (linesRead s)); cbn [negb] in H; cbv iota in H;
      match type of H with
      | context [ ?a && ?b ] => destruct (a && b)
      end;
      rewrite ?orb_true_r, ?orb_false_r in H;
      try match type of H with
          | context [ ?a =? ?b ] => destruct (a =? b)
          end;
      inversion H; subst; clear H; fields;
      rewrite ?flat_app, ?flat_one, ?append_nil_r, ?append_assoc;
      reflexivity.
Qed.

Lemma scanLoop_content lines : forall s s',
  scanLoop lines s = (s', InputExhausted) ->
  (flat (sent s') ++ buf s')%string =
    ((flat (sent s) ++ buf s) ++ asWritten (dataLines lines))%string.
Proof.
  induction lines as [|line rest IH]; intros s s' H.
  - inversion H; subst. cbn. now rewrite append_nil_r.
  - rewrite scanLoop_cons in H.
    destruct (scanLine s line) as [s1 ex1] eqn:Hstep.
    destruct ex1; try discriminate.
    rewrite (IH s1 s' H), (scanLine_content _ _ _ _ Hstep).
    rewrite dataLines_cons. destruct (isTotalsRecord line).
    + now rewrite append_nil_r.
    + cbn [asWritten fold_right]. fold (asWritten (dataLines rest)).
      now rewrite !append_assoc.
Qed.

Lemma scanLine_pending s line s' :
  scanLine s line = (s', NextLine) ->
  pendingInv s ->
  linesRead s + 1 <= maxInt64 ->
  pendingInv s' /\
  linesRead s' = linesRead s + (if isTotalsRecord line then 0 else 1).
Proof.
  unfold pendingInv. intros H [Hitb Hbuf] Hmax.
  assert (Hl : wrap64 (linesRead s + 1) = linesRead s + 1)
    by (apply wrap64_in_range; unfold maxInt64 in *; lia).
  assert (Hi : wrap64 (itemsThisBatch s + 1) = itemsThisBatch s + 1)
    by (apply wrap64_in_range; unfold maxInt64 in *; lia).
  body_cases H;
    rewrite (isTotalsRecord_check CheckTotalValues line _ _ _ Hcheck),
      Htotals.
  - inversion H; subst; clear H. fields. split; [now split|lia].
  - discriminate.
  - rewrite Hl, Hi in H.
    destruct (Z.even (linesRead s)) eqn:Hev; cbn [negb] in H; cbv iota in H;
      match type of H with
      | context [ ?a && ?b ] => destruct (a && b)
      end;
      rewrite ?orb_true_r, ?orb_false_r in H; try discriminate;
      match type of H with
      | context [ ?a =? ?b ] => destruct (a =? b)
      end;
      inversion H; subst; clear H; fields;
      rewrite ?even_succ_flip, ?Hev; cbn [negb];
      (split; [split; [lia|auto]|reflexivity]).
    right. left. lia.
Qed.

Lemma scanLoop_pending lines : forall s s',
  scanLoop lines s = (s', InputExhausted) ->
  pendingInv s ->
  linesRead s + Z.of_nat (List.length (dataLines lines)) <= maxInt64 ->
  pendingInv s'.
Proof.
  induction lines as [|line rest IH]; intros s s' H Hinv Hmax.
  - now inversion H; subst.
  - rewrite scanLoop_cons in H.
    destruct (scanLine s line) as [s1 ex1] eqn:Hstep.
    destruct ex1; try discriminate.
    rewrite dataLines_cons in Hmax.
    destruct (isTotalsRecord line) eqn:Ht.
    + destruct (scanLine_skipped _ _ _ _ _ _ _ Hstep Ht)
        as (_ & Hb & _ & Hl & _ & _ & Hn).
      apply (IH s1 s' H); [|now rewrite Hl].
      unfold pendingInv in *. now rewrite Hb, Hl, Hn.
    + cbn [List.length] in Hmax. rewrite Nat2Z.inj_succ in Hmax.
      destruct (scanLine_pending _ _ _ Hstep Hinv) as [Hinv1 Hl]; [lia|].
      rewrite Ht in Hl. apply (IH s1 s' H Hinv1). lia.
Qed.

Lemma returned_exhausts_input input s ex items bytes values :
  scanLoop (stdinLines input) initScan = (s, ex) ->
  snd (scan input) = Returned items bytes values ->
  ex = InputExhausted /\ Z.even (linesRead s) = true /\
  itemsRead s = totalPoints s.
Proof.
  intros Hloop Hret. destruct ex.
  - split; [reflexivity|]. unfold scan in Hret. rewrite Hloop in Hret.
    destruct (scannerErr input); [discriminate|]. cbn [snd] in Hret.
    unfold finalChecks in Hret. rewrite rem2_is_even in Hret.
    destruct (Z.even (linesRead s)); [|discriminate].
    destruct (itemsRead s =? totalPoints s) eqn:E; [|discriminate].
    apply Z.eqb_eq in E. now split.
  - destruct (limit_break_scan_result CheckTotalValues itemsPerBatch
                itemLimit input s Hloop) as [e He].
    congruence.
  - unfold scan in Hret. rewrite Hloop in Hret. discriminate.
Qed.

Lemma exhausted_content lines s :
  Z.of_nat (List.length (dataLines lines)) <= maxInt64 ->
  scanLoop lines initScan = (s, InputExhausted) ->
  Z.even (linesRead s) = true ->
  flat (flushLast s) = asWritten (dataLines lines).
Proof.
  intros Hmax Hloop Hev.
  pose proof (scanLoop_content _ _ _ Hloop) as Hcontent.
  cbn in Hcontent. rewrite <- Hcontent.
  assert (Hpend : pendingInv s).
  { apply (scanLoop_pending _ _ _ Hloop).
    - unfold pendingInv, initScan. fields. split; [lia|now left].
    - unfold initScan. fields. lia. }
  destruct Hpend as [Hitb [Hbuf|[Hpos|Hodd]]]; unfold flushLast.
  - destruct (0 <? itemsThisBatch s).
    + now rewrite flat_app, flat_one.
    + now rewrite Hbuf, append_nil_r.
  - apply Z.ltb_lt in Hpos. rewrite Hpos. now rewrite flat_app, flat_one.
  - congruence.
Qed.

(** X1. When [scan] returns, the batches it has put on [batchChan], one
    after the other, are exactly the lines it counted, each followed by a
    line terminator, in the order of the input: no line is lost, doubled
    or moved, whatever the batch size. *)
Theorem returned_batches_are_the_lines input items bytes values :
  Z.of_nat (List.length (dataLines (stdinLines input))) <= maxInt64 ->
  snd (scan input) = Returned items bytes values ->
  flat (batchesOf (fst (scan input))) = asWritten (dataLines (stdinLines input)).
Proof.
  intros Hmax Hret.
  destruct (scanLoop (stdinLines input) initScan) as [s ex] eqn:Hloop.
  destruct (returned_exhausts_input _ _ _ _ _ _ Hloop Hret)
    as (-> & Hev & _).
  destruct (scan_returned _ _ _ _ _ _ _ _ _ Hloop Hret) as (Htrace & _).
  rewrite Htrace, batchesOf_app, batchesOf_sends. cbn [batchesOf].
  rewrite app_nil_r.
  now apply exhausted_content.
Qed.

Lemma scanLine_sets_totals s line s' ex :
  scanLine s line = (s', ex) ->
  exists tp tv err,
    CheckTotalValues line = (tp, tv, err) /\
    totalPoints s' = tp /\ totalValues s' = tv.
Proof.
  intros H. body_cases H.
  - inversion H; subst. now exists tp, tv, err.
  - inversion H; subst. now exists tp, tv, (Some msg).
  - exists tp, tv, None. split; [reflexivity|].
    match type of H with
    | context [ if ?c then mkScanState _ _ _ _ _ _ _ _ else _ ] =>
        destruct c
    end; inversion H; subst; now split.
Qed.

Lemma scanLoop_last_totals lines : forall s s',
  scanLoop lines s = (s', InputExhausted) ->
  lines <> [] ->
  exists pre last tp tv err,
    lines = pre ++ [last] /\
    CheckTotalValues last = (tp, tv, err) /\
    totalPoints s' = tp /\ totalValues s' = tv.
Proof.
  induction lines as [|line rest IH]; intros s s' H Hne; [contradiction|].
  rewrite scanLoop_cons in H.
  destruct (scanLine s line) as [s1 ex1] eqn:Hstep.
  destruct ex1; try discriminate.
  destruct rest as [|line2 rest].
  - inversion H; subst s1.
    destruct (scanLine_sets_totals _ _ _ _ Hstep) as (tp & tv & err & Hc).
    now exists [], line, tp, tv, err.
  - destruct (IH s1 s' H) as (pre & last & tp & tv & err & E & Hc);
      [discriminate|].
    exists (line :: pre), last, tp, tv, err. split; [|exact Hc].
    cbn [app]. now rewrite <- E.
Qed.

(** X2. [scan] keeps the totals of the last line it has scanned only.  So
    when it returns on an input with at least one counted line, the last
    line of the input is a totals record, and the items and values it
    returns are the points and values this record announces. *)
Theorem scan_returns_what_the_last_line_announces
        input items bytes values :
  Z.of_nat (List.length (dataLines (stdinLines input))) <= maxInt64 ->
  dataLines (stdinLines input) <> [] ->
  snd (scan input) = Returned items bytes values ->
  exists pre last err,
    stdinLines input = pre ++ [last] /\
    CheckTotalValues last = (items, values, err) /\
    isTotalsRecord last = true.
Proof.
  intros Hmax Hdata Hret.
  destruct (scanLoop (stdinLines input) initScan) as [s ex] eqn:Hloop.
  destruct (returned_exhausts_input _ _ _ _ _ _ Hloop Hret)
    as (-> & Hev & Heq).
  destruct (scan_returned _ _ _ _ _ _ _ _ _ Hloop Hret)
    as (_ & -> & _ & ->).
  destruct (scanLoop_counts _ _ _ _ _ _ Hloop) as [Hl [_ Hi]].
  { unfold countInv, initScan. fields. split; [lia|reflexivity]. }
  { unfold initScan. fields. lia. }
  unfold initScan in Hl. fields. rewrite Z.add_0_l in Hl.
  assert (Hpos : 1 <= itemsRead s).
  { assert (1 <= linesRead s).
    { rewrite Hl. destruct (dataLines (stdinLines input));
        [contradiction|]. cbn [List.length]. lia. }
    apply Z.even_spec in Hev. destruct Hev as [k Hk].
    rewrite Hi, Hk, Z.mul_comm, Z.div_mul by lia. lia. }
  destruct (scanLoop_last_totals _ _ _ Hloop)
    as (pre & last & tp & tv & err & E & Hc & Htp & Htv).
  { intros Hnil. rewrite Hnil in Hdata. now apply Hdata. }
  exists pre, last, err. split; [exact E|].
  rewrite Heq, Htp, Htv. split; [exact Hc|].
  rewrite (isTotalsRecord_check CheckTotalValues last _ _ _ Hc).
  assert (Hlt : 0 < tp) by lia. apply Z.ltb_lt in Hlt. now rewrite Hlt.
Qed.

(** *** Where the limit break falls *)

Lemma scanLine_break_sends s line s' :
  scanLine s line = (s', LimitBreak) ->
  buf s' = ""%string /\ itemsThisBatch s' = 0.
Proof.
  intros H. body_cases H; try discriminate.
  match type of H with
  | context [ if ?c then LimitBreak else NextLine ] =>
      destruct c; [|match type of H with
                    | context [ if ?d then mkScanState _ _ _ _ _ _ _ _
                                else _ ] => destruct d
                    end; discriminate]
  end.
  rewrite orb_true_r in H. inversion H; subst. now split.
Qed.

Lemma scanLoop_limit_exact lines : forall s s',
  1 <= itemLimit <= maxInt64 ->
  0 <= itemsRead s < itemLimit ->
  scanLoop lines s = (s', HitLimit) ->
  exists pre post,
    lines = pre ++ post /\
    itemsRead s' = itemLimit /\
    buf s' = ""%string /\ itemsThisBatch s' = 0 /\
    flat (sent s') =
      ((flat (sent s) ++ buf s) ++ asWritten (dataLines pre))%string /\
    Z.of_nat (List.length (dataLines pre)) =
      2 * (itemLimit - itemsRead s)
      - (if Z.even (linesRead s) then 0 else 1).
Proof.
  induction lines as [|line rest IH]; intros s s' HL Hir H; [discriminate|].
  rewrite scanLoop_cons in H.
  destruct (scanLine s line) as [s1 ex1] eqn:Hstep.
  pose proof (scanLine_content _ _ _ _ Hstep) as Hcontent.
  destruct (isTotalsRecord line) eqn:Ht.
  - destruct (scanLine_skipped _ _ _ _ _ _ _ Hstep Ht)
      as (-> & Hb & Hs & Hl & Hi & _).
    destruct (IH s1 s' HL) as (pre & post & E & Hlim & Hbuf & Hitb & Hf & Hn);
      [now rewrite Hi|assumption|].
    exists (line :: pre), post. rewrite dataLines_cons, Ht.
    rewrite Hb, Hs, Hl, Hi in *.
    repeat split; try assumption. cbn [app]. now rewrite E.
  - pose proof (scanLine_counted _ _ _ _ _ _ _ Hstep Ht) as Hc.
    assert (Hw : wrap64 (itemsRead s + 1) = itemsRead s + 1)
      by (apply wrap64_in_range; unfold maxInt64 in *; lia).
    destruct ex1; [ | | discriminate ].
    + destruct Hc as (Hl & Hi & _ & Hlim).
      apply andb_false_iff in Hlim.
      assert (Hbelow : itemsRead s1 < itemLimit).
      { destruct Hlim as [Hlim|Hlim];
          [apply Z.leb_gt in Hlim|apply Z.leb_gt in Hlim]; lia. }
      assert (Hir1 : 0 <= itemsRead s1 < itemLimit).
      { split; [|assumption]. rewrite Hi.
        destruct (Z.even (linesRead s)); lia. }
      destruct (IH s1 s' HL Hir1 H)
        as (pre & post & E & Hlim' & Hbuf & Hitb & Hf & Hn).
      exists (line :: pre), post. rewrite dataLines_cons, Ht.
      repeat split; try assumption.
      * cbn [app]. now rewrite E.
      * rewrite Hf, Hcontent. cbn [asWritten fold_right].
        fold (asWritten (dataLines pre)). now rewrite !append_assoc.
      * cbn [List.length]. rewrite Nat2Z.inj_succ, Hn, Hl, Hi.
        rewrite wrap64_even, even_succ_flip.
        destruct (Z.even (linesRead s)); cbn [negb]; lia.
    + inversion H; subst s1. destruct Hc as (Hl & Hi & _ & Hlim).
      apply andb_true_iff in Hlim. destruct Hlim as [_ Hlim].
      apply Z.leb_le in Hlim.
      destruct (scanLine_break_sends _ _ _ Hstep) as [Hbuf Hitb].
      destruct (Z.even (linesRead s)) eqn:Hev; [lia|].
      exists [line], rest. rewrite dataLines_cons, Ht.
      repeat split; try assumption.
      * lia.
      * rewrite Hbuf, append_nil_r in Hcontent. rewrite Hcontent.
        unfold dataLines. cbn [filter asWritten fold_right].
        now rewrite append_nil_r.
      * unfold dataLines. cbn [filter List.length]. lia.
Qed.

(** X3. With an item limit of at least one, the loop is left by the limit
    break right after the item that reaches the limit: exactly [itemLimit]
    items are read then, nothing stays in the buffer, and the batches sent
    hold the first [2 * itemLimit] counted lines of the input and nothing
    else. *)
Theorem limit_break_after_exactly_itemLimit_items input s :
  1 <= itemLimit <= maxInt64 ->
  scanLoop (stdinLines input) initScan = (s, HitLimit) ->
  itemsRead s = itemLimit /\
  buf s = ""%string /\
  flat (batchesOf (fst (scan input))) =
    asWritten (firstn (2 * Z.to_nat itemLimit)
                      (dataLines (stdinLines input))).
Proof.
  intros HL Hloop.
  assert (Hzero : 0 <= itemsRead initScan < itemLimit)
    by (unfold initScan; fields; lia).
  destruct (scanLoop_limit_exact _ _ _ HL Hzero Hloop)
    as (pre & post & E & Hlim & Hbuf & Hitb & Hf & Hn).
  split; [assumption|]. split; [assumption|].
  assert (Hb : batchesOf (fst (scan input)) = sent s).
  { destruct (scan_batches _ _ _ _ _ _ Hloop) as [Hb|Hb];
      rewrite Hb; [reflexivity|].
    unfold flushLast. now rewrite Hitb. }
  rewrite Hb, Hf. unfold initScan in *. fields. cbn [flat fold_right append].
  unfold dataLines at 2. rewrite E, filter_app. fold (dataLines pre).
  assert (Hlen : List.length (dataLines pre) = (2 * Z.to_nat itemLimit)%nat)
    by (cbn [Z.even] in Hn; lia).
  rewrite firstn_app, <- Hlen, firstn_all, Nat.sub_diag, firstn_O.
  now rewrite app_nil_r.
Qed.

(** X4. With an item limit of zero the scanner does not stop before its
    first line: the first counted line is read, sent as a batch of its
    own, and the run ends in the fatal exit of the bulk format check. *)
Theorem limit_zero_reads_one_line input skipped line rest :
  itemLimit = 0 ->
  stdinLines input = skipped ++ line :: rest ->
  Forall (fun l => isTotalsRecord l = true) skipped ->
  isTotalsRecord line = false ->
  snd (CheckTotalValues line) = None ->
  scannerErr input = None ->
  scan input =
    ([Send (line ++ newline); Done; Exit1 BadBulkFormat],
     Fatal BadBulkFormat).
Proof.
  intros Hzero Hlines Hskipped Hdata Hnil Herr.
  assert (Hloop : forall tp tv,
    exists tp' tv' bytes,
      scanLoop (skipped ++ line :: rest)
               (mkScanState "" 0 0 0 tp tv 0 []) =
        (mkScanState "" 1 0 bytes tp' tv' 0 [(line ++ newline)%string],
         HitLimit)).
  { clear Hlines.
    induction Hskipped as [|l skipped Hl _ IH]; intros tp tv.
    - cbn [app]. rewrite scanLoop_cons. unfold scanLine.
      unfold isTotalsRecord in Hdata.
      destruct (CheckTotalValues line) as [[tp1 tv1] err].
      cbn [snd] in Hnil. subst err. rewrite Hdata, Hzero.
      cbv zeta. fields.
      change (wrap64 (0 + 1)) with 1.
      change (Z.rem 1 2 =? 0) with false. cbv iota.
      change ((0 <=? 0) && (0 <=? 0)) with true.
      rewrite orb_true_r. now eexists _, _, _.
    - cbn [app]. rewrite scanLoop_cons.
      destruct (scanLine_totals CheckTotalValues itemLimit itemsPerBatch
                  (mkScanState "" 0 0 0 tp tv 0 []) l Hl)
        as (tp1 & tv1 & E).
      rewrite E. fields. apply IH. }
  destruct (Hloop 0 0) as (tp' & tv' & bytes & E).
  unfold scan. rewrite Hlines. unfold initScan. rewrite E, Herr.
  reflexivity.
Qed.

(** *** Batches without a limit *)

(** X5. Without an item limit and with a batch size [B] of at least one,
    every batch sent from inside the loop holds exactly [B] items; when
    the input is read to its end there are [itemsRead / B] of them, and
    the batch left for the final send holds the other [itemsRead mod B]
    items. *)
Theorem batches_are_full_without_a_limit input s :
  itemLimit < 0 ->
  1 <= itemsPerBatch <= maxInt64 ->
  Forall isLine (stdinLines input) ->
  Z.of_nat (List.length (dataLines (stdinLines input))) <= maxInt64 ->
  scanLoop (stdinLines input) initScan = (s, InputExhausted) ->
  Forall (fun b => itemsIn b = itemsPerBatch) (sent s) /\
  Z.of_nat (List.length (sent s)) = itemsRead s / itemsPerBatch /\
  itemsIn (buf s) = itemsRead s mod itemsPerBatch.
Proof.
  intros Hlim HB Hlines Hmax Hloop.
  destruct (scanLoop_full CheckTotalValues itemLimit itemsPerBatch
              (stdinLines input) initScan s HB Hlines)
    as (Hbatch & Hfull & Hsplit); try exact Hloop.
  - apply initScan_batchInv. lia.
  - unfold countInv, initScan. fields. split; [lia|reflexivity].
  - unfold initScan. fields. lia.
  - constructor.
  - unfold initScan. fields. cbn. lia.
  - rewrite (batchInv_itemsIn _ _ Hbatch). destruct Hbatch as [Hitb _].
    split; [|split].
    + unfold fullBatches in Hfull. eapply Forall_impl; [|exact Hfull].
      intros b Hb. cbv beta in *. unfold itemsIn.
      rewrite Hb, Z.mul_comm. apply Z.div_mul. lia.
    + apply (Z.div_unique _ _ _ (itemsThisBatch s)); [left; lia|lia].
    + apply (Z.mod_unique _ _ (Z.of_nat (List.length (sent s))));
        [left; lia|lia].
Qed.

End ScannerContent.

(** ** The pool: what is written *)

Section PoolCoverage.

Variable CheckTotalValues : string -> Z * Z * option string.
Variable WriteLineProtocol : WriteCall -> option string.
Variable WriteGzip : string -> string.
Variable daemonUrls : list string.
Variable workers : Z.
Variable batchSize : Z.
Variable itemLimit : Z.
Variable useGzip : bool.
Variable doLoad : bool.
Variable telemetryHost : string.
Variable telemetryHostname : string.

#[local] Abbreviation scan := (scan CheckTotalValues itemLimit batchSize).
#[local] Abbreviation drain :=
  (drain WriteLineProtocol WriteGzip useGzip doLoad telemetryHost
         telemetryHostname).
#[local] Abbreviation main :=
  (main CheckTotalValues WriteLineProtocol WriteGzip daemonUrls workers
        batchSize itemLimit useGzip doLoad telemetryHost telemetryHostname).
#[local] Abbreviation processBatch :=
  (processBatch doLoad useGzip telemetryHostname WriteLineProtocol WriteGzip).
#[local] Abbreviation pool0 :=
  (mkPool (startWorkers workers daemonUrls) [] [] []).
#[local] Abbreviation drain_step :=
  (drain_cons WriteLineProtocol WriteGzip useGzip doLoad telemetryHost
              telemetryHostname).

(** *** One pass through the loop body, case by case *)

Lemma processBatch_dry telemetryOn w pool batch :
  doLoad = false ->
  processBatch telemetryOn w pool batch =
    mkIteration (mkWorker (c w) (telemetryWorkerLabel w)
                          (wrap64 (batchesSeen w + 1)))
                pool [] None None.
Proof. unfold processBatch. now intros ->. Qed.

Lemma processBatch_failed telemetryOn w pool batch e :
  crashed (processBatch telemetryOn w pool batch) = Some e ->
  exists call msg,
    writes (processBatch telemetryOn w pool batch) = [call] /\
    WriteLineProtocol call = Some msg /\ e = WriteError msg.
Proof.
  unfold processBatch. destruct doLoad; cbn [negb]; [|discriminate].
  destruct useGzip.
  - destruct (poolGet pool) as [scratch pool1].
    match goal with
    | |- context [ WriteLineProtocol ?c ] =>
        destruct (WriteLineProtocol c) as [msg|] eqn:Hw
    end; cbn [crashed writes]; intros H; inversion H.
    eexists _, msg. now repeat split.
  - match goal with
    | |- context [ WriteLineProtocol ?c ] =>
        destruct (WriteLineProtocol c) as [msg|] eqn:Hw
    end; cbn [crashed writes]; intros H; inversion H.
    eexists _, msg. now repeat split.
Qed.

Lemma processBatch_passed telemetryOn w pool batch :
  crashed (processBatch telemetryOn w pool batch) = None ->
  Forall (fun call => WriteLineProtocol call = None)
         (writes (processBatch telemetryOn w pool batch)).
Proof.
  unfold processBatch. destruct doLoad; cbn [negb]; [|constructor].
  destruct useGzip.
  - destruct (poolGet pool) as [scratch pool1].
    match goal with
    | |- context [ WriteLineProtocol ?c ] =>
        destruct (WriteLineProtocol c) as [msg|] eqn:Hw
    end; cbn [crashed writes]; intros H; [discriminate|].
    now repeat constructor.
  - match goal with
    | |- context [ WriteLineProtocol ?c ] =>
        destruct (WriteLineProtocol c) as [msg|] eqn:Hw
    end; cbn [crashed writes]; intros H; [discriminate|].
    now repeat constructor.
Qed.

Lemma drain_dry sched : forall batches st,
  doLoad = false ->
  poolWrites (fst (drain sched batches st)) = poolWrites st /\
  poolPoints (fst (drain sched batches st)) = poolPoints st /\
  sharedPool (fst (drain sched batches st)) = sharedPool st /\
  snd (drain sched batches st) = None.
Proof.
  induction sched as [|i sched IH]; intros batches st Hdry.
  - destruct batches; now repeat split.
  - destruct batches as [|batch batches]; [now repeat split|].
    rewrite drain_step.
    destruct (nth_error (poolWorkers st) i) as [w|]; [|now repeat split].
    cbv zeta. rewrite (processBatch_dry _ _ _ _ Hdry).
    cbn [crashed workerAfter poolAfter writes toTelemetry map].
    match goal with
    | |- context [ drain sched batches ?st1 ] =>
        destruct (IH batches st1 Hdry) as (E1 & E2 & E3 & E4)
    end.
    rewrite E1, E2, E3, E4. cbn [poolWrites poolPoints sharedPool].
    now rewrite !app_nil_r.
Qed.

Lemma main_dry sched input :
  doLoad = false ->
  0 <= workers ->
  (workers = 0 -> batchesOf (fst (scan input)) = []) ->
  runWrites (main sched input) = [] /\
  runStats (main sched input) =
    match snd (scan input) with
    | Returned items bytes values => Some (mkStats items bytes values)
    | Fatal _ => None
    end.
Proof.
  intros Hdry Hnn Hzero.
  rewrite (main_scheduled CheckTotalValues WriteLineProtocol WriteGzip
             daemonUrls workers batchSize itemLimit useGzip doLoad
             telemetryHost telemetryHostname sched input Hnn Hzero).
  destruct (scan input) as [events r].
  destruct (drain_dry sched (batchesOf events) pool0 Hdry)
    as (E1 & _ & _ & E4).
  destruct (drain sched (batchesOf events) pool0) as [pool1 crash].
  cbn [fst snd poolWrites] in *. subst crash.
  destruct r; cbn [runWrites runStats]; now split.
Qed.

Lemma main_without_workers sched input :
  workers < 0 \/ workers = 0 /\ batchesOf (fst (scan input)) <> [] ->
  runWrites (main sched input) = [] /\ runStats (main sched input) = None.
Proof.
  intros Hw. unfold main.
  destruct (Z.ltb_spec workers 0) as [Hneg|Hnn]; [now split|].
  destruct Hw as [Hneg|[Hz Hsome]]; [lia|].
  destruct (scan input) as [events r]. cbn [fst] in Hsome.
  subst workers. cbn [Z.eqb].
  destruct (batchesOf events); [contradiction|now split].
Qed.

(** *** Accepted writes *)

Lemma poolGet_empty pool :
  allEmpty pool -> fst (poolGet pool) = ""%string /\ allEmpty (snd (poolGet pool)).
Proof.
  unfold allEmpty. intros H. destruct pool as [|b pool]; cbn.
  - now split.
  - inversion H; subst. now split.
Qed.

Lemma processBatch_accepted telemetryOn w pool batch :
  doLoad = true ->
  (forall call, WriteLineProtocol call = None) ->
  allEmpty pool ->
  let it := processBatch telemetryOn w pool batch in
  writes it = [writeOf useGzip WriteGzip (Host (c w)) batch] /\
  crashed it = None /\
  allEmpty (poolAfter it) /\
  c (workerAfter it) = c w /\
  telemetryWorkerLabel (workerAfter it) = telemetryWorkerLabel w /\
  toTelemetry it =
    if telemetryOn then
      Some (mkPoint "benchmark_write" telemetryHostname (Host (c w))
                    (telemetryWorkerLabel w) (wrap64 (batchesSeen w + 1))
                    useGzip
                    (Len (body (writeOf useGzip WriteGzip (Host (c w))
                                        batch))))
    else None.
Proof.
  intros Hload Hok Hpool. cbv zeta. unfold processBatch, writeOf.
  rewrite Hload. cbn [negb].
  destruct (poolGet_empty pool Hpool) as [Hscratch Hrest].
  destruct useGzip.
  - destruct (poolGet pool) as [scratch pool1]. cbn [fst snd] in *.
    subst scratch. cbn [append]. rewrite Hok.
    cbn [writes crashed poolAfter workerAfter toTelemetry c
         telemetryWorkerLabel batchesSeen body].
    repeat split. unfold allEmpty, poolPut, Reset.
    now repeat constructor.
  - rewrite Hok.
    cbn [writes crashed poolAfter workerAfter toTelemetry c
         telemetryWorkerLabel batchesSeen body].
    repeat split. unfold allEmpty, poolPut, Reset.
    now constructor.
Qed.

Lemma labelled_replace ws i w w' :
  labelled ws ->
  nth_error ws i = Some w ->
  telemetryWorkerLabel w' = telemetryWorkerLabel w ->
  labelled (replaceNth i w' ws).
Proof.
  intros Hb Hw Hc j wj Hj. rewrite replaceNth_nth in Hj.
  destruct (Nat.eqb i j && (i <? List.length ws)%nat)%bool eqn:E.
  - apply andb_true_iff in E. destruct E as [E _].
    apply Nat.eqb_eq in E. subst j. inversion Hj; subst wj.
    rewrite Hc. now apply Hb.
  - now apply Hb.
Qed.

Lemma startWorkers_labelled : labelled (startWorkers workers daemonUrls).
Proof.
  intros i w Hw.
  assert (Hi : (i < Z.to_nat workers)%nat).
  { rewrite <- (startWorkers_length workers daemonUrls).
    apply nth_error_Some. congruence. }
  rewrite (startWorkers_nth _ _ _ Hi) in Hw. now inversion Hw.
Qed.

Lemma drain_accepted sched : forall batches st,
  doLoad = true ->
  (forall call, WriteLineProtocol call = None) ->
  List.length sched = List.length batches ->
  Forall (fun i => (i < List.length (poolWorkers st))%nat) sched ->
  allEmpty (sharedPool st) ->
  boundToUrls daemonUrls (poolWorkers st) ->
  labelled (poolWorkers st) ->
  let M := List.length daemonUrls in
  let st' := fst (drain sched batches st) in
  poolWrites st' =
    poolWrites st ++
      map (fun ib => (fst ib,
                      writeOf useGzip WriteGzip
                              (nth (fst ib mod M) daemonUrls ""%string)
                              (snd ib)))
          (combine sched batches) /\
  snd (drain sched batches st) = None /\
  allEmpty (sharedPool st') /\
  (telemetryOn telemetryHost = true ->
   map (fun p => (worker_id p, dst_addr p, gzip p, body_bytes p))
       (poolPoints st') =
     map (fun p => (worker_id p, dst_addr p, gzip p, body_bytes p))
         (poolPoints st) ++
     map (fun ib =>
            (decimal (fst ib), nth (fst ib mod M) daemonUrls ""%string,
             useGzip,
             Len (if useGzip then WriteGzip (snd ib) else snd ib)))
         (combine sched batches)) /\
  (telemetryOn telemetryHost = false -> poolPoints st' = poolPoints st).
Proof.
  induction sched as [|i sched IH];
    intros batches st Hload Hok Hlen Hall Hpool Hbound Hlabel M st'.
  - destruct batches; [|discriminate]. subst st'. cbn.
    rewrite !app_nil_r. now repeat split.
  - destruct batches as [|batch batches]; [discriminate|].
    subst st'. rewrite drain_step. apply Forall_cons_iff in Hall.
    destruct Hall as [Hi Hrest].
    destruct (nth_error (poolWorkers st) i) as [w|] eqn:Hw;
      [|apply nth_error_None in Hw; lia].
    cbv zeta.
    destruct (processBatch_accepted (telemetryOn telemetryHost) w
                (sharedPool st) batch Hload Hok Hpool)
      as (Hwr & Hc & Hp & Hcfg & Hlab & Htel).
    rewrite Hc, Hwr, Htel. cbn [map].
    rewrite (Hbound i w Hw), (Hlabel i w Hw). fold M.
    destruct (telemetryOn telemetryHost) eqn:Hon; cbv iota;
      match goal with
      | |- context [ drain sched batches ?st1 ] =>
          destruct (IH batches st1 Hload Hok) as (E1 & E2 & E3 & E4 & E5);
            [ simpl in Hlen; lia
            | cbn [poolWorkers]; rewrite replaceNth_length; exact Hrest
            | exact Hp
            | cbn [poolWorkers]; now apply (boundToUrls_replace _ _ _ w)
            | cbn [poolWorkers]; now apply (labelled_replace _ _ w)
            | ]
      end;
      fold M in E1, E4; cbn [poolWrites poolPoints] in E1, E4, E5;
      rewrite E1, E2; cbn [combine map fst snd];
      rewrite <- !app_assoc; cbn [app];
      (split; [reflexivity|]); (split; [reflexivity|]);
      (split; [exact E3|]); split; intros Hon'; try discriminate.
    + rewrite (E4 eq_refl), map_app, <- app_assoc. reflexivity.
    + rewrite (E5 eq_refl). now rewrite app_nil_r.
Qed.

(** *** The buffer pool *)

Lemma drain_pool_empty sched : forall batches st,
  allEmpty (sharedPool st) ->
  allEmpty (sharedPool (fst (drain sched batches st))).
Proof.
  induction sched as [|i sched IH]; intros batches st Hpool.
  - now destruct batches.
  - destruct batches as [|batch batches]; [assumption|].
    rewrite drain_step.
    destruct (nth_error (poolWorkers st) i) as [w|]; [|assumption].
    cbv zeta.
    pose proof (processBatch_pools_empty_buffers doLoad useGzip
                  telemetryHostname WriteLineProtocol WriteGzip
                  (telemetryOn telemetryHost) w (sharedPool st) batch Hpool)
      as Hp.
    destruct (crashed _); [exact Hp|].
    now apply IH.
Qed.

(** X10. Whatever the workers dequeue and whatever the sinks answer, the
    buffer pool only ever holds empty buffers, so that a buffer taken
    from the pool has length zero regardless of what it held before. *)
Theorem pooled_buffers_are_empty sched batches :
  allEmpty (sharedPool (fst (drain sched batches pool0))) /\
  Len (fst (poolGet (sharedPool (fst (drain sched batches pool0))))) = 0.
Proof.
  assert (H : allEmpty (sharedPool (fst (drain sched batches pool0))))
    by (apply drain_pool_empty; constructor).
  split; [exact H|].
  destruct (poolGet_empty _ H) as [-> _]. reflexivity.
Qed.

(** *** Endpoints that are used *)

Lemma drain_writers sched : forall batches st i call,
  In (i, call) (poolWrites (fst (drain sched batches st))) ->
  In (i, call) (poolWrites st) \/ (i < List.length (poolWorkers st))%nat.
Proof.
  induction sched as [|j sched IH]; intros batches st i call Hin.
  - destruct batches; now left.
  - destruct batches as [|batch batches]; [now left|].
    rewrite drain_step in Hin.
    destruct (nth_error (poolWorkers st) j) as [w|] eqn:Hw; [|now left].
    cbv zeta in Hin.
    assert (Hj : (j < List.length (poolWorkers st))%nat)
      by (apply nth_error_Some; congruence).
    assert (Hnew : forall k d,
              In (k, d) (poolWrites st ++
                           map (pair j)
                               (writes (processBatch
                                  (telemetryOn telemetryHost) w
                                  (sharedPool st) batch))) ->
              In (k, d) (poolWrites st) \/
              (k < List.length (poolWorkers st))%nat).
    { intros k d Hk. apply in_app_or in Hk. destruct Hk as [Hk|Hk].
      - now left.
      - apply in_map_iff in Hk. destruct Hk as (d' & E & _).
        inversion E; subst. now right. }
    destruct (crashed _).
    + cbn [fst poolWrites] in Hin. now apply Hnew.
    + apply IH in Hin. cbn [poolWrites poolWorkers] in Hin.
      rewrite replaceNth_length in Hin.
      destruct Hin as [Hin|Hin]; [now apply Hnew|now right].
Qed.

Lemma nth_in_firstn {A : Type} (l : list A) : forall i n d,
  (i < n)%nat -> (i < List.length l)%nat -> In (nth i l d) (firstn n l).
Proof.
  induction l as [|x l IH]; intros i n d Hi Hl; [cbn in Hl; lia|].
  destruct n as [|n]; [lia|]. destruct i as [|i]; cbn.
  - now left.
  - right. apply IH; cbn in Hl; lia.
Qed.

(** X11. When there are at least as many workers as URLs, every URL has a
    worker bound to it (worker [j] for the URL of index [j]).  When there
    are fewer workers than URLs, only the first [workers] URLs are ever
    written to: the others have no worker. *)
Theorem endpoints_with_a_worker :
  (Z.of_nat (List.length daemonUrls) <= workers ->
   forall j, (j < List.length daemonUrls)%nat ->
     exists w, nth_error (startWorkers workers daemonUrls) j = Some w /\
               Host (c w) = nth j daemonUrls ""%string) /\
  (0 <= workers <= Z.of_nat (List.length daemonUrls) ->
   forall sched batches i call,
     In (i, call) (poolWrites (fst (drain sched batches pool0))) ->
     In (toHost call) (firstn (Z.to_nat workers) daemonUrls)).
Proof.
  split.
  - intros HN j Hj.
    assert (Hlt : (j < Z.to_nat workers)%nat) by lia.
    eexists. split; [apply (startWorkers_nth _ _ _ Hlt)|].
    cbn [c Host]. now rewrite Nat.mod_small.
  - intros HN sched batches i call Hin.
    destruct (drain_bound WriteLineProtocol WriteGzip daemonUrls useGzip
                doLoad telemetryHost telemetryHostname sched batches pool0)
      as [_ Hhost].
    { apply startWorkers_bound. }
    { intros k d []. }
    rewrite (Hhost i call Hin).
    apply drain_writers in Hin. cbn [poolWrites poolWorkers] in Hin.
    rewrite startWorkers_length in Hin.
    destruct Hin as [[]|Hi].
    rewrite Nat.mod_small by lia.
    apply nth_in_firstn; lia.
Qed.

(** *** One worker, from its first dequeue to its end *)

#[local] Abbreviation workerStep :=
  (workerStep doLoad useGzip telemetryHostname WriteLineProtocol WriteGzip).
#[local] Abbreviation runWorker :=
  (runWorker doLoad useGzip telemetryHostname WriteLineProtocol WriteGzip).

Lemma runWorker_S fuel m :
  runWorker (S fuel) m =
    match workerStep m with
    | Some m' => runWorker fuel m'
    | None => m
    end.
Proof. reflexivity. Qed.

Lemma workerStep_dequeue m batch rest :
  pc m = AtDequeue ->
  batchChan m = batch :: rest ->
  telemetrySink m = None ->
  (forall call, WriteLineProtocol call = None) ->
  allEmpty (bufPool m) ->
  exists m',
    workerStep m = Some m' /\
    pc m' = AtDequeue /\ batchChan m' = rest /\
    telemetrySink m' = None /\
    batchChanClosed m' = batchChanClosed m /\
    allEmpty (bufPool m') /\
    c (self m') = c (self m) /\
    written m' =
      written m ++
        (if doLoad then [writeOf useGzip WriteGzip (Host (c (self m))) batch]
         else []).
Proof.
  intros Hpc Hchan Hsink Hok Hpool.
  unfold workerStep. rewrite Hpc, Hchan, Hsink. cbn [isSome]. cbv zeta.
  destruct (bool_dec doLoad true) as [Hload|Hload].
  - destruct (processBatch_accepted false (self m) (bufPool m) batch
                Hload Hok Hpool) as (Hw & Hc & Hp & Hcfg & _ & Htel).
    rewrite Hc, Htel, Hw. eexists. split; [reflexivity|].
    cbn [pc batchChan telemetrySink batchChanClosed bufPool self written].
    repeat split; try assumption. now rewrite Hload.
  - apply not_true_is_false in Hload.
    rewrite (processBatch_dry false (self m) (bufPool m) batch Hload).
    cbn [crashed toTelemetry workerAfter poolAfter writes].
    eexists. split; [reflexivity|].
    cbn [pc batchChan telemetrySink batchChanClosed bufPool self written c].
    repeat split; try assumption. now rewrite Hload.
Qed.

Lemma runWorker_O m : runWorker 0 m = m.
Proof. reflexivity. Qed.

Lemma runWorker_drains batches : forall m,
  batchChan m = batches ->
  pc m = AtDequeue ->
  telemetrySink m = None ->
  batchChanClosed m = true ->
  (forall call, WriteLineProtocol call = None) ->
  allEmpty (bufPool m) ->
  pc (runWorker (S (List.length batches)) m) = WorkerDone /\
  batchChan (runWorker (S (List.length batches)) m) = [] /\
  written (runWorker (S (List.length batches)) m) =
    written m ++
      (if doLoad
       then map (writeOf useGzip WriteGzip (Host (c (self m)))) batches
       else []).
Proof.
  induction batches as [|batch rest IH];
    intros m Hchan Hpc Hsink Hclosed Hok Hpool.
  - cbn [List.length]. rewrite runWorker_S. unfold workerStep.
    rewrite Hpc, Hchan, Hclosed, runWorker_O.
    cbn [pc batchChan written].
    destruct doLoad; now rewrite app_nil_r.
  - cbn [List.length]. rewrite runWorker_S.
    destruct (workerStep_dequeue m batch rest Hpc Hchan Hsink Hok Hpool)
      as (m' & Hstep & Hpc' & Hchan' & Hsink' & Hclosed' & Hpool' & Hcfg
          & Hw).
    rewrite Hstep.
    destruct (IH m' Hchan' Hpc' Hsink') as (E1 & E2 & E3);
      [congruence|assumption|assumption|].
    split; [exact E1|]. split; [exact E2|].
    rewrite E3, Hw, Hcfg, <- app_assoc.
    destruct doLoad; reflexivity.
Qed.

(** X12. A worker without telemetry whose writes are accepted, started on
    a closed channel that holds [n] batches, writes (or, with the load
    off, discards) each of them in turn and signals that it is done at
    its step [n + 1].  No worker signals that it is done while a batch is
    left in the channel or the channel is still open. *)
Theorem worker_drains_the_channel_then_stops :
  (forall m,
     pc m = AtDequeue ->
     telemetrySink m = None ->
     batchChanClosed m = true ->
     (forall call, WriteLineProtocol call = None) ->
     allEmpty (bufPool m) ->
     pc (runWorker (S (List.length (batchChan m))) m) = WorkerDone /\
     batchChan (runWorker (S (List.length (batchChan m))) m) = [] /\
     written (runWorker (S (List.length (batchChan m))) m) =
       written m ++
         (if doLoad
          then map (writeOf useGzip WriteGzip (Host (c (self m))))
                   (batchChan m)
          else [])) /\
  (forall m m',
     workerStep m = Some m' -> pc m' = WorkerDone ->
     batchChan m = [] /\ batchChanClosed m = true).
Proof.
  split.
  - intros m Hpc Hsink Hclosed Hok Hpool.
    now apply runWorker_drains.
  - intros m m'. unfold workerStep.
    destruct (pc m); try discriminate.
    + destruct (batchChan m) as [|batch rest].
      * destruct (batchChanClosed m); [now split|discriminate].
      * cbv zeta. intros H Hdone. inversion H; subst m'.
        cbn [pc] in Hdone.
        destruct (crashed _); [discriminate|].
        destruct (toTelemetry _); discriminate.
    + destruct (telemetrySink m) as [ch|]; [|discriminate].
      destruct (canSend ch); [|discriminate].
      intros H Hdone. inversion H; subst m'. discriminate.
Qed.

End PoolCoverage.

(** ** The goroutines, in every interleaving *)

Lemma count_replace {A B : Type} (dec : forall x y : B, {x = y} + {x <> y})
      (f : A -> list B) (l : list A) : forall i g g' x,
  nth_error l i = Some g ->
  (count_occ dec (List.concat (map f (replaceNth i g' l))) x
   + count_occ dec (f g) x =
   count_occ dec (List.concat (map f l)) x + count_occ dec (f g') x)%nat.
Proof.
  induction l as [|y l IH]; intros i g g' x Hi.
  - destruct i; discriminate.
  - destruct i as [|i]; cbn [replaceNth map List.concat].
    + inversion Hi; subst. rewrite !count_occ_app. lia.
    + cbn [nth_error] in Hi. rewrite !count_occ_app.
      specialize (IH i g g' x Hi). lia.
Qed.

Lemma replaced_goroutines {P : nat -> Goroutine -> Prop}
      (l : list Goroutine) (i : nat) (g' : Goroutine) :
  (forall j g, nth_error l j = Some g -> P j g) ->
  P i g' ->
  forall j g, nth_error (replaceNth i g' l) j = Some g -> P j g.
Proof.
  intros Hall Hnew j g Hj. rewrite replaceNth_nth in Hj.
  destruct ((i =? j)%nat && (i <? List.length l)%nat) eqn:E.
  - apply andb_true_iff in E. destruct E as [E _].
    apply Nat.eqb_eq in E. subst j. now inversion Hj; subst.
  - now apply Hall.
Qed.

Lemma nth_error_replaced {A : Type} (l : list A) (i : nat) (g g' : A) :
  nth_error l i = Some g -> nth_error (replaceNth i g' l) i = Some g'.
Proof.
  intros Hi. rewrite replaceNth_nth, Nat.eqb_refl.
  assert (Hlt : (i < List.length l)%nat)
    by (apply nth_error_Some; congruence).
  apply Nat.ltb_lt in Hlt. now rewrite Hlt.
Qed.

Lemma nth_error_kept {A : Type} (l : list A) (i j : nat) (g' : A) :
  i <> j -> nth_error (replaceNth i g' l) j = nth_error l j.
Proof.
  intros Hne. rewrite replaceNth_nth.
  apply Nat.eqb_neq in Hne. now rewrite Hne.
Qed.

Section InterleavingFacts.

Variable CheckTotalValues : string -> Z * Z * option string.
Variable WriteLineProtocol : WriteCall -> option string.
Variable WriteGzip : string -> string.
Variable daemonUrls : list string.
Variable workers : Z.
Variable batchSize : Z.
Variable itemLimit : Z.
Variable useGzip : bool.
Variable doLoad : bool.
Variable telemetryHost : string.
Variable telemetryHostname : string.
Variable intake : nat.

#[local] Abbreviation workerMove :=
  (workerMove WriteLineProtocol WriteGzip useGzip doLoad telemetryHostname).
#[local] Abbreviation scannerMove := (scannerMove workers).
#[local] Abbreviation sysStep :=
  (sysStep WriteLineProtocol WriteGzip workers useGzip doLoad
           telemetryHostname).
#[local] Abbreviation runSys :=
  (runSys WriteLineProtocol WriteGzip workers useGzip doLoad
          telemetryHostname).
#[local] Abbreviation startSys :=
  (startSys CheckTotalValues daemonUrls workers batchSize itemLimit
            telemetryHost intake).
#[local] Abbreviation scan := (scan CheckTotalValues itemLimit batchSize).
#[local] Abbreviation payloadOf := (payloadOf WriteGzip useGzip).
#[local] Abbreviation goodGoroutine :=
  (goodGoroutine WriteLineProtocol WriteGzip daemonUrls useGzip doLoad).
#[local] Abbreviation shapeInv :=
  (shapeInv WriteLineProtocol WriteGzip daemonUrls useGzip doLoad
            telemetryHost workers).
#[local] Abbreviation batchesAccounted :=
  (batchesAccounted WriteGzip useGzip).
#[local] Abbreviation refusedPending := (refusedPending WriteLineProtocol).
#[local] Abbreviation exitExplained := (exitExplained WriteLineProtocol).
#[local] Abbreviation sysInv :=
  (sysInv WriteLineProtocol WriteGzip daemonUrls useGzip doLoad
          telemetryHost workers).

Ltac sys_fields :=
  cbn [script chanBuf chanClosed goroutines pooled telemetry requests
       exited goWorker goStage] in *.

(** The moves of a worker, stage by stage. *)
Ltac worker_cases H g :=
  unfold workerMove in H;
  let Hst := fresh "Hst" in
  destruct (goStage g) as [|batch|batch payload|batch call|batch call err
                           |call msg|batch call|p|] eqn:Hst;
  cbv zeta in H.

Ltac shape_split :=
  unfold shapeInv; sys_fields;
  split; [|split; [|split; [|split; [|split; [|split; [|split; [|split]]]]]]].

Lemma good_more_requests reqs extra i g :
  goodGoroutine reqs i g -> goodGoroutine (reqs ++ extra) i g.
Proof.
  unfold goodGoroutine. cbv zeta.
  intros (Hh & Hl & Hd & Hs).
  split; [exact Hh|]. split; [exact Hl|]. split; [exact Hd|].
  destruct (goStage g); try assumption;
    repeat match goal with
           | H : _ /\ _ |- _ => destruct H
           end;
    repeat split; try assumption; apply in_or_app; now left.
Qed.

Lemma transit_count (st : Sys) x :
  count_occ string_dec (map payloadOf (inTransit st)) x =
    (count_occ string_dec (map payloadOf (batchesOf (script st))) x
     + count_occ string_dec (map payloadOf (chanBuf st)) x
     + count_occ string_dec
         (List.concat (map (fun g => map payloadOf (held g))
                           (goroutines st))) x)%nat.
Proof.
  unfold inTransit. rewrite !map_app, !count_occ_app.
  rewrite concat_map, map_map. lia.
Qed.

(** What a move of the worker of index [i] has to respect, whatever the
    stage it starts from. *)
Lemma inv_after_move events0 st i g g' q' pool' tel' extra :
  sysInv events0 st ->
  exited st = None ->
  nth_error (goroutines st) i = Some g ->
  allEmpty pool' ->
  goodGoroutine (requests st ++ extra) i g' ->
  (forall j call, In (j, call) extra ->
     j = i /\ toHost call = Host (c (goWorker g)) /\
     isGzip call = useGzip) ->
  (List.length q' <= List.length (chanBuf st))%nat ->
  (goStage g' = Finished -> q' = [] /\ chanClosed st = true) ->
  isSome tel' = isSome (telemetry st) ->
  (doLoad = true ->
   forall x,
     (count_occ string_dec (map payloadOf q') x
      + count_occ string_dec (map payloadOf (held g')) x
      + count_occ string_dec (bodies extra) x =
      count_occ string_dec (map payloadOf (chanBuf st)) x
      + count_occ string_dec (map payloadOf (held g)) x)%nat) ->
  (doLoad = false -> extra = []) ->
  (forall ch', tel' = Some ch' ->
     exists ch, telemetry st = Some ch /\
       forall x,
         (count_occ Sample_dec (map pointSample (accepted ch')) x
          + count_occ Sample_dec (owed g') x =
          count_occ Sample_dec (map pointSample (accepted ch)) x
          + count_occ Sample_dec (owed g) x
          + count_occ Sample_dec (map requestSample extra) x)%nat) ->
  (forall call msg,
     pending g = Some call \/ In (i, call) extra ->
     WriteLineProtocol call = Some msg -> pending g' = Some call) ->
  sysInv events0
         (mkSys (script st) q' (chanClosed st)
                (replaceNth i g' (goroutines st)) pool' tel'
                (requests st ++ extra) (exited st)).
Proof.
  intros (Hshape & Hbat & Hdry & Hsam & Href & Hexit) Hex Hi Hpool' Hg'
         Hextra Hq' Hfin' Htel' Hcount Hnone Hsamples Hpending.
  destruct Hshape as (Hpool & Hgood & Hreq & Hlen & Hcap & Hclosed & Hfin
                      & Hincl & Htel).
  assert (Hlt : (i < List.length (goroutines st))%nat)
    by (apply nth_error_Some; congruence).
  pose proof (Hgood i g Hi) as Hg.
  unfold sysInv. split; [shape_split|split; [|split; [|split; [|split]]]];
    sys_fields.
  - exact Hpool'.
  - apply replaced_goroutines; [|exact Hg'].
    intros j g0 Hj. apply good_more_requests. now apply Hgood.
  - intros j call Hin. rewrite replaceNth_length.
    apply in_app_or in Hin. destruct Hin as [Hin|Hin]; [now apply Hreq|].
    destruct (Hextra j call Hin) as (-> & Hhost & Hgz).
    split; [exact Hlt|]. split; [|exact Hgz].
    rewrite Hhost. apply Hg.
  - now rewrite replaceNth_length.
  - rewrite replaceNth_length. lia.
  - exact Hclosed.
  - intros j g0 Hj Hf. rewrite replaceNth_nth in Hj.
    destruct ((i =? j)%nat && (i <? List.length (goroutines st))%nat).
    + inversion Hj; subst g0. now apply Hfin'.
    + destruct (Hfin j g0 Hj Hf) as [Hq Hc]. split; [|exact Hc].
      rewrite Hq in Hq'. cbn in Hq'. now destruct q'; [|cbn in Hq'; lia].
  - exact Hincl.
  - intros Hoff. rewrite (Htel Hoff) in Htel'. now destruct tel'.
  - intros Hload x. specialize (Hbat Hload x). specialize (Hcount Hload x).
    rewrite transit_count in Hbat |- *. sys_fields.
    pose proof (count_replace string_dec (fun g => map payloadOf (held g))
                  (goroutines st) i g g' x Hi) as Hrep.
    cbv beta in Hrep. unfold bodies in *.
    rewrite map_app, count_occ_app. lia.
  - intros Hload. sys_fields. rewrite (Hdry Hload), (Hnone Hload). reflexivity.
  - intros ch' Hch' x. sys_fields.
    destruct (Hsamples ch' Hch') as (ch & Hch & Hx).
    specialize (Hsam ch Hch x). specialize (Hx x).
    pose proof (count_replace Sample_dec owed (goroutines st) i g g' x Hi)
      as Hrep.
    rewrite map_app, count_occ_app. lia.
  - intros j call msg Hin Hmsg. sys_fields. apply in_app_or in Hin.
    destruct (Nat.eq_dec i j) as [<-|Hne].
    + exists g'. split; [now apply (nth_error_replaced _ _ g)|].
      apply (Hpending call msg); [|exact Hmsg].
      destruct Hin as [Hin|Hin]; [left|now right].
      destruct (Href i call msg Hin Hmsg) as (g0 & Hg0 & Hp).
      congruence.
    + rewrite nth_error_kept by exact Hne.
      destruct Hin as [Hin|Hin]; [now apply (Href j call msg)|].
      destruct (Hextra j call Hin) as (-> & _). contradiction.
  - intros e He. sys_fields. rewrite Hex in He. discriminate.
Qed.

Ltac tally :=
  unfold bodies, requestSample, pointSample;
  cbn [held owed pending goStage goWorker map List.concat app count_occ
       pointSample requestSample fst snd body toHost isGzip
       worker_id dst_addr gzip body_bytes];
  repeat match goal with
         | |- context [ match ?d with left _ => _ | right _ => _ end ] =>
             destruct d
         end;
  try lia; try congruence.

Lemma poolGet_allEmpty pool :
  allEmpty pool ->
  fst (poolGet pool) = ""%string /\ allEmpty (snd (poolGet pool)).
Proof.
  unfold allEmpty. intros H. destruct pool as [|b pool]; cbn.
  - now split.
  - inversion H; subst. now split.
Qed.

Lemma accepted_chanSend p ch x :
  count_occ Sample_dec (map pointSample (accepted (chanSend p ch))) x =
    (count_occ Sample_dec (map pointSample (accepted ch)) x
     + count_occ Sample_dec [pointSample p] x)%nat.
Proof.
  unfold accepted, chanSend.
  destruct (receiverParked ch); cbn [handedOver queued];
    rewrite !map_app, !count_occ_app; cbn [map]; lia.
Qed.

Lemma accepted_chanRecv ch : accepted (chanRecv ch) = accepted ch.
Proof.
  unfold accepted, chanRecv. destruct (queued ch) as [|p rest];
    cbn [handedOver queued].
  - reflexivity.
  - now rewrite <- app_assoc.
Qed.

Ltac side Hst Hdry Hlabel :=
  unfold goodGoroutine, held, owed, pending; cbv zeta;
  rewrite ?Hst; sys_fields;
  repeat match goal with
         | |- context [ if negb ?b then _ else _ ] =>
             destruct b eqn:?; cbn [negb]
         | |- context [ if ?b then _ else _ ] => is_var b; destruct b eqn:?
         | |- context [ match ?o with Some _ => _ | None => _ end ] =>
             destruct o eqn:?
         end;
  repeat match goal with
         | H : _ /\ _ |- _ => destruct H
         end;
  sys_fields;
  try solve [intros ? ? []];
  try solve [intros; tally];
  try solve [intros ch' Hch'; eexists; split;
             [first [eassumption|reflexivity]|];
             intros x; try (inversion Hch'; subst);
             rewrite ?accepted_chanSend, ?Hlabel; tally];
  try solve [unfold allEmpty, poolPut, Reset; now constructor];
  try solve [intros Hd; destruct (Hdry Hd) as [Hd'|Hd']; discriminate Hd'];
  try solve [repeat split; rewrite ?app_nil_r;
             try assumption; try tauto; try discriminate; try congruence;
             try (apply in_or_app; right; now left);
             try (intros Hd; destruct (Hdry Hd) as [Hd'|Hd'];
                  discriminate Hd')];
  try solve [intros ? ? [Hp|[]]; inversion Hp; subst; now repeat split];
  try solve [intros ? ? [Hp|Hp] ?;
             [try discriminate Hp; inversion Hp; subst; congruence
             |try contradiction; destruct Hp as [Hp|[]];
              inversion Hp; subst; congruence]];
  try (cbn; lia).

Lemma workerMove_inv events0 i g st st' :
  sysInv events0 st ->
  exited st = None ->
  nth_error (goroutines st) i = Some g ->
  workerMove i g st = Some st' ->
  sysInv events0 st'.
Proof.
  intros Hinv Hex Hi H.
  assert (Hg : goodGoroutine (requests st) i g) by (now apply Hinv).
  assert (Hpool : allEmpty (pooled st)) by apply Hinv.
  unfold goodGoroutine in Hg. cbv zeta in Hg.
  destruct Hg as (Hhost & Hlabel & Hdry & Hstage).
  worker_cases H g.
  - (* Receiving *)
    destruct (chanBuf st) as [|batch rest] eqn:Hq.
    + destruct (chanClosed st) eqn:Hc; [|discriminate].
      inversion H; subst st'; clear H.
      rewrite <- Hq, <- Hc, <- (app_nil_r (requests st)).
      apply (inv_after_move events0 st i g); try assumption;
        side Hst Hdry Hlabel.
    + inversion H; subst st'; clear H.
      rewrite <- (app_nil_r (requests st)).
      apply (inv_after_move events0 st i g); try assumption;
        rewrite ?Hq; side Hst Hdry Hlabel.
  - (* Compressing *)
    destruct (poolGet_allEmpty _ Hpool) as [Hscratch Hpool1].
    destruct (poolGet (pooled st)) as [scratch pool1].
    cbn [fst snd] in Hscratch, Hpool1. subst scratch.
    inversion H; subst st'; clear H.
    rewrite <- (app_nil_r (requests st)).
    apply (inv_after_move events0 st i g); try assumption;
      side Hst Hdry Hlabel.
    repeat split; try assumption.
    + intros Hd. destruct (Hdry Hd) as [Hd'|Hd']; discriminate Hd'.
    + unfold payloadOf. now rewrite Hstage.
  - (* Calling *)
    inversion H; subst st'; clear H.
    apply (inv_after_move events0 st i g); try assumption;
      side Hst Hdry Hlabel.
  - (* Awaiting *)
    inversion H; subst st'; clear H.
    rewrite <- (app_nil_r (requests st)).
    apply (inv_after_move events0 st i g); try assumption;
      side Hst Hdry Hlabel.
  - (* Pooling *)
    inversion H; subst st'; clear H.
    rewrite <- (app_nil_r (requests st)).
    apply (inv_after_move events0 st i g); try assumption;
      side Hst Hdry Hlabel.
  - (* Failing *)
    inversion H; subst st'; clear H.
    destruct Hinv as (Hshape & Hbat & Hnone & Hsam & Href & Hexit).
    destruct Hstage as ((_ & _ & Hin) & Hmsg).
    split; [exact Hshape|]. split; [exact Hbat|]. split; [exact Hnone|].
    split; [exact Hsam|]. split; [exact Href|].
    intros e He. sys_fields. inversion He; subst e. right.
    now exists msg, i, call.
  - (* Recycling *)
    inversion H; subst st'; clear H.
    rewrite <- (app_nil_r (requests st)).
    apply (inv_after_move events0 st i g); try assumption;
      side Hst Hdry Hlabel.
  - (* Reporting *)
    destruct (telemetry st) as [ch|] eqn:Hch; [|discriminate].
    destruct (canSend ch); [|discriminate].
    inversion H; subst st'; clear H.
    rewrite <- (app_nil_r (requests st)).
    apply (inv_after_move events0 st i g); try assumption;
      side Hst Hdry Hlabel.
    now rewrite Hch.
  - discriminate.
Qed.

Ltac inv_split :=
  unfold sysInv;
  split; [shape_split|split; [|split; [|split; [|split]]]];
  sys_fields.

Lemma scannerMove_inv events0 st st' :
  sysInv events0 st ->
  exited st = None ->
  scannerMove st = Some st' ->
  sysInv events0 st'.
Proof.
  intros (Hshape & Hbat & Hnone & Hsam & Href & Hexit) Hex H.
  destruct Hshape as (Hpool & Hgood & Hreq & Hlen & Hcap & Hclosed & Hfin
                      & Hincl & Htel).
  unfold scannerMove in H.
  destruct (script st) as [|[batch| |e| |] rest] eqn:Hs; try discriminate.
  - (* close(batchChan) *)
    destruct (chanClosed st) eqn:Hc; [discriminate|].
    inversion H; subst st'; clear H. inv_split; try assumption.
    + reflexivity.
    + intros j g Hj Hf. destruct (Hfin j g Hj Hf). discriminate.
    + intros Hload x. specialize (Hbat Hload x).
      rewrite transit_count in Hbat |- *. sys_fields. now rewrite Hs in Hbat.
  - (* a send *)
    destruct (List.length (chanBuf st) <? Z.to_nat workers)%nat eqn:Hroom;
      [|discriminate].
    apply Nat.ltb_lt in Hroom.
    assert (Hopen : chanClosed st = false).
    { destruct (chanClosed st); [|reflexivity].
      specialize (Hclosed eq_refl). discriminate. }
    inversion H; subst st'; clear H. inv_split; try assumption.
    + rewrite length_app. cbn [List.length]. lia.
    + intros Hc. congruence.
    + intros j g Hj Hf. destruct (Hfin j g Hj Hf). congruence.
    + intros ev Hev. apply Hincl. now right.
    + intros Hload x. specialize (Hbat Hload x).
      rewrite transit_count in Hbat |- *. sys_fields.
      rewrite Hs in Hbat. cbn [batchesOf map] in Hbat.
      rewrite map_app, count_occ_app. cbn [map].
      cbn [count_occ] in *.
      destruct (string_dec (payloadOf batch) x); lia.
  - (* close(inputDone) *)
    assert (Hopen : chanClosed st = false).
    { destruct (chanClosed st); [|reflexivity].
      specialize (Hclosed eq_refl). discriminate. }
    inversion H; subst st'; clear H. inv_split; try assumption.
    + intros Hc. congruence.
    + intros ev Hev. apply Hincl. now right.
    + intros Hload x. specialize (Hbat Hload x).
      rewrite transit_count in Hbat |- *. sys_fields.
      now rewrite Hs in Hbat.
  - (* a fatal exit of scan *)
    assert (Hopen : chanClosed st = false).
    { destruct (chanClosed st); [|reflexivity].
      specialize (Hclosed eq_refl). discriminate. }
    inversion H; subst st'; clear H. inv_split; try assumption.
    + intros Hc. congruence.
    + intros ev Hev. apply Hincl. now right.
    + intros Hload x. specialize (Hbat Hload x).
      rewrite transit_count in Hbat |- *. sys_fields.
      now rewrite Hs in Hbat.
    + intros e' He'. sys_fields. inversion He'; subst e'. left.
      apply Hincl. now left.
Qed.

Lemma collectorMove_inv events0 st st' :
  sysInv events0 st ->
  collectorMove st = Some st' ->
  sysInv events0 st'.
Proof.
  intros (Hshape & Hbat & Hnone & Hsam & Href & Hexit) H.
  destruct Hshape as (Hpool & Hgood & Hreq & Hlen & Hcap & Hclosed & Hfin
                      & Hincl & Htel).
  unfold collectorMove in H.
  destruct (telemetry st) as [ch|] eqn:Hch; [|discriminate].
  inversion H; subst st'; clear H. inv_split; try assumption.
  - intros Hoff. specialize (Htel Hoff). discriminate Htel.
  - intros ch' Hch' x. sys_fields. inversion Hch'; subst ch'.
    rewrite accepted_chanRecv. now apply Hsam.
Qed.

Lemma sysStep_inv events0 a st st' :
  sysInv events0 st -> sysStep a st = Some st' -> sysInv events0 st'.
Proof.
  intros Hinv H. unfold sysStep in H.
  destruct (exited st) eqn:Hex; [discriminate|].
  destruct a as [| |i].
  - now apply (scannerMove_inv events0 st).
  - now apply (collectorMove_inv events0 st).
  - destruct (nth_error (goroutines st) i) as [g|] eqn:Hi; [|discriminate].
    now apply (workerMove_inv events0 i g st).
Qed.

Lemma runSys_cons a sched st :
  runSys (a :: sched) st =
    match sysStep a st with
    | Some st' => runSys sched st'
    | None => runSys sched st
    end.
Proof. reflexivity. Qed.

Lemma runSys_inv events0 sched : forall st,
  sysInv events0 st -> sysInv events0 (runSys sched st).
Proof.
  induction sched as [|a sched IH]; intros st Hinv; [exact Hinv|].
  rewrite runSys_cons.
  destruct (sysStep a st) as [st'|] eqn:Hstep; apply IH; [|exact Hinv].
  now apply (sysStep_inv events0 a st).
Qed.

(** *** The process at its start *)

Lemma nothing_held (f : Goroutine -> list string) (ws : list Worker) :
  (forall w, f (mkGo w Receiving) = []) ->
  List.concat (map f (map (fun w => mkGo w Receiving) ws)) = [].
Proof.
  intros Hf. induction ws as [|w ws IH]; [reflexivity|].
  cbn [map List.concat]. now rewrite Hf, IH.
Qed.

Lemma nothing_owed (ws : list Worker) :
  List.concat (map owed (map (fun w => mkGo w Receiving) ws)) = [].
Proof. induction ws as [|w ws IH]; [reflexivity|exact IH]. Qed.

Lemma startSys_panics input :
  workers < 0 ->
  startSys input = mkSys [] [] false [] [] None [] (Some MakeChanPanic).
Proof.
  intros Hneg. unfold startSys.
  apply Z.ltb_lt in Hneg. now rewrite Hneg.
Qed.

Lemma startSys_script input :
  0 <= workers -> script (startSys input) = fst (scan input).
Proof.
  intros Hnn. unfold startSys.
  destruct (Z.ltb_spec workers 0); [lia|reflexivity].
Qed.

Lemma startSys_inv input :
  sysInv (script (startSys input)) (startSys input).
Proof.
  unfold startSys.
  destruct (Z.ltb_spec workers 0) as [Hneg|Hnn]; inv_split;
    try solve [constructor]; try solve [intros ? ? []];
    try solve [intros [|?] ? Hn; discriminate Hn]; try reflexivity;
    try discriminate; try (cbn; lia); try apply incl_refl.

  - intros ? ? ? [].
  - intros i g Hi. rewrite nth_error_map in Hi.
    destruct (nth_error (startWorkers workers daemonUrls) i) as [w|] eqn:Hw;
      [|discriminate].
    inversion Hi; subst g; clear Hi.
    assert (Hlt : (i < Z.to_nat workers)%nat).
    { rewrite <- (startWorkers_length workers daemonUrls).
      apply nth_error_Some. congruence. }
    rewrite (startWorkers_nth _ _ _ Hlt) in Hw. inversion Hw; subst w.
    unfold goodGoroutine. cbv zeta. sys_fields. cbn [c Host
      telemetryWorkerLabel]. repeat split. intros _. now left.
  - now rewrite length_map, startWorkers_length.
  - intros i g Hi Hf. rewrite nth_error_map in Hi.
    destruct (nth_error (startWorkers workers daemonUrls) i);
      [|discriminate].
    inversion Hi; subst g. discriminate Hf.
  - intros Hoff. now rewrite Hoff.
  - intros Hload x. rewrite transit_count. sys_fields.
    rewrite nothing_held by reflexivity. cbn. lia.
  - intros ch Hch x. sys_fields. rewrite nothing_owed.
    destruct (telemetryOn telemetryHost); [|discriminate].
    inversion Hch; subst ch. reflexivity.
  - intros ? ? ? [].
Qed.

Lemma reached_inv sched input :
  sysInv (script (startSys input)) (runSys sched (startSys input)).
Proof. apply runSys_inv, startSys_inv. Qed.

Lemma runSys_exited sched : forall st e,
  exited st = Some e -> runSys sched st = st.
Proof.
  induction sched as [|a sched IH]; intros st e He; [reflexivity|].
  rewrite runSys_cons. unfold sysStep. rewrite He.
  now apply (IH st e).
Qed.

Lemma reached_after_panic sched input :
  workers < 0 ->
  runSys sched (startSys input) =
    mkSys [] [] false [] [] None [] (Some MakeChanPanic).
Proof.
  intros Hneg. rewrite (startSys_panics input Hneg).
  now apply (runSys_exited sched _ MakeChanPanic).
Qed.

(** *** Past the wait for the workers *)

#[local] Abbreviation reached sched input :=
  (runSys sched (startSys input)).

Lemma pastWait_true st :
  pastWait st = true ->
  exited st = None /\ script st = [] /\ chanClosed st = true /\
  forallb isFinished (goroutines st) = true.
Proof.
  unfold pastWait. destruct (exited st); [discriminate|].
  destruct (script st); [|discriminate].
  intros H. apply andb_true_iff in H. now repeat split.
Qed.



Lemma scan_exit input e :
  In (Exit1 e) (fst (scan input)) -> snd (scan input) = Fatal e.
Proof.
  assert (Hsends : forall l, ~ In (Exit1 e) (map Send l)).
  { intros l Hin. apply in_map_iff in Hin.
    destruct Hin as (b & Hb & _). discriminate Hb. }
  assert (Hchecks : forall r,
            In (Exit1 e) ([Done] ++ resultEvents r) -> r = Fatal e).
  { intros r [Hin|Hin]; [discriminate Hin|].
    destruct r as [? ? ?|e'']; cbn in Hin; [contradiction|].
    destruct Hin as [Hin|[]]. now inversion Hin. }
  assert (Hone : forall e', In (Exit1 e) [Exit1 e'] -> Fatal e' = Fatal e).
  { intros e' [Hin|[]]. now inversion Hin. }
  unfold scan.
  destruct (scanLoop CheckTotalValues itemLimit batchSize
                     (stdinLines input) initScan) as [s ex].
  destruct ex as [| |e']; try destruct (scannerErr input) as [msg|];
    cbn [fst snd]; intros Hin; apply in_app_or in Hin;
    destruct Hin as [Hin|Hin]; try (now apply Hsends in Hin);
    first [now apply Hone|now apply Hchecks].
Qed.


(** X6. The exit of the process explains itself, and a refused request
    is never survived: in every interleaving of the scanner and the
    workers, a fatal exit is the one of [scan] or carries the answer of
    the server to a request that was issued; and once a request has been
    issued that the server refuses, the run never gets past the wait for
    the workers, whatever the other workers still write before the
    process exits. *)
Theorem a_refused_request_ends_the_run sched input :
  (forall e,
     exited (reached sched input) = Some (Exit1 e) ->
     snd (scan input) = Fatal e \/
     exists msg i call,
       e = WriteError msg /\
       In (i, call) (requests (reached sched input)) /\
       WriteLineProtocol call = Some msg) /\
  (forall i call msg,
     In (i, call) (requests (reached sched input)) ->
     WriteLineProtocol call = Some msg ->
     pastWait (reached sched input) = false).
Proof.
  destruct (Z.ltb_spec workers 0) as [Hneg|Hnn].
  { rewrite (reached_after_panic sched input Hneg). sys_fields.
    split; [discriminate|]. now intros ? ? ? []. }
  pose proof (reached_inv sched input) as Hinv.
  rewrite (startSys_script input Hnn) in Hinv.
  destruct Hinv as (_ & _ & _ & _ & Href & Hexit). split.
  - intros e He. destruct (Hexit e He) as [Hin|Hw]; [left|now right].
    now apply scan_exit.
  - intros i call msg Hin Hmsg.
    destruct (Href i call msg Hin Hmsg) as (g & Hg & Hp).
    destruct (pastWait (reached sched input)) eqn:Hpast; [|reflexivity].
    destruct (pastWait_true _ Hpast) as (_ & _ & _ & Hall).
    rewrite forallb_forall in Hall.
    specialize (Hall g (nth_error_In _ _ Hg)).
    unfold isFinished in Hall. unfold pending in Hp.
    destruct (goStage g); discriminate.
Qed.





Lemma dry_run_issues_nothing sched input :
  doLoad = false -> requests (reached sched input) = [].
Proof.
  intros Hdry. pose proof (reached_inv sched input) as Hinv.
  destruct Hinv as (_ & _ & Hnone & _). now apply Hnone.
Qed.

#[local] Abbreviation main :=
  (main CheckTotalValues WriteLineProtocol WriteGzip daemonUrls workers
        batchSize itemLimit useGzip doLoad telemetryHost telemetryHostname).

(** X7. With the load off no request is ever issued, in any
    interleaving, and the run calls no sink.  With at least one worker
    its summary is decided by the scanner alone: the counters [scan]
    returns, or none when [scan] exits.  Without a worker there is no
    summary once [scan] has a batch to send, and none at all for a
    negative number of workers. *)
Theorem dry_run_writes_nothing asched sched input :
  doLoad = false ->
  requests (reached asched input) = [] /\
  runWrites (main sched input) = [] /\
  (1 <= workers ->
   runStats (main sched input) =
     match snd (scan input) with
     | Returned items bytes values => Some (mkStats items bytes values)
     | Fatal _ => None
     end) /\
  (workers < 0 \/ workers = 0 /\ batchesOf (fst (scan input)) <> [] ->
   runStats (main sched input) = None).
Proof.
  intros Hdry.
  pose proof (main_dry CheckTotalValues WriteLineProtocol WriteGzip
                daemonUrls workers batchSize itemLimit useGzip doLoad
                telemetryHost telemetryHostname sched input Hdry) as Hrun.
  pose proof (main_without_workers CheckTotalValues WriteLineProtocol
                WriteGzip daemonUrls workers batchSize itemLimit useGzip
                doLoad telemetryHost telemetryHostname sched input) as Hnone.
  split; [now apply dry_run_issues_nothing|]. split; [|split].
  - destruct (Z.ltb_spec workers 0) as [Hneg|Hnn];
      [now apply Hnone; left|].
    destruct (Z.eqb_spec workers 0) as [Hz|Hnz].
    + destruct (batchesOf (fst (scan input))) as [|b bs] eqn:Hb.
      * apply (Hrun Hnn). now intros _.
      * apply Hnone. right. split; [exact Hz|discriminate].
    + apply (Hrun Hnn). intros Hz. contradiction.
  - intros Hw. apply Hrun; lia.
  - intros Hw. now apply Hnone.
Qed.

End InterleavingFacts.

(** ** Start-up: splitting the flags *)

Lemma concat_two sep x y l :
  String.concat sep (x :: y :: l) =
    (x ++ sep ++ String.concat sep (y :: l))%string.
Proof. reflexivity. Qed.

Lemma cutAt_concat sep s : forall cuts,
  String.concat (String sep "")
                (fst (cutAt sep s cuts) :: snd (cutAt sep s cuts)) = s.
Proof.
  induction s as [|ch s IH]; intros cuts; [reflexivity|].
  cbn [cutAt]. destruct cuts as [|cuts]; [reflexivity|].
  destruct (Ascii.eqb ch sep) eqn:E.
  - apply Ascii.eqb_eq in E. subst ch.
    specialize (IH cuts). destruct (cutAt sep s cuts) as [p ps].
    cbn [fst snd] in *. rewrite concat_two, IH. reflexivity.
  - specialize (IH (S cuts)). destruct (cutAt sep s (S cuts)) as [p ps].
    cbn [fst snd] in *. destruct ps as [|q ps].
    + cbn [String.concat] in *. now rewrite IH.
    + rewrite concat_two in *. exact (f_equal (String ch) IH).
Qed.

Lemma cutAt_first_clean sep s : forall cuts,
  (Count s sep <= cuts)%nat \/ (0 < cuts)%nat ->
  Count (fst (cutAt sep s cuts)) sep = 0%nat.
Proof.
  induction s as [|ch s IH]; intros cuts Hc; [reflexivity|].
  cbn [cutAt Count] in *. destruct cuts as [|cuts].
  - destruct Hc as [Hc|Hc]; [|lia]. cbn [fst Count]. lia.
  - destruct (Ascii.eqb ch sep) eqn:E; [reflexivity|].
    specialize (IH (S cuts)). destruct (cutAt sep s (S cuts)) as [p ps].
    cbn [fst Count] in *. rewrite E. apply IH. right. lia.
Qed.

Lemma cutAt_rest_clean sep s : forall cuts,
  (Count s sep <= cuts)%nat ->
  Forall (fun p => Count p sep = 0%nat) (snd (cutAt sep s cuts)).
Proof.
  induction s as [|ch s IH]; intros cuts Hc; [constructor|].
  cbn [cutAt Count] in *. destruct cuts as [|cuts]; [constructor|].
  destruct (Ascii.eqb ch sep) eqn:E.
  - assert (Hc' : (Count s sep <= cuts)%nat) by lia.
    pose proof (IH cuts Hc') as Hrest.
    pose proof (cutAt_first_clean sep s cuts (or_introl Hc')) as Hfirst.
    destruct (cutAt sep s cuts) as [p ps]. cbn [fst snd] in *.
    now constructor.
  - assert (Hc' : (Count s sep <= S cuts)%nat) by lia.
    pose proof (IH (S cuts) Hc') as Hrest.
    destruct (cutAt sep s (S cuts)) as [p ps]. exact Hrest.
Qed.

Lemma cutAt_pieces sep s : forall cuts,
  List.length (snd (cutAt sep s cuts)) = Nat.min cuts (Count s sep).
Proof.
  induction s as [|ch s IH]; intros cuts.
  - cbn. now rewrite Nat.min_0_r.
  - cbn [cutAt Count]. destruct cuts as [|cuts]; [reflexivity|].
    destruct (Ascii.eqb ch sep).
    + specialize (IH cuts). destruct (cutAt sep s cuts) as [p ps].
      cbn [snd List.length] in *. rewrite IH. lia.
    + specialize (IH (S cuts)). destruct (cutAt sep s (S cuts)) as [p ps].
      cbn [snd] in *. rewrite IH. reflexivity.
Qed.

Lemma SplitN_cut s sep n :
  n <> 0 ->
  SplitN s sep n =
    fst (cutAt sep s (Z.to_nat ((if n <? 0 then Z.of_nat (Count s sep) + 1
                                 else n) - 1)))
    :: snd (cutAt sep s (Z.to_nat ((if n <? 0
                                    then Z.of_nat (Count s sep) + 1
                                    else n) - 1))).
Proof.
  intros Hn. unfold SplitN. apply Z.eqb_neq in Hn. rewrite Hn. cbv zeta.
  now destruct (cutAt sep s _).
Qed.

Lemma Split_cut s sep :
  Split s sep =
    fst (cutAt sep s (Count s sep)) :: snd (cutAt sep s (Count s sep)).
Proof.
  unfold Split. rewrite SplitN_cut by lia.
  change (-1 <? 0) with true. cbv iota.
  replace (Z.to_nat (Z.of_nat (Count s sep) + 1 - 1)) with (Count s sep)
    by lia.
  reflexivity.
Qed.

Lemma Split_concat s sep : String.concat (String sep "") (Split s sep) = s.
Proof. rewrite Split_cut. apply cutAt_concat. Qed.

Lemma Split_clean s sep :
  Forall (fun p => Count p sep = 0%nat) (Split s sep).
Proof.
  rewrite Split_cut. constructor.
  - apply cutAt_first_clean. now left.
  - now apply cutAt_rest_clean.
Qed.

Lemma Split_length s sep : List.length (Split s sep) = S (Count s sep).
Proof.
  rewrite Split_cut. cbn [List.length]. rewrite cutAt_pieces. lia.
Qed.

Lemma SplitN2_found s sep :
  (0 < Count s sep)%nat ->
  exists k v,
    SplitN s sep 2 = [k; v] /\ Count k sep = 0%nat /\
    (k ++ String sep v)%string = s.
Proof.
  intros Hc. rewrite SplitN_cut by lia.
  change (2 <? 0) with false. cbv iota. change (Z.to_nat (2 - 1)) with 1%nat.
  pose proof (cutAt_concat sep s 1) as Hjoin.
  pose proof (cutAt_first_clean sep s 1 (or_intror Nat.lt_0_1)) as Hclean.
  pose proof (cutAt_pieces sep s 1) as Hlen.
  destruct (cutAt sep s 1) as [k ps]. cbn [fst snd] in *.
  rewrite Nat.min_l in Hlen by lia.
  destruct ps as [|v [|w ps]]; try discriminate.
  exists k, v. now repeat split.
Qed.

Lemma SplitN2_missing s sep :
  Count s sep = 0%nat -> SplitN s sep 2 = [s].
Proof.
  intros Hc. rewrite SplitN_cut by lia.
  change (2 <? 0) with false. cbv iota. change (Z.to_nat (2 - 1)) with 1%nat.
  pose proof (cutAt_concat sep s 1) as Hjoin.
  pose proof (cutAt_pieces sep s 1) as Hlen.
  destruct (cutAt sep s 1) as [k ps]. cbn [fst snd] in *.
  rewrite Hc in Hlen. cbn in Hlen.
  destruct ps; [|discriminate]. cbn in Hjoin. now subst.
Qed.

Lemma Count_app a b sep : Count (a ++ b) sep = (Count a sep + Count b sep)%nat.
Proof. induction a as [|ch a IH]; cbn [append Count]; [reflexivity|lia]. Qed.

Lemma cutAt_zero sep s : cutAt sep s 0 = (s, []).
Proof. now destruct s. Qed.

Lemma cutAt_clean_prefix sep a rest : forall cuts,
  Count a sep = 0%nat ->
  cutAt sep (a ++ String sep rest) (S cuts) =
    (a, fst (cutAt sep rest cuts) :: snd (cutAt sep rest cuts)).
Proof.
  induction a as [|ch a IH]; intros cuts Hc.
  - cbn [append cutAt]. rewrite Ascii.eqb_refl.
    now destruct (cutAt sep rest cuts).
  - cbn [append cutAt Count] in *.
    destruct (Ascii.eqb ch sep); [discriminate|].
    now rewrite IH.
Qed.

Lemma Split_one sep a : Count a sep = 0%nat -> Split a sep = [a].
Proof.
  intros Hc. rewrite Split_cut, Hc, cutAt_zero. reflexivity.
Qed.

Lemma Split_clean_prefix sep a rest :
  Count a sep = 0%nat ->
  Split (a ++ String sep rest) sep = a :: Split rest sep.
Proof.
  intros Hc. rewrite !Split_cut, Count_app, Hc. cbn [Count].
  rewrite Ascii.eqb_refl. cbn [Nat.add].
  now rewrite cutAt_clean_prefix.
Qed.

Lemma Split_of_concat sep pieces :
  pieces <> [] ->
  Forall (fun p => Count p sep = 0%nat) pieces ->
  Split (String.concat (String sep "") pieces) sep = pieces.
Proof.
  induction pieces as [|a pieces IH]; intros Hne Hclean; [contradiction|].
  apply Forall_cons_iff in Hclean. destruct Hclean as [Ha Hrest].
  destruct pieces as [|b pieces].
  - cbn [String.concat]. now apply Split_one.
  - rewrite concat_two.
    change (a ++ String sep "" ++ String.concat (String sep "") (b :: pieces))%string
      with (a ++ String sep (String.concat (String sep "") (b :: pieces)))%string.
    rewrite Split_clean_prefix by assumption.
    now rewrite IH.
Qed.

(** *** Tags *)

Lemma tagPairs_cons kv rest :
  tagPairs (kv :: rest) =
    match SplitN kv ":"%char 2 with
    | f0 :: f1 :: _ =>
        match tagPairs rest with
        | Some tags => Some ((f0, f1) :: tags)
        | None => None
        end
    | _ => None
    end.
Proof. reflexivity. Qed.

Lemma tagPairs_render pairs : forall tags,
  tagPairs pairs = Some tags ->
  map (fun kv => (fst kv ++ ":" ++ snd kv)%string) tags = pairs /\
  Forall (fun kv => Count (fst kv) ":"%char = 0%nat) tags.
Proof.
  induction pairs as [|kv rest IH]; intros tags H.
  - inversion H; subst. now split.
  - rewrite tagPairs_cons in H.
    destruct (Nat.eq_dec (Count kv ":"%char) 0) as [Hc|Hc].
    + rewrite (SplitN2_missing _ _ Hc) in H. discriminate.
    + destruct (SplitN2_found kv ":"%char) as (k & v & E & Hk & Hkv); [lia|].
      rewrite E in H.
      destruct (tagPairs rest) as [tags'|]; [|discriminate].
      inversion H; subst tags. destruct (IH tags' eq_refl) as [Hm Hf].
      cbn [map fst snd]. split.
      * rewrite Hm. f_equal. exact Hkv.
      * now constructor.
Qed.

Lemma tagPairs_panics pairs :
  tagPairs pairs = None <->
  Exists (fun kv => Count kv ":"%char = 0%nat) pairs.
Proof.
  induction pairs as [|kv rest IH].
  - split; [discriminate|]. intros H. inversion H.
  - rewrite tagPairs_cons, Exists_cons.
    destruct (Nat.eq_dec (Count kv ":"%char) 0) as [Hc|Hc].
    + rewrite (SplitN2_missing _ _ Hc). split; [now left|reflexivity].
    + destruct (SplitN2_found kv ":"%char) as (k & v & E & _); [lia|].
      rewrite E. destruct (tagPairs rest) as [tags'|].
      * split; [discriminate|]. intros [H|H]; [contradiction|].
        apply IH in H. discriminate.
      * split; [|reflexivity]. intros _. right. now apply IH.
Qed.

Lemma tagPairs_of_rendered tags :
  Forall (fun kv => Count (fst kv) ":"%char = 0%nat) tags ->
  tagPairs (map (fun kv => (fst kv ++ ":" ++ snd kv)%string) tags) =
    Some tags.
Proof.
  induction tags as [|[k v] tags IH]; intros Hclean; [reflexivity|].
  apply Forall_cons_iff in Hclean. destruct Hclean as [Hk Hrest].
  cbn [map fst snd] in *. rewrite tagPairs_cons.
  rewrite SplitN_cut by lia.
  change (2 <? 0) with false. cbv iota. change (Z.to_nat (2 - 1)) with 1%nat.
  change (k ++ ":" ++ v)%string with (k ++ String ":" v)%string.
  rewrite cutAt_clean_prefix, cutAt_zero by assumption.
  cbn [fst snd]. now rewrite IH.
Qed.

Lemma append_empty a b : (a ++ b)%string = ""%string -> a = ""%string.
Proof. destruct a; [reflexivity|discriminate]. Qed.

Lemma renderTags_empty tags : renderTags tags = ""%string -> tags = [].
Proof.
  destruct tags as [|[k v] tags]; [reflexivity|].
  unfold renderTags. cbn [map fst snd]. intros H. exfalso.
  assert (Hkv : (k ++ ":" ++ v)%string = ""%string).
  { destruct (map _ tags); [exact H|].
    rewrite concat_two in H. now apply append_empty in H. }
  destruct k; discriminate.
Qed.

Lemma parseTags_render tagsCSV tags :
  parseTags tagsCSV = Some tags -> renderTags tags = tagsCSV.
Proof.
  unfold parseTags. destruct (String.eqb_spec tagsCSV "") as [->|Hne].
  - intros H. now inversion H.
  - intros H. destruct (tagPairs_render _ _ H) as [Hm _].
    unfold renderTags. rewrite Hm. apply Split_concat.
Qed.

(** X13. Parsing a tags flag and writing tags back as a flag are inverse
    to each other: a flag parses to a list of tags exactly when that list,
    written as [key:value] pairs separated by commas, is the flag, no key
    holds a colon, and neither keys nor values hold a comma.  (A value may
    hold colons: a pair is cut at its first colon only.) *)
Theorem tags_parse_exactly_as_they_render tagsCSV tags :
  parseTags tagsCSV = Some tags <->
  renderTags tags = tagsCSV /\
  Forall (fun kv => Count (fst kv) ":"%char = 0%nat /\
                    Count (fst kv) ","%char = 0%nat /\
                    Count (snd kv) ","%char = 0%nat) tags.
Proof.
  unfold parseTags. split.
  - destruct (String.eqb_spec tagsCSV "") as [->|Hne].
    + intros H. inversion H; subst. now split.
    + intros H. destruct (tagPairs_render _ _ H) as [Hm Hcolon].
      unfold renderTags. rewrite Hm. split; [apply Split_concat|].
      pose proof (Split_clean tagsCSV ","%char) as Hcomma.
      rewrite <- Hm in Hcomma. clear Hm H.
      induction tags as [|[k v] tags IH]; [constructor|].
      cbn [map fst snd] in Hcomma.
      apply Forall_cons_iff in Hcomma, Hcolon.
      destruct Hcomma as [Hkv Hrest]. destruct Hcolon as [Hk Hcolon].
      constructor; [|now apply IH].
      cbn [fst snd] in *. rewrite !Count_app in Hkv. cbn [Count] in Hkv.
      change (Ascii.eqb ":" ",") with false in Hkv. cbv iota in Hkv.
      repeat split; [assumption|lia|lia].
  - intros [Hr Hclean]. subst tagsCSV.
    destruct (String.eqb_spec (renderTags tags) "") as [He|Hne].
    + now rewrite (renderTags_empty _ He).
    + unfold renderTags in *.
      assert (Hpieces : map (fun kv => (fst kv ++ ":" ++ snd kv)%string) tags
                        <> []).
      { destruct tags; [contradiction|discriminate]. }
      assert (Hcomma : Forall (fun p => Count p ","%char = 0%nat)
                         (map (fun kv => (fst kv ++ ":" ++ snd kv)%string)
                              tags)).
      { apply Forall_map. eapply Forall_impl; [|exact Hclean].
        intros [k v] (_ & Hk & Hv). cbn [fst snd] in *.
        rewrite !Count_app. cbn [Count].
        change (Ascii.eqb ":" ",") with false. cbv iota. lia. }
      change ","%string with (String ","%char "") in *.
      rewrite (Split_of_concat ","%char _ Hpieces Hcomma).
      apply tagPairs_of_rendered.
      eapply Forall_impl; [|exact Hclean]. now intros kv (Hk & _).
Qed.

(** X14. Parsing a tags flag panics exactly when the flag is not empty and
    one of its comma-separated pairs holds no colon, as in a flag that
    ends with a comma. *)
Theorem tags_without_colon_panic tagsCSV :
  parseTags tagsCSV = None <->
  tagsCSV <> ""%string /\
  Exists (fun kv => Count kv ":"%char = 0%nat) (Split tagsCSV ","%char).
Proof.
  unfold parseTags. destruct (String.eqb_spec tagsCSV "") as [->|Hne].
  - split; [discriminate|]. now intros [H _].
  - rewrite tagPairs_panics. split; [now split|now intros [_ H]].
Qed.

(** ** Start-up: [init], the server check and the template *)

Section StartupFacts.

Variable defaultTemplate : string.
Variable defaultTemplate6x : string.
Variable aggregationTemplate : string.
Variable aggregationTemplate6x : string.
Variable fetch : string -> Outcome (list (string * JSON)).
Variable createESTemplate : string -> string -> string -> Z -> Z ->
                            option string.
Variable hostnameErr : option string.

#[local] Abbreviation indexTemplateChoices :=
  (indexTemplateChoices defaultTemplate defaultTemplate6x
                        aggregationTemplate aggregationTemplate6x).
#[local] Abbreviation indexTemplateFor :=
  (indexTemplateFor defaultTemplate defaultTemplate6x
                    aggregationTemplate aggregationTemplate6x).
#[local] Abbreviation init :=
  (init defaultTemplate defaultTemplate6x aggregationTemplate
        aggregationTemplate6x hostnameErr).
#[local] Abbreviation checkServer := (checkServer fetch).
#[local] Abbreviation provision :=
  (provision defaultTemplate defaultTemplate6x aggregationTemplate
             aggregationTemplate6x fetch createESTemplate).

Lemma known_template_names name choice :
  lookup name indexTemplateChoices = Some choice ->
  name = "default"%string \/ name = "aggregation"%string.
Proof.
  unfold indexTemplateChoices. cbn [lookup].
  destruct (String.eqb_spec "default" name) as [<-|_]; [now left|].
  destruct (String.eqb_spec "aggregation" name) as [<-|_]; [now right|].
  discriminate.
Qed.

(** Splits an [init] equation along the tests [init] makes. *)
Ltac init_cases H telemetryHost telemetryBatchSize telemetryTagsCSV
                reportHost reportTagsCSV indexTemplateName :=
  unfold init in H;
  rewrite Split_length in H; cbn [Nat.eqb] in H; cbv iota zeta in H;
  destruct (telemetryHost =? "")%string;
  destruct (telemetryBatchSize =? 0);
  destruct hostnameErr;
  destruct (parseTags telemetryTagsCSV) eqn:?Htelemetry;
  destruct (reportHost =? "")%string;
  destruct (parseTags reportTagsCSV) eqn:?Hreport;
  destruct (lookup indexTemplateName indexTemplateChoices) eqn:?Hname;
  cbn [append] in H; try discriminate H.

(** X15. What [init] hands to [main] when it returns: the list of URLs is
    the [urls] flag cut at its commas, so it is never empty (the check for
    a missing flag cannot fire, and [daemonUrls[0]] and
    [i % len(daemonUrls)] are defined), joining it with commas gives the
    flag back, and no URL holds a comma; and the index template name is
    one of the two the program knows. *)
Theorem init_guarantees csvDaemonUrls telemetryHost telemetryBatchSize
        telemetryTagsCSV reportHost reportTagsCSV indexTemplateName :
  init csvDaemonUrls telemetryHost telemetryBatchSize telemetryTagsCSV
       reportHost reportTagsCSV indexTemplateName
    <> Failed "missing 'urls' flag" /\
  (forall done,
     init csvDaemonUrls telemetryHost telemetryBatchSize telemetryTagsCSV
          reportHost reportTagsCSV indexTemplateName = Value done ->
     initUrls done <> [] /\
     String.concat "," (initUrls done) = csvDaemonUrls /\
     Forall (fun url => Count url ","%char = 0%nat) (initUrls done) /\
     (indexTemplateName = "default"%string \/
      indexTemplateName = "aggregation"%string)).
Proof.
  split.
  - intros H.
    init_cases H telemetryHost telemetryBatchSize telemetryTagsCSV
               reportHost reportTagsCSV indexTemplateName.
  - intros done H.
    assert (Hurls : initUrls done = Split csvDaemonUrls ","%char /\
                    exists choice,
                      lookup indexTemplateName indexTemplateChoices
                        = Some choice).
    { init_cases H telemetryHost telemetryBatchSize telemetryTagsCSV
                 reportHost reportTagsCSV indexTemplateName;
        inversion H; split; try reflexivity; now eexists. }
    destruct Hurls as [-> [choice Hname]].
    split; [|split; [|split]].
    + intros Hnil. pose proof (Split_length csvDaemonUrls ","%char) as Hl.
      rewrite Hnil in Hl. discriminate.
    + apply (Split_concat csvDaemonUrls ","%char).
    + apply Split_clean.
    + exact (known_template_names _ _ Hname).
Qed.

(** X16. The tags [init] returns are the tags of the two flags: written
    back as [key:value] pairs they give the telemetry tags flag and the
    report tags flag again.  A tags flag is not read at all, and so
    cannot panic, when its host flag is empty. *)
Theorem init_tags csvDaemonUrls telemetryHost telemetryBatchSize
        telemetryTagsCSV reportHost reportTagsCSV indexTemplateName done :
  init csvDaemonUrls telemetryHost telemetryBatchSize telemetryTagsCSV
       reportHost reportTagsCSV indexTemplateName = Value done ->
  (if (telemetryHost =? "")%string then initTelemetryTags done = []
   else renderTags (initTelemetryTags done) = telemetryTagsCSV) /\
  (if (reportHost =? "")%string then initReportTags done = []
   else renderTags (initReportTags done) = reportTagsCSV).
Proof.
  intros H.
  init_cases H telemetryHost telemetryBatchSize telemetryTagsCSV
             reportHost reportTagsCSV indexTemplateName;
    inversion H; subst done;
    cbn [initTelemetryTags initReportTags]; split;
    try reflexivity;
    match goal with
    | Hp : parseTags ?csv = Some ?tags |- renderTags ?tags = ?csv =>
        now apply parseTags_render
    end.
Qed.

(** X17. With the host name available, [init] panics in exactly three
    cases: a telemetry host with a telemetry batch size of zero, a
    telemetry host with telemetry tags that do not parse, and a report
    host with report tags that do not parse. *)
Theorem init_panics_exactly csvDaemonUrls telemetryHost telemetryBatchSize
        telemetryTagsCSV reportHost reportTagsCSV indexTemplateName :
  hostnameErr = None ->
  (init csvDaemonUrls telemetryHost telemetryBatchSize telemetryTagsCSV
        reportHost reportTagsCSV indexTemplateName = Panicked <->
   (telemetryHost <> ""%string /\
    (telemetryBatchSize = 0 \/ parseTags telemetryTagsCSV = None)) \/
   (reportHost <> ""%string /\ parseTags reportTagsCSV = None)).
Proof.
  clear fetch createESTemplate.
  intros Hhost. unfold init. rewrite Split_length, Hhost.
  cbn [Nat.eqb]. cbv iota zeta.
  destruct (String.eqb_spec telemetryHost "") as [Ht|Ht];
    destruct (Z.eqb_spec telemetryBatchSize 0) as [Hb|Hb];
    destruct (parseTags telemetryTagsCSV) as [tt|];
    destruct (String.eqb_spec reportHost "") as [Hr|Hr];
    destruct (parseTags reportTagsCSV) as [rt|];
    destruct (lookup indexTemplateName indexTemplateChoices);
    (split; [intros HP; try discriminate HP|intros HQ; try reflexivity]);
    try (exfalso; intuition congruence);
    intuition congruence.
Qed.

(** *** The server check *)

Lemma Split_head ver sep :
  exists major others,
    Split ver sep = major :: others /\
    Count major sep = 0%nat /\
    (ver = major \/
     exists rest, ver = (major ++ String sep rest)%string).
Proof.
  pose proof (Split_concat ver sep) as Hjoin.
  pose proof (Split_clean ver sep) as Hclean.
  pose proof (Split_length ver sep) as Hlen.
  destruct (Split ver sep) as [|major others]; [discriminate|].
  exists major, others. apply Forall_cons_iff in Hclean.
  split; [reflexivity|]. split; [apply Hclean|].
  destruct others as [|q others].
  - left. now rewrite <- Hjoin.
  - right. rewrite concat_two in Hjoin. eexists. rewrite <- Hjoin.
    reflexivity.
Qed.

(** X18. When the answer of the server holds a version number that is a
    string, [checkServer] returns the text before its first dot (the
    whole text when it has no dot); when the answer names no version, or
    a version without a number, it returns ["5"]. *)
Theorem checkServer_major_version daemonUrl listing :
  fetch daemonUrl = Value listing ->
  (forall vo ver,
     lookup "version" listing = Some (JObject vo) ->
     lookup "number" vo = Some (JString ver) ->
     exists major,
       checkServer daemonUrl = Value major /\
       Count major "."%char = 0%nat /\
       (ver = major \/ exists rest, ver = (major ++ "." ++ rest)%string)) /\
  (lookup "version" listing = None ->
   checkServer daemonUrl = Value "5"%string) /\
  (forall vo,
     lookup "version" listing = Some (JObject vo) ->
     lookup "number" vo = None ->
     checkServer daemonUrl = Value "5"%string).
Proof.
  intros Hfetch. unfold checkServer, majorVer. rewrite Hfetch.
  split; [|split].
  - intros vo ver Hv Hn. rewrite Hv, Hn.
    destruct (Split_head ver "."%char) as (major & others & E & Hc & Hver).
    rewrite E. exists major. now repeat split.
  - now intros ->.
  - intros vo Hv Hn. now rewrite Hv, Hn.
Qed.

(** *** The requests before the load *)

Lemma unknown_version_has_no_template indexTemplateName v :
  v <> "5"%string -> v <> "6"%string ->
  indexTemplateFor indexTemplateName v = ""%string.
Proof.
  intros H5 H6. unfold indexTemplateFor, indexTemplateChoices.
  cbn [lookup].
  apply not_eq_sym in H5, H6.
  apply String.eqb_neq in H5, H6.
  destruct (_ =? indexTemplateName)%string; cbn [lookup];
    [now rewrite H5, H6|].
  destruct (_ =? indexTemplateName)%string; cbn [lookup];
    [now rewrite H5, H6|reflexivity].
Qed.

(** X19. Before the load the program talks to the first URL only, and not
    at all when the load is off: all it does is read the first URL, its
    templates or its indices, or call [createESTemplate] for that URL;
    [createESTemplate] is only called after the three reads, and only when
    the database is to be created. *)
Theorem provision_uses_the_first_url doLoad doDBCreate daemonUrls
        indexTemplateName numberOfReplicas numberOfShards request :
  In request (fst (provision doLoad doDBCreate daemonUrls indexTemplateName
                             numberOfReplicas numberOfShards)) ->
  doLoad = true /\
  exists url0 others,
    daemonUrls = url0 :: others /\
    (request = Get url0 \/
     doDBCreate = true /\
     (request = Get (url0 ++ "/_template") \/
      request = Get (url0 ++ "/*") \/
      exists v,
        checkServer url0 = Value v /\
        request =
          PutTemplate url0 "measurements_template"
                      (indexTemplateFor indexTemplateName v)
                      numberOfReplicas numberOfShards /\
        fst (provision doLoad doDBCreate daemonUrls indexTemplateName
                       numberOfReplicas numberOfShards) =
          [Get url0; Get (url0 ++ "/_template"); Get (url0 ++ "/*");
           request])).
Proof.
  unfold provision. destruct doLoad; cbn [negb]; [|intros []].
  destruct daemonUrls as [|url0 others]; [intros []|].
  intros Hin. split; [reflexivity|]. exists url0, others.
  split; [reflexivity|].
  destruct (checkServer url0) as [v| |] eqn:Hv;
    try (cbn [fst In] in Hin; destruct Hin as [<-|[]]; now left).
  destruct doDBCreate; cbn [negb] in *;
    [|cbn [fst In] in Hin; destruct Hin as [<-|[]]; now left].
  cbv zeta in Hin.
  destruct (listIndexTemplates fetch url0);
    [destruct (listIndices fetch url0);
      [destruct (createESTemplate _ _ _ _ _)|..]|..];
    cbn [fst In] in Hin;
    repeat (destruct Hin as [<-|Hin]; [auto 6|]); try contradiction.
  - right. split; [reflexivity|]. right. right. exists v. now repeat split.
  - right. split; [reflexivity|]. right. right. exists v. now repeat split.
Qed.

(** X20. For a server whose major version is neither 5 nor 6 the program
    has no index template: when the load and the database creation are
    on, the two listings are read, and the version number of the server
    starts with another text than [5] or [6] before its first dot,
    [createESTemplate] is called with a template of no bytes. *)
Theorem other_versions_get_an_empty_template
        url0 others indexTemplateName numberOfReplicas numberOfShards
        listing vo ver templates indices :
  fetch url0 = Value listing ->
  lookup "version" listing = Some (JObject vo) ->
  lookup "number" vo = Some (JString ver) ->
  hd ""%string (Split ver "."%char) <> "5"%string ->
  hd ""%string (Split ver "."%char) <> "6"%string ->
  fetch (url0 ++ "/_template") = Value templates ->
  fetch (url0 ++ "/*") = Value indices ->
  fst (provision true true (url0 :: others) indexTemplateName
                 numberOfReplicas numberOfShards) =
    [Get url0; Get (url0 ++ "/_template"); Get (url0 ++ "/*");
     PutTemplate url0 "measurements_template" ""
                 numberOfReplicas numberOfShards].
Proof.
  intros Hfetch Hv Hn H5 H6 Ht Hi.
  unfold provision, checkServer, majorVer, listIndexTemplates, listIndices.
  cbn [negb]. rewrite Hfetch, Hv, Hn, Ht, Hi.
  destruct (Split_head ver "."%char) as (major & rest & E & _).
  rewrite E in *. cbn [hd] in H5, H6. cbv zeta.
  rewrite (unknown_version_has_no_template _ _ H5 H6).
  now destruct (createESTemplate _ _ _ _ _).
Qed.

End StartupFacts.

(** ** Sample runs of the further properties *)

Lemma returned_batches_are_the_lines_witness :
  (4 <= maxInt64 /\
   snd (scan sampleCheck (-1) 1 twoItems) = Returned 2 26 4) /\
  flat [batch1; batch2] =
    asWritten ["action1"; "doc1"; "action2"; "doc2"]%string.
Proof.
  assert (Hmax : 4 <= maxInt64) by (unfold maxInt64; lia).
  split; [split; [exact Hmax|reflexivity]|].
  exact (returned_batches_are_the_lines sampleCheck (-1) 1 twoItems
           2 26 4 Hmax eq_refl).
Defined.

Lemma scan_returns_what_the_last_line_announces_witness :
  (4 <= maxInt64 /\
   dataLines sampleCheck (stdinLines twoItems) <> [] /\
   snd (scan sampleCheck (-1) 1 twoItems) = Returned 2 26 4) /\
  exists pre last err,
    stdinLines twoItems = pre ++ [last] /\
    sampleCheck last = (2, 4, err) /\
    isTotalsRecord sampleCheck last = true.
Proof.
  assert (Hmax : 4 <= maxInt64) by (unfold maxInt64; lia).
  assert (Hdata : dataLines sampleCheck (stdinLines twoItems) <> [])
    by discriminate.
  split; [split; [exact Hmax|split; [exact Hdata|reflexivity]]|].
  exact (scan_returns_what_the_last_line_announces sampleCheck (-1) 1
           twoItems 2 26 4 Hmax Hdata eq_refl).
Defined.

Lemma limit_break_after_exactly_itemLimit_items_witness :
  (1 <= 1 <= maxInt64 /\
   scanLoop sampleCheck 1 5000 (stdinLines twoItems) initScan =
     (mkScanState "" 2 1 13 0 0 0 [batch1], HitLimit)) /\
  1 = 1 /\ ""%string = ""%string /\
  flat [batch1] = asWritten ["action1"; "doc1"]%string.
Proof.
  assert (HL : 1 <= 1 <= maxInt64) by (unfold maxInt64; lia).
  split; [split; [exact HL|reflexivity]|].
  exact (limit_break_after_exactly_itemLimit_items sampleCheck 1 5000
           twoItems (mkScanState "" 2 1 13 0 0 0 [batch1]) HL eq_refl).
Defined.

Lemma limit_zero_reads_one_line_witness :
  (stdinLines twoItems =
     [] ++ "action1"%string :: ["doc1"; "action2"; "doc2";
                                "dataset-size:2,4"]%string /\
   isTotalsRecord sampleCheck "action1" = false /\
   snd (sampleCheck "action1") = None /\
   scannerErr twoItems = None) /\
  scan sampleCheck 0 5000 twoItems =
    ([Send ("action1" ++ newline); Done; Exit1 BadBulkFormat],
     Fatal BadBulkFormat).
Proof.
  split; [repeat split|].
  exact (limit_zero_reads_one_line sampleCheck 0 5000 twoItems []
           "action1"%string
           ["doc1"; "action2"; "doc2"; "dataset-size:2,4"]%string
           eq_refl eq_refl (Forall_nil _) eq_refl eq_refl eq_refl).
Defined.

Lemma batches_are_full_without_a_limit_witness :
  (-1 < 0 /\ 1 <= 2 <= maxInt64 /\
   Forall isLine (stdinLines threeItems) /\
   6 <= maxInt64 /\
   scanLoop sampleCheck (-1) 2 (stdinLines threeItems) initScan =
     (mkScanState batch3 6 3 26 3 6 1 [(batch1 ++ batch2)%string],
      InputExhausted)) /\
  Forall (fun b => itemsIn b = 2) [(batch1 ++ batch2)%string] /\
  1 = 3 / 2 /\
  itemsIn batch3 = 3 mod 2.
Proof.
  assert (Hlim : -1 < 0) by lia.
  assert (HB : 1 <= 2 <= maxInt64) by (unfold maxInt64; lia).
  assert (Hlines : Forall isLine (stdinLines threeItems))
    by (repeat constructor).
  assert (Hmax : 6 <= maxInt64) by (unfold maxInt64; lia).
  split; [repeat split; try assumption; apply HB|].
  exact (batches_are_full_without_a_limit sampleCheck (-1) 2 threeItems
           (mkScanState batch3 6 3 26 3 6 1 [(batch1 ++ batch2)%string])
           Hlim HB Hlines Hmax eq_refl).
Defined.

Lemma submitted_is_bytesRead_plus_last_batch_witness :
  (lineBytes (stdinLines oneItem) <= maxInt64 /\
   scanLoop sampleCheck (-1) 2 (stdinLines oneItem) initScan =
     (mkScanState batch1 2 1 0 1 2 1 [], InputExhausted) /\
   snd (scan sampleCheck (-1) 2 oneItem) = Returned 1 0 2) /\
  bytesSubmitted
    (runWrites (main sampleCheck alwaysWritten storeOnly [sampleUrl] 1 2
                     (-1) false true "" "loader" [0%nat] oneItem)) =
    0 + 13.
Proof.
  assert (Hmax : lineBytes (stdinLines oneItem) <= maxInt64)
    by (intros H; discriminate H).
  split; [repeat split; exact Hmax|].
  exact (submitted_is_bytesRead_plus_last_batch
           sampleCheck alwaysWritten storeOnly [sampleUrl] 1 2 (-1)
           false true ""%string "loader"%string [0%nat] oneItem
           (mkScanState batch1 2 1 0 1 2 1 []) InputExhausted 1 0 2
           eq_refl eq_refl (fun _ => eq_refl) Hmax eq_refl eq_refl eq_refl
           (Forall_cons _ (le_n 1) (Forall_nil _))).
Defined.

Lemma worker_drains_the_channel_then_stops_witness :
  pc (runWorker true false "loader" alwaysWritten storeOnly 3 atStart)
    = WorkerDone /\
  written (runWorker true false "loader" alwaysWritten storeOnly 3 atStart)
    = [mkWrite sampleUrl batch1 false; mkWrite sampleUrl batch2 false].
Proof.
  destruct (worker_drains_the_channel_then_stops alwaysWritten storeOnly
              false true "loader"%string) as [Hrun _].
  destruct (Hrun atStart eq_refl eq_refl eq_refl (fun _ => eq_refl)
                 (Forall_nil _)) as (Hdone & _ & Hwritten).
  split; [exact Hdone|exact Hwritten].
Defined.

Lemma init_tags_witness :
  init "T5" "T6" "A5" "A6" None
       "http://es0:9200,http://es1:9200" "telegraf:8086" 100
       "env:test,url:http://x" "" "no colon here" "default" =
    Value (mkInit twoUrls
                  [("env", "test"); ("url", "http://x")]%string []) /\
  renderTags [("env", "test"); ("url", "http://x")]%string =
    "env:test,url:http://x"%string /\
  @nil (string * string) = [].
Proof.
  split; [reflexivity|].
  exact (init_tags "T5" "T6" "A5" "A6" None
           "http://es0:9200,http://es1:9200" "telegraf:8086" 100
           "env:test,url:http://x" "" "no colon here" "default"
           (mkInit twoUrls [("env", "test"); ("url", "http://x")]%string [])
           eq_refl).
Defined.

Lemma init_panics_exactly_witness :
  @None string = None /\
  init "T5" "T6" "A5" "A6" None sampleUrl "telegraf:8086" 100
       "env:test," "" "" "default" = Panicked.
Proof.
  split; [reflexivity|].
  apply (init_panics_exactly "T5" "T6" "A5" "A6" None sampleUrl
           "telegraf:8086" 100 "env:test," "" "" "default" eq_refl).
  left. split; [discriminate|]. right. reflexivity.
Defined.

Lemma checkServer_major_version_witness :
  sampleServer sampleUrl =
    Value [("name"%string, JString "es0");
           ("version"%string,
            JObject [("number"%string, JString "7.10.2")])] /\
  exists major,
    checkServer sampleServer sampleUrl = Value major /\
    Count major "."%char = 0%nat /\
    ("7.10.2"%string = major \/
     exists rest, "7.10.2"%string = (major ++ "." ++ rest)%string).
Proof.
  split; [reflexivity|].
  destruct (checkServer_major_version sampleServer sampleUrl _ eq_refl)
    as [Hnumber _].
  exact (Hnumber [("number"%string, JString "7.10.2")] "7.10.2"%string
                 eq_refl eq_refl).
Defined.

Lemma provision_uses_the_first_url_witness :
  In (Get (sampleUrl ++ "/*"))
     (fst (provision "T5" "T6" "A5" "A6" sampleServer acceptsTemplate
                     true true [sampleUrl; "http://es1:9200"%string]
                     "default" 0 1)) /\
  true = true.
Proof.
  assert (Hin : In (Get (sampleUrl ++ "/*"))
                   (fst (provision "T5" "T6" "A5" "A6" sampleServer
                                   acceptsTemplate true true
                                   [sampleUrl; "http://es1:9200"%string]
                                   "default" 0 1)))
    by (right; right; left; reflexivity).
  split; [exact Hin|].
  exact (proj1 (provision_uses_the_first_url "T5" "T6" "A5" "A6"
                  sampleServer acceptsTemplate true true
                  [sampleUrl; "http://es1:9200"%string] "default" 0 1
                  (Get (sampleUrl ++ "/*")) Hin)).
Defined.

Lemma other_versions_get_an_empty_template_witness :
  (hd ""%string (Split "7.10.2" "."%char) <> "5"%string /\
   hd ""%string (Split "7.10.2" "."%char) <> "6"%string) /\
  fst (provision "T5" "T6" "A5" "A6" sampleServer acceptsTemplate
                 true true [sampleUrl] "default" 0 1) =
    [Get sampleUrl; Get (sampleUrl ++ "/_template");
     Get (sampleUrl ++ "/*");
     PutTemplate sampleUrl "measurements_template" "" 0 1].
Proof.
  assert (H5 : hd ""%string (Split "7.10.2" "."%char) <> "5"%string)
    by discriminate.
  assert (H6 : hd ""%string (Split "7.10.2" "."%char) <> "6"%string)
    by discriminate.
  split; [split; assumption|].
  exact (other_versions_get_an_empty_template "T5" "T6" "A5" "A6"
           sampleServer acceptsTemplate sampleUrl [] "default" 0 1
           _ [("number"%string, JString "7.10.2")] "7.10.2"%string
           [] [] eq_refl eq_refl eq_refl H5 H6 eq_refl eq_refl).
Defined.

Lemma a_refused_request_ends_the_run_witness :
  requests (runSys refusesBatch2 storeOnly 2 false true "loader"
                   refusedThenWritten
                   (startSys sampleCheck twoUrls 2 1 (-1) "" 1 twoItems)) =
    [(0%nat, mkWrite "http://es0:9200" batch2 false);
     (1%nat, mkWrite "http://es1:9200" batch1 false)] /\
  exited (runSys refusesBatch2 storeOnly 2 false true "loader"
                 refusedThenWritten
                 (startSys sampleCheck twoUrls 2 1 (-1) "" 1 twoItems)) =
    Some (Exit1 (WriteError "503")) /\
  pastWait (runSys refusesBatch2 storeOnly 2 false true "loader"
                   refusedThenWritten
                   (startSys sampleCheck twoUrls 2 1 (-1) "" 1 twoItems)) =
    false.
Proof.
  split; [reflexivity|]. split; [reflexivity|].
  pose proof (proj2 (a_refused_request_ends_the_run
                       sampleCheck refusesBatch2 storeOnly twoUrls 2 1 (-1)
                       false true ""%string "loader"%string 1%nat
                       refusedThenWritten twoItems)
                    0%nat (mkWrite "http://es0:9200" batch2 false)
                    "503"%string) as H.
  vm_compute in H. vm_compute. apply H; [now left|reflexivity].
Defined.




Lemma dry_run_writes_nothing_witness :
  requests (runSys alwaysWritten storeOnly 2 false false "loader" swapped
                   (startSys sampleCheck twoUrls 2 1 (-1) "" 1 twoItems)) =
    [] /\
  runWrites (main sampleCheck alwaysWritten storeOnly twoUrls 2 1 (-1)
                  false false "" "loader" [1%nat; 0%nat] twoItems) = [] /\
  runStats (main sampleCheck alwaysWritten storeOnly twoUrls 2 1 (-1)
                 false false "" "loader" [1%nat; 0%nat] twoItems) =
    Some (mkStats 2 26 4).
Proof.
  destruct (dry_run_writes_nothing
              sampleCheck alwaysWritten storeOnly twoUrls 2 1 (-1) false
              false ""%string "loader"%string 1%nat swapped
              [1%nat; 0%nat] twoItems eq_refl)
    as (Hreq & Hwrites & Hstats & _).
  split; [exact Hreq|]. split; [exact Hwrites|].
  apply Hstats. lia.
Defined.
